(** * The proxy tier of the object store: upload pipeline, group pool, sweep

    A shallow embedding of [src/proxy/handler.go].  The proxy talks to three
    services over RPC (auth, metadata, storage), dials storage replicas, reads
    the clock and writes an HTTP answer.  All of these are calls to an
    environment: a handler is a function of the proxy's [Server] state and of
    the state of the environment, and returns the new states together with the
    ordered list of everything it did (the trace).  *)

From stdpp Require Import gmap strings list fin_maps pretty.
From Stdlib Require Import ZArith Lia Ascii String.

(** ** Go's [strconv] on the inputs the handlers give it *)

Module strconv.

Inductive NumError := ErrSyntax | ErrRange.

Definition isDigit (c : ascii) : bool :=
  let n := Ascii.nat_of_ascii c in (48 <=? n)%nat && (n <=? 57)%nat.

Definition digitVal (c : ascii) : Z := Z.of_nat (Ascii.nat_of_ascii c) - 48.

Definition MaxUint64 : Z := 2 ^ 64 - 1.
Definition MaxInt64 : Z := 2 ^ 63 - 1.
Definition MinInt64 : Z := - 2 ^ 63.

(** The loop of [ParseUint] in base 10 and 64 bits: a byte that is not a
    digit is a syntax error; a value that leaves 64 bits is a range error,
    reported at once (the rest of the string is not read) with the largest
    value. *)
Fixpoint parseUintLoop (s : string) (n : Z) : Z * option NumError :=
  match s with
  | EmptyString => (n, None)
  | String c rest =>
      if isDigit c then
        if (MaxUint64 / 10 + 1 <=? n)%Z then (MaxUint64, Some ErrRange)
        else
          let n1 := (n * 10 + digitVal c)%Z in
          if (MaxUint64 <? n1)%Z then (MaxUint64, Some ErrRange)
          else parseUintLoop rest n1
      else (0%Z, Some ErrSyntax)
  end.

(** [strconv.ParseUint(s, 10, 64)] *)
Definition ParseUint (s : string) : Z * option NumError :=
  match s with
  | EmptyString => (0%Z, Some ErrSyntax)
  | _ => parseUintLoop s 0
  end.

(** [strconv.ParseInt(s, 10, 64)]: the value and the error, as Go returns
    both (0 with a syntax error, the nearest bound with a range error). *)
Definition ParseInt (s : string) : Z * option NumError :=
  match s with
  | EmptyString => (0%Z, Some ErrSyntax)
  | String c rest =>
      let neg := Ascii.eqb c "-"%char in
      let digits := if Ascii.eqb c "+"%char || neg then rest else s in
      match ParseUint digits with
      | (_, Some ErrSyntax) => (0%Z, Some ErrSyntax)
      | (un, _) =>
          if negb neg && (2 ^ 63 <=? un)%Z then (MaxInt64, Some ErrRange)
          else if neg && (2 ^ 63 <? un)%Z then (MinInt64, Some ErrRange)
          else (if neg then (- un)%Z else un, None)
      end
  end.

(** [strconv.Atoi] on a 64-bit platform. *)
Definition Atoi (s : string) : Z * option NumError := ParseInt s.

(** [strconv.FormatInt(i, 10)] and [strconv.Itoa]. *)
Definition FormatInt (i : Z) : string := pretty i.
Definition Itoa (i : Z) : string := pretty i.

End strconv.

(** ** Errors: gRPC status errors and plain Go errors *)

Inductive Code :=
| OK | Canceled | Unknown | InvalidArgument | DeadlineExceeded | NotFound
| AlreadyExists | PermissionDenied | ResourceExhausted | FailedPrecondition
| Aborted | OutOfRange | Unimplemented | Internal | Unavailable | DataLoss
| Unauthenticated.

Inductive error :=
| StatusError (c : Code) (msg : string)   (* status.Error(c, msg) *)
| PlainError (msg : string).              (* any other Go error value *)


(** A Go pair [(value, err)]: [Err e] when [err != nil]. *)
Inductive result (A : Type) :=
| Ok (a : A)
| Err (e : error).
Arguments Ok {A} a.
Arguments Err {A} e.

(** ** Messages of the three services *)

(** Modelled from the spec: the constants [global.PermissionNone] ...
    [global.PermissionOwner] of package [oss/global], which is not among the
    sources; the spec gives the ordered scale None, Read, Write, Owner. *)
Inductive Permission :=
| PermissionNone | PermissionRead | PermissionWrite | PermissionOwner.

(** [pm.Group] *)
Record Group := { GroupId : string; Addresses : list string }.

(** [pm.CheckMetaResponse]; [Group] is a pointer and may be nil. *)
Record CheckMetaResponse := { Existed : bool; cm_Group : option Group }.

(** [pm.GetMetaResponse] *)
Record GetMetaResponse := {
  gm_Group : option Group;
  gm_VolumeId : Z;
  gm_Offset : Z;
  gm_Size : Z;
  gm_Name : string;
  gm_CreatedTime : Z
}.

(** An element of [pm.ListObjectResponse.Objects] *)
Record Object := {
  ob_Key : string;
  ob_Name : string;
  ob_Size : Z;
  ob_CreatedTime : Z
}.

(** [ps.ConfirmResponse] *)
Record ConfirmResponse := { VolumeId : Z; Offset : Z; Size : Z }.

(** A [*grpc.ClientConn]: an opaque handle, chosen by whoever dials. *)
Definition Conn := nat.

(** [time.Time]: the wall clock (as [UnixNano]) and the monotonic reading. *)
Record Time := { wall : Z; mono : Z }.

Definition Time_Add (t : Time) (d : Z) : Time :=
  {| wall := wall t + d; mono := mono t + d |}.
(** [t.After(u)] *)
Definition Time_After (t u : Time) : bool := (mono u <? mono t)%Z.
Definition Time_UnixNano (t : Time) : Z := wall t.

Definition second : Z := 1000000000.

Definition maxStorageConnection : nat := 10.
Definition checkExpiredBlobsTimeout : Z := 30 * second.
Definition executeTimeout : Z := 2 * second.

(** ** Calls to the environment, indexed by the type of their answer *)

Inductive Call : Type -> Type :=
(* pa.AuthForProxyClient *)
| AuthCheck (token bucket : string) (permission : Permission) : Call (result unit)
| AuthConfirm (token bucket : string) : Call (result unit)
| AuthClear (bucket : string) : Call (result unit)
| AuthLogin (name pass : string) : Call (result string)
| AuthGrant (token name bucket : string) (permission : Z) : Call (result unit)
| AuthRegister (token name pass : string) (role : Z) : Call (result unit)
(* pm.MetadataForProxyClient *)
| MetaCreateBucket (bucket : string) : Call (result unit)
| MetaDeleteBucket (bucket : string) : Call (result unit)
| MetaListBucket : Call (result (list string))
| MetaCheckMeta (bucket name key tag : string) : Call (result CheckMetaResponse)
| MetaPutMeta (bucket key tag name groupId : string) (volumeId offset size : Z)
    : Call (result unit)
| MetaGetMeta (bucket key : string) : Call (result GetMetaResponse)
| MetaDeleteMeta (bucket key : string) : Call (result unit)
| MetaRangeObject (bucket from to : string) : Call (result (list string))
| MetaListObject (bucket : string) : Call (result (list Object))
(* ps.StorageForProxyClient, on one connection *)
| StorageGet (c : Conn) (volumeId offset start : Z) : Call (result string)
| StorageCreate (c : Conn) (tag id : string) : Call (result unit)
| StoragePut (c : Conn) (body id : string) (offset : Z) : Call (result unit)
| StorageConfirm (c : Conn) (id : string) : Call (result ConfirmResponse)
| StorageCheckBlob (c : Conn) : Call (result (list string))
(* grpc.Dial, conn.Close, time.Now, <-ticker.C *)
| Dial (address : string) : Call (result Conn)
| ConnClose (c : Conn) : Call (result unit)
| TimeNow : Call Time
| TickerRecv : Call unit.

(** ** What a run leaves behind *)

Inductive Event :=
| EvCall {R : Type} (c : Call R) (r : R)
| EvRegister (id : string) (g : Group)        (* s.UploadTask[id] = g *)
| EvUnregister (id : string)                  (* delete(s.UploadTask, id) *)
| EvCacheInsert (groupId : string) (connections : list Conn)
| EvCacheEvict (groupId : string)             (* delete(s.dataClients, k) *)
| EvLogWarn (groupId : string)
| EvHeader (key value : string)               (* w.Header().Add *)
| EvWriteError (e : error)                    (* writeError(w, e) *)
| EvWriteResponse (body : string).            (* writeResponse(w, body) *)

(** Classifiers and extractors on events. *)

Definition isAuthCall {R} (c : Call R) : bool :=
  match c with
  | AuthCheck _ _ _ | AuthConfirm _ _ | AuthClear _ | AuthLogin _ _
  | AuthGrant _ _ _ _ | AuthRegister _ _ _ _ => true
  | _ => false
  end.

Definition isMetaCall {R} (c : Call R) : bool :=
  match c with
  | MetaCreateBucket _ | MetaDeleteBucket _ | MetaListBucket
  | MetaCheckMeta _ _ _ _ | MetaPutMeta _ _ _ _ _ _ _ _ | MetaGetMeta _ _
  | MetaDeleteMeta _ _ | MetaRangeObject _ _ _ | MetaListObject _ => true
  | _ => false
  end.

Definition isStorageCall {R} (c : Call R) : bool :=
  match c with
  | StorageGet _ _ _ _ | StorageCreate _ _ _ | StoragePut _ _ _ _
  | StorageConfirm _ _ | StorageCheckBlob _ => true
  | _ => false
  end.

Definition isAuthRPC (ev : Event) : bool :=
  match ev with EvCall c _ => isAuthCall c | _ => false end.
Definition isMetaRPC (ev : Event) : bool :=
  match ev with EvCall c _ => isMetaCall c | _ => false end.
Definition isStorageRPC (ev : Event) : bool :=
  match ev with EvCall c _ => isStorageCall c | _ => false end.
Definition isRPC (ev : Event) : bool :=
  isAuthRPC ev || isMetaRPC ev || isStorageRPC ev.

Definition isRegister (ev : Event) : bool :=
  match ev with EvRegister _ _ => true | _ => false end.
Definition isUnregister (ev : Event) : bool :=
  match ev with EvUnregister _ => true | _ => false end.


(** What the handler wrote to the client. *)
Definition isWrite (ev : Event) : bool :=
  match ev with EvWriteError _ | EvWriteResponse _ => true | _ => false end.
Definition responses (tr : list Event) : list Event := List.filter isWrite tr.

(** ** The proxy's state *)

(** [Server]: the group connection cache, the upload registry and the command
    counter (an [int64]).  The RPC clients and the lock are not data. *)
Record Server := {
  dataClients : gmap string (list Conn);
  UploadTask : gmap string Group;          (* taskID -> group *)
  Address : string;
  ClientId : Z;
  CommandId : Z
}.

Definition wrap64 (z : Z) : Z := ((z + 2 ^ 63) mod 2 ^ 64 - 2 ^ 63)%Z.

Definition setUploadTask (f : gmap string Group -> gmap string Group) (s : Server) : Server :=
  {| dataClients := dataClients s; UploadTask := f (UploadTask s);
     Address := Address s; ClientId := ClientId s; CommandId := CommandId s |}.

Definition setDataClients
    (f : gmap string (list Conn) -> gmap string (list Conn)) (s : Server) : Server :=
  {| dataClients := f (dataClients s); UploadTask := UploadTask s;
     Address := Address s; ClientId := ClientId s; CommandId := CommandId s |}.

Definition incrCommandId (s : Server) : Server :=
  {| dataClients := dataClients s; UploadTask := UploadTask s;
     Address := Address s; ClientId := ClientId s;
     CommandId := wrap64 (CommandId s + 1) |}.

(** An [*http.Request] as the handlers read it: the form values, and what
    [ioutil.ReadAll(r.Body)] gives. *)
Record Request := {
  form : gmap string string;
  body : result string
}.

(** Modelled from the spec: [checkParameter], a function of package [proxy]
    that is not among the sources.  The spec says that a request with a missing
    required parameter is an InvalidArgument error; here a parameter is missing
    when the form has no value for it, the answer is then a nil map and the
    error, and otherwise the map of the required parameters.  The text of the
    message is not given by the spec. *)
Fixpoint checkParameter (r : Request) (parameters : list string)
    : gmap string string * option error :=
  match parameters with
  | [] => (∅, None)
  | p :: rest =>
      match form r !! p with
      | None => (∅, Some (StatusError InvalidArgument ("missing parameter " +:+ p)))
      | Some v =>
          match checkParameter r rest with
          | (m, None) => (<[p := v]> m, None)
          | (_, Some e) => (∅, Some e)
          end
      end
  end.

(** [p[k]] on a Go map of strings: the empty string when [k] is absent. *)
Definition param (p : gmap string string) (k : string) : string := default "" (p !! k).

(** The value of a form parameter of a request. *)
Definition formValue (r : Request) (k : string) : string := default "" (form r !! k).

(** ** Runs *)

Inductive outcome (A : Type) :=
| Done (a : A)
| Panic (msg : string)     (* a run-time panic: index out of range, nil pointer *)
| OutOfFuel.               (* the fuel given to a retry loop is used up *)
Arguments Done {A} a.
Arguments Panic {A} msg.
Arguments OutOfFuel {A}.

Section Monad.

(** The environment: any state machine that answers the calls. *)
Context {E : Type}.
Variable world : forall R, Call R -> E -> E * R.

Record Run (A : Type) := MkRun {
  out : outcome A;
  srv : Server;
  env : E;
  trace : list Event
}.
Arguments MkRun {A}.
Arguments out {A}.
Arguments srv {A}.
Arguments env {A}.
Arguments trace {A}.

Definition M (A : Type) : Type := Server -> E -> Run A.

Definition ret {A} (a : A) : M A := fun s e => MkRun (Done a) s e [].

Definition bind {A B} (m : M A) (k : A -> M B) : M B :=
  fun s e =>
    let r := m s e in
    match out r with
    | Done a =>
        let r' := k a (srv r) (env r) in
        MkRun (out r') (srv r') (env r') (trace r ++ trace r')
    | Panic msg => MkRun (Panic msg) (srv r) (env r) (trace r)
    | OutOfFuel => MkRun OutOfFuel (srv r) (env r) (trace r)
    end.

Definition panic {A} (msg : string) : M A := fun s e => MkRun (Panic msg) s e [].
Definition outOfFuel {A} : M A := fun s e => MkRun OutOfFuel s e [].

Definition emit (ev : Event) : M unit := fun s e => MkRun (Done tt) s e [ev].

Definition getServer : M Server := fun s e => MkRun (Done s) s e [].
Definition getEnv : M E := fun s e => MkRun (Done e) s e [].
Definition modify (f : Server -> Server) : M unit := fun s e => MkRun (Done tt) (f s) e [].

(** One call to the environment, recorded with its answer. *)
Definition call {R} (c : Call R) : M R :=
  fun s e => let (e', r) := world R c e in MkRun (Done r) s e' [EvCall c r].

End Monad.

Arguments MkRun {E A}.
Arguments out {E A}.
Arguments srv {E A}.
Arguments env {E A}.
Arguments trace {E A}.
Arguments ret {E A}.
Arguments bind {E A B}.
Arguments panic {E A}.
Arguments outOfFuel {E A}.
Arguments emit {E}.
Arguments getServer {E}.
Arguments getEnv {E}.
Arguments modify {E}.

Notation "x <- m ;; k" := (bind m (fun x => k))
  (at level 100, m at next level, right associativity).
Notation "m ;;; k" := (bind m (fun _ => k))
  (at level 100, right associativity).

(** ** The handlers *)

Section Proxy.

Context {E : Type}.
Variable world : forall R, Call R -> E -> E * R.

(** Go leaves the order of [range] over a map open; [rangeOrder] is that
    order for the connection cache, in a given state of the environment. *)
Variable rangeOrder : E -> gmap string (list Conn) -> list (string * list Conn).

(** Environment-dependent text: [time.Unix(t, 0).Format(time.RFC3339)] (it
    depends on the local time zone) and the generated [String] method of
    [pm.GetMetaResponse]. *)
Variable formatRFC3339 : Z -> string.
Variable GetMetaResponse_String : GetMetaResponse -> string.

Local Abbreviation M := (@M E).
Local Abbreviation call := (call world).

(** Modelled from the spec: [writeError] and [writeResponse], functions of
    package [proxy] that are not among the sources; each writes its argument
    to the client, which the trace records. *)
Definition writeError (e : error) : M unit := emit (EvWriteError e).
Definition writeResponse (body : string) : M unit := emit (EvWriteResponse body).

(** *** The storage RPC wrappers

    [sendGet], [sendCreate], [sendPut], [sendConfirm] and [sendCheckBlob]
    are one loop around five different client methods; [sendLoop] is that
    loop from the top of an iteration, [rpc] the method. *)
Fixpoint sendLoop {R} (rpc : Conn -> Call (result R)) (connections : list Conn)
    (deadline : Time) (fuel : nat) (index : nat) : M (result R) :=
  match fuel with
  | O => outOfFuel
  | S fuel' =>
      match connections !! index with
      | None => panic "index out of range"
      | Some client =>
          r <- call (rpc client) ;;
          match r with
          | Err err =>
              let index := (index + 1) mod List.length connections in
              now <- call TimeNow ;;
              if Time_After now deadline then ret (Err err)
              else sendLoop rpc connections deadline fuel' index
          | Ok response => ret (Ok response)
          end
      end
  end.

Definition send {R} (rpc : Conn -> Call (result R)) (fuel : nat)
    (connections : list Conn) : M (result R) :=
  let index := 0 in
  now <- call TimeNow ;;
  let deadline := Time_Add now executeTimeout in
  modify incrCommandId ;;;
  sendLoop rpc connections deadline fuel index.

Definition sendGet (fuel : nat) (connections : list Conn) (volumeId offset start : Z) :=
  send (fun c => StorageGet c volumeId offset start) fuel connections.
Definition sendCreate (fuel : nat) (connections : list Conn) (tag id : string) :=
  send (fun c => StorageCreate c tag id) fuel connections.
Definition sendPut (fuel : nat) (connections : list Conn) (body id : string) (offset : Z) :=
  send (fun c => StoragePut c body id offset) fuel connections.
Definition sendConfirm (fuel : nat) (connections : list Conn) (id : string) :=
  send (fun c => StorageConfirm c id) fuel connections.
Definition sendCheckBlob (fuel : nat) (connections : list Conn) :=
  send (fun c => StorageCheckBlob c) fuel connections.

(** *** The group connection cache *)

(** The loop over [group.Addresses] in [validateConnection]. *)
Fixpoint dialAll (addresses : list string) (connections : list Conn)
    : M (result (list Conn)) :=
  match addresses with
  | [] => ret (Ok connections)
  | address :: rest =>
      r <- call (Dial address) ;;
      match r with
      | Err err => ret (Err err)
      | Ok connection => dialAll rest (connections ++ [connection])
      end
  end.

Fixpoint closeAll (connections : list Conn) : M unit :=
  match connections with
  | [] => ret tt
  | conn :: rest => call (ConnClose conn) ;;; closeAll rest
  end.

(** [for k := range s.dataClients { ...; delete(s.dataClients, k); break }] *)
Definition evictOne : M unit :=
  s <- getServer ;;
  e <- getEnv ;;
  match (rangeOrder e (dataClients s)).*1 with
  | [] => ret tt
  | k :: _ =>
      closeAll (default [] (dataClients s !! k)) ;;;
      modify (setDataClients (delete k)) ;;;
      emit (EvCacheEvict k)
  end.

(** The part of [validateConnection] that holds the write lock. *)
Definition cacheStore (groupId : string) (connections : list Conn) : M unit :=
  s <- getServer ;;
  (if decide (maxStorageConnection <= size (dataClients s)) then evictOne else ret tt) ;;;
  modify (setDataClients (<[groupId := connections]>)) ;;;
  emit (EvCacheInsert groupId connections).

(** [validateConnection].  The dial options (insecure transport, the message
    size limits of [global.MaxTransportSize]) are not part of the model. *)
Definition validateConnection (group : Group) : M (result (list Conn)) :=
  s <- getServer ;;
  match dataClients s !! GroupId group with
  | Some connections => ret (Ok connections)
  | None =>
      r <- dialAll (Addresses group) [] ;;
      match r with
      | Err err => ret (Err err)
      | Ok connections =>
          cacheStore (GroupId group) connections ;;;
          ret (Ok connections)
      end
  end.

(** *** The expired-blob sweep *)

(** The loop over the groups of the cache, in the order [range] gives. *)
Fixpoint sweepGroups (fuel : nat) (groups : list (string * list Conn))
    (blobs : list string) : M (list string) :=
  match groups with
  | [] => ret blobs
  | (groupId, connections) :: rest =>
      r <- sendCheckBlob fuel connections ;;
      match r with
      | Err _ => emit (EvLogWarn groupId) ;;; sweepGroups fuel rest blobs
      | Ok ids => sweepGroups fuel rest (blobs ++ ids)
      end
  end.

Fixpoint unregisterAll (blobs : list string) : M unit :=
  match blobs with
  | [] => ret tt
  | id :: rest =>
      modify (setUploadTask (delete id)) ;;;
      emit (EvUnregister id) ;;;
      unregisterAll rest
  end.

(** One turn of the loop of [checkExpiredBlobs]. *)
Definition sweepTick (fuel : nat) : M unit :=
  s <- getServer ;;
  e <- getEnv ;;
  let connMap := dataClients s in
  blobs <- sweepGroups fuel (rangeOrder e connMap) [] ;;
  unregisterAll blobs ;;;
  call TickerRecv.

(** [checkExpiredBlobs], for [ticks] turns of its loop. *)
Fixpoint checkExpiredBlobs (fuel : nat) (ticks : nat) : M unit :=
  match ticks with
  | O => ret tt
  | S n => sweepTick fuel ;;; checkExpiredBlobs fuel n
  end.

(** *** The HTTP handlers *)

Definition createBucket (r : Request) : M unit :=
  let (p, err) := checkParameter r ["bucket"; "token"] in
  match err with
  | Some err => writeError err
  | None =>
      let bucket := param p "bucket" in
      let token := param p "token" in
      a <- call (AuthCheck token bucket PermissionNone) ;;
      match a with
      | Err err => writeError err
      | Ok _ =>
          m <- call (MetaCreateBucket bucket) ;;
          match m with
          | Err err => writeError err
          | Ok _ =>
              c <- call (AuthConfirm token bucket) ;;
              match c with
              | Err err => writeError err
              | Ok _ => writeResponse ""
              end
          end
      end
  end.

Definition listBucket (r : Request) : M unit :=
  let (_, err) := checkParameter r ["token"] in
  match err with
  | Some err => writeError err
  | None =>
      m <- call MetaListBucket ;;
      match m with
      | Err err => writeError err
      | Ok buckets => writeResponse (String.concat " " buckets)
      end
  end.

(** The error branch of [checkParameter] writes the error and has no
    [return]: the handler goes on with the nil map. *)
Definition deleteBucket (r : Request) : M unit :=
  let (p, err) := checkParameter r ["bucket"; "token"] in
  match err with
  | Some err => writeError err
  | None => ret tt
  end ;;;
  let bucket := param p "bucket" in
  let token := param p "token" in
  a <- call (AuthCheck token bucket PermissionOwner) ;;
  match a with
  | Err err => writeError err
  | Ok _ =>
      m <- call (MetaDeleteBucket bucket) ;;
      match m with
      | Err err => writeError err
      | Ok _ =>
          c <- call (AuthClear bucket) ;;
          match c with
          | Err err => writeError err
          | Ok _ => writeResponse ""
          end
      end
  end.

Definition createUploadID (fuel : nat) (r : Request) : M unit :=
  let (p, err) :=
    checkParameter r ["bucket"; "name"; "key"; "tag"; "token"; "id"] in
  match err with
  | Some err => writeError err
  | None =>
      let bucket := param p "bucket" in
      let name := param p "name" in
      let key := param p "key" in
      let tag := param p "tag" in
      let token := param p "token" in
      let id := param p "id" in
      a <- call (AuthCheck token bucket PermissionWrite) ;;
      match a with
      | Err err => writeError err
      | Ok _ =>
          m <- call (MetaCheckMeta bucket name key tag) ;;
          match m with
          | Err err => writeError err
          | Ok response =>
              if Existed response then writeResponse (strconv.Itoa 0)
              else
                s <- getServer ;;
                if bool_decide (id ≠ "0") && bool_decide (is_Some (UploadTask s !! id))
                then writeResponse id
                else
                  let group := cm_Group response in
                  now <- call TimeNow ;;
                  let id := strconv.FormatInt (Time_UnixNano now) in
                  match group with
                  | None => panic "nil pointer dereference"
                  | Some group =>
                      let g := {| GroupId := GroupId group;
                                  Addresses := Addresses group |} in
                      modify (setUploadTask (<[id := g]>)) ;;;
                      emit (EvRegister id g) ;;;
                      v <- validateConnection group ;;
                      match v with
                      | Err err => writeError err
                      | Ok connections =>
                          c <- sendCreate fuel connections tag id ;;
                          match c with
                          | Err err => writeError err
                          | Ok _ => writeResponse id
                          end
                      end
                  end
          end
      end
  end.

Definition confirmUploadID (fuel : nat) (r : Request) : M unit :=
  let (p, err) :=
    checkParameter r ["id"; "name"; "bucket"; "key"; "tag"; "token"] in
  match err with
  | Some err => writeError err
  | None =>
      let id := param p "id" in
      let name := param p "name" in
      let key := param p "key" in
      let bucket := param p "bucket" in
      let tag := param p "tag" in
      let token := param p "token" in
      a <- call (AuthCheck token bucket PermissionWrite) ;;
      match a with
      | Err err => writeError err
      | Ok _ =>
          s <- getServer ;;
          match UploadTask s !! id with
          | None => writeError (StatusError InvalidArgument "invalid upload id value")
          | Some group =>
              v <- validateConnection group ;;
              match v with
              | Err err => writeError err
              | Ok connections =>
                  c <- sendConfirm fuel connections id ;;
                  match c with
                  | Err err => writeError err
                  | Ok confirmResponse =>
                      m <- call (MetaPutMeta bucket key tag name (GroupId group)
                                   (VolumeId confirmResponse)
                                   (Offset confirmResponse)
                                   (Size confirmResponse)) ;;
                      match m with
                      | Err err => writeError err
                      | Ok _ => writeResponse ""
                      end
                  end
              end
          end
      end
  end.

Definition putObject (fuel : nat) (r : Request) : M unit :=
  let (p, err) := checkParameter r ["id"; "bucket"; "offset"; "token"] in
  match err with
  | Some err => writeError err
  | None =>
      let id := param p "id" in
      let offsetS := param p "offset" in
      let bucket := param p "bucket" in
      let token := param p "token" in
      a <- call (AuthCheck token bucket PermissionWrite) ;;
      match a with
      | Err err => writeError err
      | Ok _ =>
          match strconv.ParseInt offsetS with
          | (_, Some _) =>
              writeError (StatusError InvalidArgument "invalid upload file offset")
          | (offset, None) =>
              match body r with
              | Err err => writeError err
              | Ok body =>
                  s <- getServer ;;
                  match UploadTask s !! id with
                  | None =>
                      writeError (StatusError InvalidArgument "invalid upload id value")
                  | Some group =>
                      v <- validateConnection group ;;
                      match v with
                      | Err err => writeError err
                      | Ok connections =>
                          c <- sendPut fuel connections body id offset ;;
                          match c with
                          | Err err => writeError err
                          | Ok _ => writeResponse ""
                          end
                      end
                  end
              end
          end
      end
  end.

Definition getObject (fuel : nat) (r : Request) : M unit :=
  let (p, err) := checkParameter r ["bucket"; "key"; "token"; "start"] in
  match err with
  | Some err => writeError err
  | None =>
      let bucket := param p "bucket" in
      let key := param p "key" in
      let token := param p "token" in
      let startS := param p "start" in
      let start := (strconv.ParseInt startS).1 in
      a <- call (AuthCheck token bucket PermissionRead) ;;
      match a with
      | Err err => writeError err
      | Ok _ =>
          m <- call (MetaGetMeta bucket key) ;;
          match m with
          | Err err => writeError err
          | Ok getMetaResponse =>
              match gm_Group getMetaResponse with
              | None => panic "nil pointer dereference"
              | Some group =>
                  v <- validateConnection group ;;
                  match v with
                  | Err err => writeError err
                  | Ok connections =>
                      g <- sendGet fuel connections (gm_VolumeId getMetaResponse)
                             (gm_Offset getMetaResponse) start ;;
                      match g with
                      | Err err => writeError err
                      | Ok body =>
                          emit (EvHeader "name" (gm_Name getMetaResponse)) ;;;
                          writeResponse body
                      end
                  end
              end
          end
      end
  end.

Definition deleteObject (r : Request) : M unit :=
  let (p, err) := checkParameter r ["bucket"; "key"; "token"] in
  match err with
  | Some err => writeError err
  | None =>
      let bucket := param p "bucket" in
      let key := param p "key" in
      let token := param p "token" in
      a <- call (AuthCheck token bucket PermissionWrite) ;;
      match a with
      | Err err => writeError err
      | Ok _ =>
          m <- call (MetaDeleteMeta bucket key) ;;
          match m with
          | Err err => writeError err
          | Ok _ => writeResponse ""
          end
      end
  end.

Definition getObjectMeta (r : Request) : M unit :=
  let (p, err) := checkParameter r ["bucket"; "key"; "token"] in
  match err with
  | Some err => writeError err
  | None =>
      let bucket := param p "bucket" in
      let key := param p "key" in
      let token := param p "token" in
      a <- call (AuthCheck token bucket PermissionRead) ;;
      match a with
      | Err err => writeError err
      | Ok _ =>
          m <- call (MetaGetMeta bucket key) ;;
          match m with
          | Err err => writeError err
          | Ok response => writeResponse (GetMetaResponse_String response)
          end
      end
  end.

(** [fmt.Sprintf("%v", keys)] for a slice of strings. *)
Definition sprintStrings (keys : list string) : string :=
  "[" +:+ String.concat " " keys +:+ "]".

Definition rangeObject (r : Request) : M unit :=
  let (p, err) := checkParameter r ["bucket"; "from"; "to"; "token"] in
  match err with
  | Some err => writeError err
  | None =>
      let bucket := param p "bucket" in
      let from := param p "from" in
      let to := param p "to" in
      let token := param p "token" in
      a <- call (AuthCheck token bucket PermissionRead) ;;
      match a with
      | Err err => writeError err
      | Ok _ =>
          m <- call (MetaRangeObject bucket from to) ;;
          match m with
          | Err err => writeError err
          | Ok keys => writeResponse (sprintStrings keys)
          end
      end
  end.

(** One line of [listObject]: key, name, size and creation time. *)
Definition sprintObject (object : Object) : string :=
  ob_Key object +:+ " " +:+ ob_Name object +:+ " " +:+ pretty (ob_Size object)
    +:+ " " +:+ formatRFC3339 (ob_CreatedTime object) +:+ String "010" "".

Definition listObject (r : Request) : M unit :=
  let (p, err) := checkParameter r ["bucket"; "token"] in
  match err with
  | Some err => writeError err
  | None =>
      let bucket := param p "bucket" in
      let token := param p "token" in
      a <- call (AuthCheck token bucket PermissionRead) ;;
      match a with
      | Err err => writeError err
      | Ok _ =>
          m <- call (MetaListObject bucket) ;;
          match m with
          | Err err => writeError err
          | Ok objects => writeResponse (String.concat "" (sprintObject <$> objects))
          end
      end
  end.

Definition loginUser (r : Request) : M unit :=
  let (p, err) := checkParameter r ["name"; "pass"] in
  match err with
  | Some err => writeError err
  | None =>
      let name := param p "name" in
      let pass := param p "pass" in
      a <- call (AuthLogin name pass) ;;
      match a with
      | Err err => writeError err
      | Ok token => writeResponse token
      end
  end.

Definition grantUser (r : Request) : M unit :=
  let (p, err) := checkParameter r ["name"; "bucket"; "permission"; "token"] in
  match err with
  | Some err => writeError err
  | None =>
      let name := param p "name" in
      let bucket := param p "bucket" in
      let permission := param p "permission" in
      let token := param p "token" in
      match strconv.Atoi permission with
      | (_, Some _) =>
          writeError (StatusError InvalidArgument "permission should be a number")
      | (level, None) =>
          a <- call (AuthGrant token name bucket level) ;;
          match a with
          | Err err => writeError err
          | Ok _ => writeResponse ""
          end
      end
  end.

Definition createUser (r : Request) : M unit :=
  let (p, err) := checkParameter r ["name"; "pass"; "role"; "token"] in
  match err with
  | Some err => writeError err
  | None =>
      let name := param p "name" in
      let pass := param p "pass" in
      let role := param p "role" in
      let token := param p "token" in
      match strconv.Atoi role with
      | (_, Some _) =>
          writeError (StatusError InvalidArgument "role should be a number")
      | (number, None) =>
          a <- call (AuthRegister token name pass number) ;;
          match a with
          | Err err => writeError err
          | Ok _ => writeResponse ""
          end
      end
  end.

(** The handlers by name, and what each requires of a request. *)
Inductive Handler :=
| HCreateBucket | HListBucket | HDeleteBucket | HCreateUploadID
| HConfirmUploadID | HPutObject | HGetObject | HDeleteObject
| HGetObjectMeta | HRangeObject | HListObject | HLoginUser | HGrantUser
| HCreateUser.

Definition handle (h : Handler) (fuel : nat) (r : Request) : M unit :=
  match h with
  | HCreateBucket => createBucket r
  | HListBucket => listBucket r
  | HDeleteBucket => deleteBucket r
  | HCreateUploadID => createUploadID fuel r
  | HConfirmUploadID => confirmUploadID fuel r
  | HPutObject => putObject fuel r
  | HGetObject => getObject fuel r
  | HDeleteObject => deleteObject r
  | HGetObjectMeta => getObjectMeta r
  | HRangeObject => rangeObject r
  | HListObject => listObject r
  | HLoginUser => loginUser r
  | HGrantUser => grantUser r
  | HCreateUser => createUser r
  end.

End Proxy.

Arguments Handler : clear implicits.
Arguments validateConnection : simpl never.
Arguments cacheStore : simpl never.
Arguments evictOne : simpl never.
Arguments send : simpl never.
Arguments sweepTick : simpl never.

(** ** A scripted environment

    A small deterministic environment for running the handlers on concrete
    requests.  Its state is a clock in nanoseconds; every reading of the clock
    moves it by [sc_tick]. *)

Record Script := {
  sc_auth : result unit;                      (* the answer of every auth call *)
  sc_checkMeta : result CheckMetaResponse;
  sc_getMeta : result GetMetaResponse;
  sc_meta : result unit;                      (* the other metadata calls *)
  sc_down : Conn -> bool;                     (* replicas that answer Unavailable *)
  sc_confirm : ConfirmResponse;
  sc_expired : Conn -> list string;           (* what CheckBlob reports *)
  sc_dial : string -> result Conn;
  sc_tick : Z
}.

Definition replica {A} (sc : Script) (c : Conn) (a : A) : result A :=
  if sc_down sc c then Err (StatusError Unavailable "replica down") else Ok a.

Definition scripted (sc : Script) (R : Type) (c : Call R) (clock : Z) : Z * R :=
  match c in Call R return Z * R with
  | AuthCheck _ _ _ | AuthConfirm _ _ | AuthClear _ | AuthGrant _ _ _ _
  | AuthRegister _ _ _ _ => (clock, sc_auth sc)
  | AuthLogin _ _ =>
      (clock, match sc_auth sc with Ok _ => Ok "token" | Err e => Err e end)
  | MetaCreateBucket _ | MetaDeleteBucket _ | MetaPutMeta _ _ _ _ _ _ _ _
  | MetaDeleteMeta _ _ => (clock, sc_meta sc)
  | MetaListBucket | MetaRangeObject _ _ _ =>
      (clock, match sc_meta sc with Ok _ => Ok [] | Err e => Err e end)
  | MetaListObject _ =>
      (clock, match sc_meta sc with Ok _ => Ok [] | Err e => Err e end)
  | MetaCheckMeta _ _ _ _ => (clock, sc_checkMeta sc)
  | MetaGetMeta _ _ => (clock, sc_getMeta sc)
  | StorageGet conn _ _ _ => (clock, replica sc conn "HELLO")
  | StorageCreate conn _ _ => (clock, replica sc conn tt)
  | StoragePut conn _ _ _ => (clock, replica sc conn tt)
  | StorageConfirm conn _ => (clock, replica sc conn (sc_confirm sc))
  | StorageCheckBlob conn => (clock, replica sc conn (sc_expired sc conn))
  | Dial address => (clock, sc_dial sc address)
  | ConnClose _ => (clock, Ok tt)
  | TimeNow =>
      let now := (clock + sc_tick sc)%Z in (now, {| wall := now; mono := now |})
  | TickerRecv => ((clock + checkExpiredBlobsTimeout)%Z, tt)
  end.

(** The order of [range] in the scripted environment: the map's own. *)
Definition scriptedOrder (clock : Z) (m : gmap string (list Conn))
    : list (string * list Conn) := map_to_list m.

(** A group of two replicas, the addresses dialled to handles 1 and 2. *)
Definition groupA : Group := {| GroupId := "A"; Addresses := ["s1:8080"; "s2:8080"] |}.

Definition dialA (address : string) : result Conn :=
  if bool_decide (address = "s1:8080") then Ok 1
  else if bool_decide (address = "s2:8080") then Ok 2
  else Err (PlainError "no such host").

Definition confirmA : ConfirmResponse := {| VolumeId := 7; Offset := 4096; Size := 5 |}.

(** Everything answers; metadata places new objects on [groupA]. *)
Definition allUp : Script := {|
  sc_auth := Ok tt;
  sc_checkMeta := Ok {| Existed := false; cm_Group := Some groupA |};
  sc_getMeta := Ok {| gm_Group := Some groupA; gm_VolumeId := 7; gm_Offset := 4096;
                      gm_Size := 5; gm_Name := "hello.txt"; gm_CreatedTime := 0 |};
  sc_meta := Ok tt;
  sc_down := fun _ => false;
  sc_confirm := confirmA;
  sc_expired := fun _ => [];
  sc_dial := dialA;
  sc_tick := second
|}.

Definition withDown (down : Conn -> bool) (sc : Script) : Script := {|
  sc_auth := sc_auth sc; sc_checkMeta := sc_checkMeta sc; sc_getMeta := sc_getMeta sc;
  sc_meta := sc_meta sc; sc_down := down; sc_confirm := sc_confirm sc;
  sc_expired := sc_expired sc; sc_dial := sc_dial sc; sc_tick := sc_tick sc
|}.

Definition withCheckMeta (r : result CheckMetaResponse) (sc : Script) : Script := {|
  sc_auth := sc_auth sc; sc_checkMeta := r; sc_getMeta := sc_getMeta sc;
  sc_meta := sc_meta sc; sc_down := sc_down sc; sc_confirm := sc_confirm sc;
  sc_expired := sc_expired sc; sc_dial := sc_dial sc; sc_tick := sc_tick sc
|}.

Definition withExpired (expired : Conn -> list string) (sc : Script) : Script := {|
  sc_auth := sc_auth sc; sc_checkMeta := sc_checkMeta sc; sc_getMeta := sc_getMeta sc;
  sc_meta := sc_meta sc; sc_down := sc_down sc; sc_confirm := sc_confirm sc;
  sc_expired := expired; sc_dial := sc_dial sc; sc_tick := sc_tick sc
|}.

Definition emptyServer : Server := {|
  dataClients := ∅; UploadTask := ∅; Address := "127.0.0.1:8082";
  ClientId := 0; CommandId := 0
|}.

Definition request (params : list (string * string)) (payload : result string) : Request :=
  {| form := list_to_map params; body := payload |}.

(** The request of the spec's "happy upload" scenario for [CreateUploadID]. *)
Definition createRequest (id : string) : Request :=
  request [("bucket", "b"); ("name", "hello.txt"); ("key", "hello");
           ("tag", "sha-AAA"); ("token", "T"); ("id", id)] (Ok "").

Definition confirmRequest (id : string) : Request :=
  request [("id", id); ("name", "hello.txt"); ("bucket", "b"); ("key", "hello");
           ("tag", "sha-AAA"); ("token", "T")] (Ok "").

Definition putRequest (id offset : string) (payload : result string) : Request :=
  request [("id", id); ("bucket", "b"); ("offset", offset); ("token", "T")] payload.

(** Scenarios on the scripted environment. *)

Definition noTimeZone (t : Z) : string := pretty t.
Definition noText (m : GetMetaResponse) : string := gm_Name m.

Definition scriptedHandle (sc : Script) (h : Handler) (fuel : nat) (r : Request)
    (s : Server) :=
  handle (scripted sc) scriptedOrder noTimeZone noText h fuel r s 0%Z.

(** Replica 1 is down, replica 2 answers. *)
Definition firstDown : Script := withDown (fun c => bool_decide (c = 1)) allUp.


(** Metadata already holds the tag. *)
Definition deduplicated : Script :=
  withCheckMeta (Ok {| Existed := true; cm_Group := None |}) allUp.

(** Storage reports the upload "123" as expired. *)
Definition expired123 : Script := withExpired (fun _ => ["123"]) allUp.

(** A proxy with the upload "123" registered on [groupA], and one with the
    connections of [groupA] opened as well. *)
Definition uploading : Server := setUploadTask (<["123" := groupA]>) emptyServer.
Definition connected : Server := setDataClients (<["A" := [1; 2]]>) uploading.

(** Two cached groups of one replica each; the replica of "A" is down, the
    replica of "B" reports the upload "123". *)
Definition twoGroups : Server :=
  setDataClients (fun _ => list_to_map [("A", [1]); ("B", [2])]) uploading.
Definition oneDownOneExpired : Script :=
  withExpired (fun c => if bool_decide (c = 2) then ["123"] else []) firstDown.

(** Every reading of the clock comes [tick] after the one before. *)
Definition withTick (tick : Z) (sc : Script) : Script := {|
  sc_auth := sc_auth sc; sc_checkMeta := sc_checkMeta sc; sc_getMeta := sc_getMeta sc;
  sc_meta := sc_meta sc; sc_down := sc_down sc; sc_confirm := sc_confirm sc;
  sc_expired := sc_expired sc; sc_dial := sc_dial sc; sc_tick := tick
|}.

(** The replica of "A" reports the upload "123"; the replica of "B" is down,
    and the calls are slow: the clock moves by 40 s from one reading to the
    next. *)
Definition slowProbes : Script :=
  withTick (40 * second)
    (withExpired (fun c => if bool_decide (c = 1) then ["123"] else [])
       (withDown (fun c => bool_decide (c = 2)) allUp)).

(** A proxy whose cache holds ten groups of one replica each. *)
Definition tenGroups : gmap string (list Conn) :=
  list_to_map [("g0", [10]); ("g1", [11]); ("g2", [12]); ("g3", [13]); ("g4", [14]);
               ("g5", [15]); ("g6", [16]); ("g7", [17]); ("g8", [18]); ("g9", [19])].
Definition atCapacity : Server := setDataClients (fun _ => tenGroups) emptyServer.

(** ** Requests a handler rejects *)

(** The parameters each handler requires (its call of [checkParameter]). *)
Definition required (h : Handler) : list string :=
  match h with
  | HCreateBucket => ["bucket"; "token"]
  | HListBucket => ["token"]
  | HDeleteBucket => ["bucket"; "token"]
  | HCreateUploadID => ["bucket"; "name"; "key"; "tag"; "token"; "id"]
  | HConfirmUploadID => ["id"; "name"; "bucket"; "key"; "tag"; "token"]
  | HPutObject => ["id"; "bucket"; "offset"; "token"]
  | HGetObject => ["bucket"; "key"; "token"; "start"]
  | HDeleteObject => ["bucket"; "key"; "token"]
  | HGetObjectMeta => ["bucket"; "key"; "token"]
  | HRangeObject => ["bucket"; "from"; "to"; "token"]
  | HListObject => ["bucket"; "token"]
  | HLoginUser => ["name"; "pass"]
  | HGrantUser => ["name"; "bucket"; "permission"; "token"]
  | HCreateUser => ["name"; "pass"; "role"; "token"]
  end.

Definition complete (h : Handler) (r : Request) : Prop :=
  forall k, k ∈ required h -> is_Some (form r !! k).


(** ** The states the proxy reaches *)

(** [NewProxyServer]: empty cache and registry; [clientId] is what [nrand]
    drew. *)
Definition NewProxyServer (address : string) (clientId : Z) : Server :=
  {| dataClients := ∅; UploadTask := ∅; Address := address;
     ClientId := clientId; CommandId := 0 |}.

(** The states reached from [NewProxyServer] by handlers and turns of the
    sweep, each run as a whole. *)
Inductive Reachable {E} (world : forall R, Call R -> E -> E * R)
    (rangeOrder : E -> gmap string (list Conn) -> list (string * list Conn))
    (formatRFC3339 : Z -> string) (GetMetaResponse_String : GetMetaResponse -> string)
    : Server -> Prop :=
| ReachNew address clientId :
    Reachable world rangeOrder formatRFC3339 GetMetaResponse_String
      (NewProxyServer address clientId)
| ReachHandle s h fuel r e :
    Reachable world rangeOrder formatRFC3339 GetMetaResponse_String s ->
    Reachable world rangeOrder formatRFC3339 GetMetaResponse_String
      (srv (handle world rangeOrder formatRFC3339 GetMetaResponse_String h fuel r s e))
| ReachSweep s fuel e :
    Reachable world rangeOrder formatRFC3339 GetMetaResponse_String s ->
    Reachable world rangeOrder formatRFC3339 GetMetaResponse_String
      (srv (sweepTick world rangeOrder fuel s e)).

(** The same states, each with the events of the runs that led to it. *)
Inductive History {E} (world : forall R, Call R -> E -> E * R)
    (rangeOrder : E -> gmap string (list Conn) -> list (string * list Conn))
    (formatRFC3339 : Z -> string) (GetMetaResponse_String : GetMetaResponse -> string)
    : list Event -> Server -> Prop :=
| HistoryNew address clientId :
    History world rangeOrder formatRFC3339 GetMetaResponse_String
      [] (NewProxyServer address clientId)
| HistoryHandle tr s h fuel r e :
    History world rangeOrder formatRFC3339 GetMetaResponse_String tr s ->
    History world rangeOrder formatRFC3339 GetMetaResponse_String
      (tr ++ trace (handle world rangeOrder formatRFC3339 GetMetaResponse_String h fuel r s e))
      (srv (handle world rangeOrder formatRFC3339 GetMetaResponse_String h fuel r s e))
| HistorySweep tr s fuel e :
    History world rangeOrder formatRFC3339 GetMetaResponse_String tr s ->
    History world rangeOrder formatRFC3339 GetMetaResponse_String
      (tr ++ trace (sweepTick world rangeOrder fuel s e))
      (srv (sweepTick world rangeOrder fuel s e)).

(** ** Properties of a run that compose

    A relation between the proxy state before a piece of code, the state
    after it and its trace, that holds of doing nothing and of one piece of
    code after another. *)
Definition Step : Type := Server -> Server -> list Event -> Prop.

Record Compositional (step : Step) : Prop := {
  comp_refl : forall s, step s s [];
  comp_trans : forall s s1 s2 t1 t2,
    step s s1 t1 -> step s1 s2 t2 -> step s s2 (t1 ++ t2)
}.

Definition follows {E A} (step : Step) (m : @M E A) : Prop :=
  forall s e, step s (srv (m s e)) (trace (m s e)).

(** A relation that is indifferent to code that leaves the registry and the
    cache alone and neither registers nor unregisters. *)
Record Local (step : Step) : Prop := {
  local_compositional : Compositional step;
  local_same : forall s s' tr,
    UploadTask s' = UploadTask s ->
    dataClients s' = dataClients s ->
    Forall (fun ev => isRegister ev = false /\ isUnregister ev = false) tr ->
    step s s' tr
}.

(** What every handler leaves of the registry: no id is removed from it, an
    id appears in it only with its [EvRegister] event in the trace, and
    nothing is unregistered. *)
Definition registryFrame : Step := fun s s' tr =>
  (forall id, is_Some (UploadTask s !! id) -> is_Some (UploadTask s' !! id)) /\
  (forall id, UploadTask s !! id = None ->
              (forall g, EvRegister id g ∉ tr) -> UploadTask s' !! id = None) /\
  Forall (fun ev => isUnregister ev = false) tr.

(** The cache stays within its capacity. *)
Definition cacheBound : Step := fun s s' _ =>
  size (dataClients s) <= maxStorageConnection ->
  size (dataClients s') <= maxStorageConnection.

(** ** Reading a trace *)

(** The answer of a [metadata.CheckMeta] call, of an auth call. *)
Definition checkMetaReply (ev : Event) : option (result CheckMetaResponse) :=
  match ev with
  | EvCall c r =>
      match c in Call R return R -> option (result CheckMetaResponse) with
      | MetaCheckMeta _ _ _ _ => fun r => Some r
      | _ => fun _ => None
      end r
  | _ => None
  end.

Definition authCheckReply (ev : Event) : option (result unit) :=
  match ev with
  | EvCall c r =>
      match c in Call R return R -> option (result unit) with
      | AuthCheck _ _ _ => fun r => Some r
      | _ => fun _ => None
      end r
  | _ => None
  end.

(** The triple a [metadata.PutMeta] call carries. *)
Definition putMetaTriple (ev : Event) : option (Z * Z * Z) :=
  match ev with
  | EvCall c _ =>
      match c with
      | MetaPutMeta _ _ _ _ _ volumeId offset size => Some (volumeId, offset, size)
      | _ => None
      end
  | _ => None
  end.

(** The triple of a successful [storage.Confirm] answer. *)
Definition confirmedTriple (ev : Event) : option (Z * Z * Z) :=
  match ev with
  | EvCall c r =>
      match c in Call R return R -> option (Z * Z * Z) with
      | StorageConfirm _ _ => fun r =>
          match r with
          | Ok cr => Some (VolumeId cr, Offset cr, Size cr)
          | Err _ => None
          end
      | _ => fun _ => None
      end r
  | _ => None
  end.

(** The ids a successful [storage.CheckBlob] answer reports. *)
Definition reportedIds (ev : Event) : list string :=
  match ev with
  | EvCall c r =>
      match c in Call R return R -> list string with
      | StorageCheckBlob _ => fun r =>
          match r with
          | Ok ids => ids
          | Err _ => []
          end
      | _ => fun _ => []
      end r
  | _ => []
  end.

(** The error of a failed [storage.Confirm] attempt. *)
Definition confirmError (ev : Event) : option error :=
  match ev with
  | EvCall c r =>
      match c in Call R return R -> option error with
      | StorageConfirm _ _ => fun r =>
          match r with
          | Ok _ => None
          | Err err => Some err
          end
      | _ => fun _ => None
      end r
  | _ => None
  end.


(** Before a handler reaches storage: no metadata call, no storage call,
    nothing written. *)
Definition isPrelude (ev : Event) : bool :=
  negb (isMetaRPC ev) && negb (isStorageRPC ev) && negb (isWrite ev).

(** What a handler writes for the answer of its last call. *)
Definition written {A} (r : result A) (body : string) : Event :=
  match r with
  | Ok _ => EvWriteResponse body
  | Err err => EvWriteError err
  end.

(** The connection a [storage.CheckBlob] was sent on. *)
Definition checkBlobTarget (ev : Event) : option Conn :=
  match ev with
  | EvCall c _ => match c with StorageCheckBlob conn => Some conn | _ => None end
  | _ => None
  end.

(** The address a [grpc.Dial] was given. *)
Definition dialTarget (ev : Event) : option string :=
  match ev with
  | EvCall c _ => match c with Dial address => Some address | _ => None end
  | _ => None
  end.

(** Events of the connection cache only: no RPC, nothing written to the
    client, the upload registry untouched. *)
Definition isQuiet (ev : Event) : bool :=
  negb (isRPC ev) && negb (isWrite ev) && negb (isRegister ev) && negb (isUnregister ev).

(** ** What a failover run looks like *)

(** One failed attempt: the call on a replica answers an error, the clock is
    read. *)
Definition attemptFailed {R} (rpc : Conn -> Call (result R))
    (a : Conn * error * Time) : list Event :=
  let '(c, err, now) := a in [EvCall (rpc c) (Err err); EvCall TimeNow now].

(** The [k]-th retried attempt went to the replica [(index + k) mod len], and
    the deadline had not passed when the clock was read after it. *)
Definition Retried (connections : list Conn) (deadline : Time) (index : nat)
    (fails : list (Conn * error * Time)) : Prop :=
  forall k c err now,
    fails !! k = Some (c, err, now) ->
    connections !! ((index + k) mod List.length connections) = Some c /\
    Time_After now deadline = false.

Inductive FailoverEnd {R} (rpc : Conn -> Call (result R)) (deadline : Time)
    (fuel : nat) (tried : nat) (c : Conn) : outcome (result R) -> list Event -> Prop :=
| EndSuccess response :
    FailoverEnd rpc deadline fuel tried c
      (Done (Ok response)) [EvCall (rpc c) (Ok response)]
| EndDeadline err now :
    Time_After now deadline = true ->
    FailoverEnd rpc deadline fuel tried c
      (Done (Err err)) [EvCall (rpc c) (Err err); EvCall TimeNow now]
| EndFuel :
    tried = fuel ->
    FailoverEnd rpc deadline fuel tried c OutOfFuel [].

(** A run of the retry loop from [index]: some attempts fail before the
    deadline and are retried on the next replica; the run ends with the first
    success, with a failure after the deadline, or with the fuel. *)
Definition FailoverRun {R} (rpc : Conn -> Call (result R)) (connections : list Conn)
    (deadline : Time) (index fuel : nat) (o : outcome (result R)) (tr : list Event) : Prop :=
  exists fails c last,
    Retried connections deadline index fails /\
    connections !! ((index + List.length fails) mod List.length connections) = Some c /\
    FailoverEnd rpc deadline fuel (List.length fails) c o last /\
    tr = flat_map (attemptFailed rpc) fails ++ last.

(** What one of the storage wrappers does, by the way it ends: the clock is
    read for the deadline; attempts that fail before the deadline are retried
    on the next replica, from index 0; the wrapper answers the first success,
    or the error of an attempt that failed when the deadline had passed.  A
    wrapper with no replica panics, and a run may use up its fuel. *)
Inductive Sent {R} (rpc : Conn -> Call (result R)) (connections : list Conn)
    (fuel : nat) : outcome (result R) -> list Event -> Prop :=
| SentOk now fails c response :
    Retried connections (Time_Add now executeTimeout) 0 fails ->
    connections !! (List.length fails mod List.length connections) = Some c ->
    Sent rpc connections fuel (Done (Ok response))
      (EvCall TimeNow now :: flat_map (attemptFailed rpc) fails
         ++ [EvCall (rpc c) (Ok response)])
| SentErr now fails c err at_ :
    Retried connections (Time_Add now executeTimeout) 0 fails ->
    connections !! (List.length fails mod List.length connections) = Some c ->
    Time_After at_ (Time_Add now executeTimeout) = true ->
    Sent rpc connections fuel (Done (Err err))
      (EvCall TimeNow now :: flat_map (attemptFailed rpc) fails
         ++ [EvCall (rpc c) (Err err); EvCall TimeNow at_])
| SentFuel now fails :
    Retried connections (Time_Add now executeTimeout) 0 fails ->
    List.length fails = fuel ->
    Sent rpc connections fuel OutOfFuel
      (EvCall TimeNow now :: flat_map (attemptFailed rpc) fails)
| SentPanic now :
    connections = [] ->
    Sent rpc connections fuel (Panic "index out of range") [EvCall TimeNow now].

(** How a handler ends after a storage wrapper: what it writes, and whether
    it returns. *)
Definition answered {R} (o : outcome (result R)) (ok : R -> list Event) : list Event :=
  match o with
  | Done (Ok a) => ok a
  | Done (Err err) => [EvWriteError err]
  | _ => []
  end.

Definition finished {R} (o : outcome (result R)) : outcome unit :=
  match o with
  | Done _ => Done tt
  | Panic msg => Panic msg
  | OutOfFuel => OutOfFuel
  end.

(** The id [CreateUploadID] mints from the clock, the registry value it
    builds from the group of [CheckMeta], and the start of its trace on the
    path that mints an id. *)
Definition mintedId (now : Time) : string := strconv.FormatInt (Time_UnixNano now).

Definition registered (group : Group) : Group :=
  {| GroupId := GroupId group; Addresses := Addresses group |}.

Definition createPrefix (r : Request) (response : CheckMetaResponse) (now : Time)
    (group : Group) : list Event :=
  [EvCall (AuthCheck (formValue r "token") (formValue r "bucket") PermissionWrite) (Ok tt);
   EvCall (MetaCheckMeta (formValue r "bucket") (formValue r "name")
             (formValue r "key") (formValue r "tag")) (Ok response);
   EvCall TimeNow now;
   EvRegister (mintedId now) (registered group)].

(** A run of one of the storage wrappers that came to an end with an answer:
    the first success, or the error of an attempt that failed after the
    deadline. *)
Definition Failover {E R} (fuel : nat) (rpc : Conn -> Call (result R))
    (connections : list Conn) (run : @Run E (result R)) : Prop :=
  Sent rpc connections fuel (out run) (trace run) /\
  exists answer, out run = Done answer.

(** The environment has a clock that never goes back, that every reading
    moves by at least [tick], and that [time.Now] reports. *)
Definition AdvancingClock {E} (world : forall R, Call R -> E -> E * R)
    (clock : E -> Z) (tick : Z) : Prop :=
  (forall R (c : Call R) e, (clock e <= clock (world R c e).1)%Z) /\
  (forall e, (clock e + tick <= clock (world _ TimeNow e).1)%Z /\
             mono (world _ TimeNow e).2 = clock (world _ TimeNow e).1).

(** ** The sweep and the clock *)

(** In the trace [tr], an id that a CheckBlob answer reports is unregistered
    before the clock is seen to have moved by [interval] from a reading that
    came after the answer. *)
Definition removedWithin (interval : Z) (tr : list Event) : Prop :=
  forall i j k ev id r1 r2,
    i < j -> j < k ->
    tr !! i = Some ev -> id ∈ reportedIds ev ->
    tr !! j = Some (EvCall TimeNow r1) ->
    tr !! k = Some (EvCall TimeNow r2) ->
    (mono r1 + interval <= mono r2)%Z ->
    exists u, u < k /\ tr !! u = Some (EvUnregister id).

(** ** The handlers by what they use *)

(** The handlers that go to storage; the other ten serve a request from auth
    and metadata alone. *)
Definition reachesStorage (h : Handler) : bool :=
  match h with
  | HCreateUploadID | HConfirmUploadID | HPutObject | HGetObject => true
  | _ => false
  end.

(** The permission a handler asks [auth.Check] for.  [listBucket] and the
    three handlers of the user service ([loginUser], [grantUser],
    [createUser]) make no such check. *)
Definition permission (h : Handler) : option Permission :=
  match h with
  | HCreateBucket => Some PermissionNone
  | HDeleteBucket => Some PermissionOwner
  | HCreateUploadID | HConfirmUploadID | HPutObject | HDeleteObject => Some PermissionWrite
  | HGetObject | HGetObjectMeta | HRangeObject | HListObject => Some PermissionRead
  | HListBucket | HLoginUser | HGrantUser | HCreateUser => None
  end.

(** An RPC to auth or metadata, or an answer to the client. *)
Definition isService (ev : Event) : bool := isAuthRPC ev || isMetaRPC ev || isWrite ev.

Definition withAuth (a : result unit) (sc : Script) : Script := {|
  sc_auth := a; sc_checkMeta := sc_checkMeta sc; sc_getMeta := sc_getMeta sc;
  sc_meta := sc_meta sc; sc_down := sc_down sc; sc_confirm := sc_confirm sc;
  sc_expired := sc_expired sc; sc_dial := sc_dial sc; sc_tick := sc_tick sc
|}.

(** Auth refuses every request. *)
Definition denied : Script :=
  withAuth (Err (StatusError PermissionDenied "permission denied")) allUp.

(** ** Answers to the client *)

(** A piece of code that writes nothing to the client. *)
Definition Silent {E A} (m : @M E A) : Prop :=
  forall s e, Forall (fun ev => isWrite ev = false) (trace (m s e)).

(** A piece of code that answers the client once, as the last thing it does,
    when it returns; when it does not return, it has written nothing. *)
Definition AnswersOnce {E} (m : @M E unit) : Prop :=
  forall s e,
    match out (m s e) with
    | Done _ =>
        exists pre w, trace (m s e) = pre ++ [w] /\ isWrite w = true /\
                      Forall (fun ev => isWrite ev = false) pre
    | _ => Forall (fun ev => isWrite ev = false) (trace (m s e))
    end.

(** The upload registry is left as it is, and nothing is registered or
    unregistered. *)
Definition registrySame : Step := fun s s' tr =>
  UploadTask s' = UploadTask s /\
  Forall (fun ev => isRegister ev = false /\ isUnregister ev = false) tr.

(** ** Errors of the services *)

Definition errorOf {A} (r : result A) : option error :=
  match r with
  | Ok _ => None
  | Err err => Some err
  end.

(** The error of a call to auth or metadata, or of a dial, that failed.  (A
    failed storage call is retried by the wrappers; the error of
    [conn.Close] is dropped by [validateConnection].) *)
Definition failedCall (ev : Event) : option error :=
  match ev with
  | EvCall c r =>
      match c in Call R return R -> option error with
      | AuthCheck _ _ _ => errorOf
      | AuthConfirm _ _ => errorOf
      | AuthClear _ => errorOf
      | AuthLogin _ _ => errorOf
      | AuthGrant _ _ _ _ => errorOf
      | AuthRegister _ _ _ _ => errorOf
      | MetaCreateBucket _ => errorOf
      | MetaDeleteBucket _ => errorOf
      | MetaListBucket => errorOf
      | MetaCheckMeta _ _ _ _ => errorOf
      | MetaPutMeta _ _ _ _ _ _ _ _ => errorOf
      | MetaGetMeta _ _ => errorOf
      | MetaDeleteMeta _ _ => errorOf
      | MetaRangeObject _ _ _ => errorOf
      | MetaListObject _ => errorOf
      | Dial _ => errorOf
      | _ => fun _ => None
      end r
  | _ => None
  end.

(** In a trace, a failed call to auth or metadata and a failed dial are
    followed by the answer of their error to the client, and by nothing
    else. *)
Definition relaysErrors (tr : list Event) : Prop :=
  forall i err,
    tr !! i ≫= failedCall = Some err -> drop (S i) tr = [EvWriteError err].

Definition Relays {E} (m : @M E unit) : Prop :=
  forall s e, relaysErrors (trace (m s e)).

(** A piece of code in which no such call fails. *)
Definition Clean {E A} (m : @M E A) : Prop :=
  forall s e, Forall (fun ev => failedCall ev = None) (trace (m s e)).

(** The answer of a [metadata.GetMeta] call. *)
Definition getMetaReply (ev : Event) : option (result GetMetaResponse) :=
  match ev with
  | EvCall c r =>
      match c in Call R return R -> option (result GetMetaResponse) with
      | MetaGetMeta _ _ => fun r => Some r
      | _ => fun _ => None
      end r
  | _ => None
  end.

(** A wait for the ticker of the sweep. *)
Definition isTick (ev : Event) : bool :=
  match ev with
  | EvCall c _ => match c with TickerRecv => true | _ => false end
  | _ => false
  end.

(** Metadata places new objects on a group that has no address, and one
    where it answers no group at all. *)
Definition groupNone : Group := {| GroupId := "N"; Addresses := [] |}.
Definition noAddress : Script :=
  withCheckMeta (Ok {| Existed := false; cm_Group := Some groupNone |}) allUp.
Definition noGroup : Script :=
  withCheckMeta (Ok {| Existed := false; cm_Group := None |}) allUp.

(** A proxy that has cached the group without address. *)
Definition cachedNone : Server := setDataClients (<["N" := []]>) connected.

(** What a [storage.Put] carried, and the connection it was sent on. *)
Definition putSent (ev : Event) : option (Conn * string * string * Z) :=
  match ev with
  | EvCall c _ =>
      match c with
      | StoragePut conn body id offset => Some (conn, body, id, offset)
      | _ => None
      end
  | _ => None
  end.

(** ** Panics *)

(** A piece of code that always returns. *)
Definition Returns {E A} (m : @M E A) : Prop :=
  forall s e, exists a, out (m s e) = Done a.

(** A piece of code that panics only on a nil group (when [nil] allows
    it), or with an index out of range while a group is cached without
    connection. *)
Definition PanicsOnly {E} (nil : bool) (m : @M E unit) : Prop :=
  forall s e msg,
    out (m s e) = Panic msg ->
    (msg = "nil pointer dereference" /\ nil = true) \/
    (msg = "index out of range" /\
     exists groupId, dataClients (srv (m s e)) !! groupId = Some []).

(** The handlers that take the group from the answer of metadata (the
    others take it from the upload registry, or need none). *)
Definition groupFromMetadata (h : Handler) : bool :=
  match h with
  | HCreateUploadID | HGetObject => true
  | _ => false
  end.

(** More scenarios on the scripted environment. *)

Definition withMeta (m : result unit) (sc : Script) : Script := {|
  sc_auth := sc_auth sc; sc_checkMeta := sc_checkMeta sc; sc_getMeta := sc_getMeta sc;
  sc_meta := m; sc_down := sc_down sc; sc_confirm := sc_confirm sc;
  sc_expired := sc_expired sc; sc_dial := sc_dial sc; sc_tick := sc_tick sc
|}.

Definition withGetMeta (m : result GetMetaResponse) (sc : Script) : Script := {|
  sc_auth := sc_auth sc; sc_checkMeta := sc_checkMeta sc; sc_getMeta := m;
  sc_meta := sc_meta sc; sc_down := sc_down sc; sc_confirm := sc_confirm sc;
  sc_expired := sc_expired sc; sc_dial := sc_dial sc; sc_tick := sc_tick sc
|}.

(** Metadata is out of service. *)
Definition metaDown : Script :=
  withMeta (Err (StatusError Unavailable "metadata down")) allUp.

(** Metadata knows the object and names no group for it. *)
Definition noGroupMeta : Script :=
  withGetMeta (Ok {| gm_Group := None; gm_VolumeId := 7; gm_Offset := 4096;
                     gm_Size := 5; gm_Name := "hello.txt"; gm_CreatedTime := 0 |}) allUp.

(** A group whose second address cannot be dialled. *)
Definition groupB : Group := {| GroupId := "B"; Addresses := ["s1:8080"; "s9:8080"] |}.

Definition objectRequest : Request :=
  request [("bucket", "b"); ("key", "hello"); ("token", "T")] (Ok "").

Definition getRequest (start : string) : Request :=
  request [("bucket", "b"); ("key", "hello"); ("token", "T"); ("start", start)] (Ok "").

(** Where a [metadata.PutMeta] call records the object: bucket, key, tag,
    name and group id. *)
Definition putMetaRecord (ev : Event) : option (string * string * string * string * string) :=
  match ev with
  | EvCall c _ =>
      match c with
      | MetaPutMeta bucket key tag name groupId _ _ _ => Some (bucket, key, tag, name, groupId)
      | _ => None
      end
  | _ => None
  end.

(** ** A healthy environment

    Auth grants every request, metadata places new objects on [group] and
    accepts what it is told, every address of the group can be dialled and
    every replica answers. *)
Record Healthy {E} (world : forall R, Call R -> E -> E * R)
    (response : CheckMetaResponse) (group : Group) : Prop := {
  healthy_auth : forall token bucket perm e,
    (world _ (AuthCheck token bucket perm) e).2 = Ok tt;
  healthy_checkMeta : forall bucket name key tag e,
    (world _ (MetaCheckMeta bucket name key tag) e).2 = Ok response;
  healthy_new : Existed response = false;
  healthy_group : cm_Group response = Some group;
  healthy_addresses : Addresses group <> [];
  healthy_dial : forall address e,
    address ∈ Addresses group -> exists c, (world _ (Dial address) e).2 = Ok c;
  healthy_create : forall c tag id e, (world _ (StorageCreate c tag id) e).2 = Ok tt;
  healthy_put : forall c body id offset e, (world _ (StoragePut c body id offset) e).2 = Ok tt;
  healthy_confirm : forall c id e, exists cr, (world _ (StorageConfirm c id) e).2 = Ok cr;
  healthy_putMeta : forall bucket key tag name groupId volumeId offset size e,
    (world _ (MetaPutMeta bucket key tag name groupId volumeId offset size) e).2 = Ok tt
}.

(** A proxy that is ready for the upload [id] on [group]: the id is
    registered with the group, and the group is not cached without
    connection. *)
Definition Ready (s : Server) (id : string) (group : Group) : Prop :=
  UploadTask s !! id = Some {| GroupId := GroupId group; Addresses := Addresses group |} /\
  forall connections,
    dataClients s !! GroupId group = Some connections -> connections <> [].

Section Properties.

Context {E : Type}.
Variable world : forall R, Call R -> E -> E * R.
Variable rangeOrder : E -> gmap string (list Conn) -> list (string * list Conn).

Variable formatRFC3339 : Z -> string.
Variable GetMetaResponse_String : GetMetaResponse -> string.

(** Whatever order [range] takes, it visits each entry of the map once. *)
Hypothesis rangeOrder_perm : forall e m, rangeOrder e m ≡ₚ map_to_list m.

Local Abbreviation M := (@M E).

Lemma bind_run {A B} (m : M A) (k : A -> M B) s e :
  bind m k s e =
    match out (m s e) with
    | Done a =>
        let r' := k a (srv (m s e)) (env (m s e)) in
        MkRun (out r') (srv r') (env r') (trace (m s e) ++ trace r')
    | Panic msg => MkRun (Panic msg) (srv (m s e)) (env (m s e)) (trace (m s e))
    | OutOfFuel => MkRun OutOfFuel (srv (m s e)) (env (m s e)) (trace (m s e))
    end.
Proof. reflexivity. Qed.

Lemma call_run {R} (c : Call R) s e :
  call world c s e = MkRun (Done (world R c e).2) s (world R c e).1 [EvCall c (world R c e).2].
Proof. unfold call. by destruct (world R c e). Qed.

Lemma Retried_nil connections deadline index : Retried connections deadline index [].
Proof. intros k c err now Hk. by rewrite lookup_nil in Hk. Qed.

Lemma Retried_cons connections deadline index c err now fails :
  index < List.length connections ->
  connections !! index = Some c ->
  Time_After now deadline = false ->
  Retried connections deadline ((index + 1) mod List.length connections) fails ->
  Retried connections deadline index ((c, err, now) :: fails).
Proof.
  intros Hlt Hc Hnow Hret [|k] c0 err0 now0 Hk; cbn in Hk.
  - injection Hk as <- <- <-. by rewrite Nat.add_0_r, Nat.mod_small.
  - destruct (Hret _ _ _ _ Hk) as [H1 H2]. split; [|done].
    rewrite <- H1. f_equal.
    rewrite Nat.Div0.add_mod_idemp_l. f_equal; lia.
Qed.

Ltac mstep :=
  rewrite ?bind_run, ?call_run;
  cbn [getServer getEnv ret modify emit panic outOfFuel writeError writeResponse
       out srv env trace fst snd].
Ltac msimpl := repeat (progress mstep).

Lemma sendLoop_spec {R} (rpc : Conn -> Call (result R)) connections deadline fuel :
  forall index s e,
    index < List.length connections ->
    let run := sendLoop world rpc connections deadline fuel index s e in
    FailoverRun rpc connections deadline index fuel (out run) (trace run) /\
    srv run = s.
Proof.
  induction fuel as [|fuel IH]; intros index s e Hlt; cbn zeta;
    destruct (lookup_lt_is_Some_2 connections index Hlt) as [c Hc].
  - split; [|done]. exists [], c, [].
    split; [apply Retried_nil|]. split; [|split; [by constructor|done]].
    cbn. by rewrite Nat.add_0_r, Nat.mod_small.
  - cbn [sendLoop]. rewrite Hc. rewrite bind_run, call_run. cbn [out srv env trace].
    destruct (world _ (rpc c) e) as [e1 [response|err]] eqn:Hw; cbn [fst snd].
    + cbn. split; [|done]. exists [], c, [EvCall (rpc c) (Ok response)].
      split; [apply Retried_nil|]. split; [|split; [by constructor|done]].
      cbn. by rewrite Nat.add_0_r, Nat.mod_small.
    + rewrite bind_run, call_run. cbn [out srv env trace].
      destruct (world _ TimeNow e1) as [e2 now] eqn:Hn; cbn [fst snd].
      destruct (Time_After now deadline) eqn:Hafter.
      * cbn. split; [|done]. exists [], c, [EvCall (rpc c) (Err err); EvCall TimeNow now].
        split; [apply Retried_nil|]. split; [|split; [by constructor|done]].
        cbn. by rewrite Nat.add_0_r, Nat.mod_small.
      * assert (Hlt' : (index + 1) mod List.length connections < List.length connections)
          by (apply Nat.mod_upper_bound; lia).
        destruct (IH _ s e2 Hlt') as [(fails & c' & last & Hret & Hc' & Hend & Htr) Hsrv].
        cbn zeta in *. cbn [out srv env trace]. split; [|done].
        exists ((c, err, now) :: fails), c', last.
        split; [by apply Retried_cons|]. split; [|split].
        -- rewrite <- Hc'. f_equal. cbn [List.length].
           rewrite Nat.Div0.add_mod_idemp_l. f_equal; lia.
        -- inversion Hend; subst; constructor; cbn; auto.
        -- rewrite Htr. reflexivity.
Qed.

Lemma checkParameter_ok r parameters p :
  checkParameter r parameters = (p, None) ->
  forall k, k ∈ parameters -> is_Some (form r !! k) /\ param p k = formValue r k.
Proof.
  revert p. induction parameters as [|k0 rest IH]; intros p Hp k Hk.
  - by apply elem_of_nil in Hk.
  - cbn in Hp. destruct (form r !! k0) as [v|] eqn:Hv; [|done].
    destruct (checkParameter r rest) as [m [err|]] eqn:Hrest; [done|].
    injection Hp as <-. unfold param, formValue.
    destruct (decide (k = k0)) as [->|Hne].
    + rewrite lookup_insert_eq, Hv. eauto.
    + rewrite lookup_insert_ne by done. apply elem_of_cons in Hk as [?|Hk]; [done|].
      apply (IH m); done.
Qed.

(** Replaces the lookups in the checked parameter map by the form values. *)
Ltac params Hp :=
  repeat match goal with
  | |- context [param ?p ?k] =>
      rewrite (proj2 (checkParameter_ok _ _ p Hp k ltac:(repeat constructor)))
  end.


(** *** The connection cache *)

Lemma Forall_isQuiet_app (l1 l2 : list Event) :
  Forall (fun ev => isQuiet ev = true) l1 ->
  Forall (fun ev => isQuiet ev = true) l2 ->
  Forall (fun ev => isQuiet ev = true) (l1 ++ l2).
Proof. intros. by apply Forall_app. Qed.

Lemma dialAll_spec addresses : forall connections s e,
  let run := dialAll world addresses connections s e in
  srv run = s /\
  Forall (fun ev => isQuiet ev = true) (trace run) /\
  ((exists dialled, out run = Done (Ok (connections ++ dialled)) /\
                    List.length dialled = List.length addresses) \/
   (exists err, out run = Done (Err err))).
Proof.
  induction addresses as [|address rest IH]; intros connections s e; cbn zeta.
  - cbn. split; [done|]. split; [constructor|]. left. exists []. by rewrite app_nil_r.
  - cbn [dialAll]. rewrite bind_run, call_run. cbn [out srv env trace fst snd].
    destruct (world _ (Dial address) e) as [e1 [connection|err]]; cbn [fst snd].
    + destruct (IH (connections ++ [connection]) s e1) as (Hs & Hq & Hout).
      cbn zeta in *. cbn [out srv env trace]. split; [done|].
      split; [by constructor|].
      destruct Hout as [(dialled & -> & Hlen)|(err & ->)]; [left|right; eauto].
      exists (connection :: dialled). rewrite <- app_assoc. cbn. by rewrite Hlen.
    + cbn. split; [done|]. split; [by repeat constructor|]. right. eauto.
Qed.

(** The [conn.Close()] calls on a list of connections, with their answers. *)
Lemma closeAll_spec connections : forall s e,
  let run := closeAll world connections s e in
  out run = Done tt /\ srv run = s /\
  exists answers, List.length answers = List.length connections /\
    trace run = zip_with (fun c a => EvCall (ConnClose c) a) connections answers.
Proof.
  induction connections as [|c rest IH]; intros s e; cbn zeta.
  - cbn. split; [done|]. split; [done|]. by exists [].
  - cbn [closeAll]. rewrite bind_run, call_run. cbn [out srv env trace fst snd].
    destruct (world _ (ConnClose c) e) as [e1 a]; cbn [fst snd].
    destruct (IH s e1) as (Hout & Hs & answers & Hlen & Htr). cbn zeta in *.
    rewrite Hout, Hs, Htr. cbn. split; [done|]. split; [done|].
    exists (a :: answers). cbn. by rewrite Hlen.
Qed.

Lemma closes_quiet (connections : list Conn) (answers : list (result unit)) :
  Forall (fun ev => isQuiet ev = true)
    (zip_with (fun c a => EvCall (ConnClose c) a) connections answers).
Proof.
  revert answers. induction connections as [|c rest IH]; intros [|a answers]; cbn;
    try constructor; auto.
Qed.

Lemma evictOne_spec s e :
  let run := evictOne world rangeOrder s e in
  out run = Done tt /\
  ((dataClients s = ∅ /\ srv run = s /\ trace run = []) \/
   (exists k victims answers,
      dataClients s !! k = Some victims /\
      List.length answers = List.length victims /\
      srv run = setDataClients (delete k) s /\
      trace run =
        zip_with (fun c a => EvCall (ConnClose c) a) victims answers ++ [EvCacheEvict k])).
Proof.
  cbn zeta. unfold evictOne. msimpl.
  pose proof (rangeOrder_perm e (dataClients s)) as Hperm.
  destruct (rangeOrder e (dataClients s)) as [|[k victims] rest] eqn:Hr; cbn [fmap list_fmap fst].
  - cbn. split; [done|]. left. split; [|done].
    apply map_to_list_empty_iff. by apply Permutation_nil_l in Hperm.
  - assert (Hk : dataClients s !! k = Some victims).
    { apply elem_of_map_to_list. rewrite <- Hperm. by left. }
    rewrite Hk. unfold default, from_option, id. msimpl.
    destruct (closeAll_spec victims s e) as (Hout & Hs & answers & Hlen & Htr).
    cbn zeta in *. rewrite Hout, Hs, Htr. cbn. split; [done|]. right.
    by exists k, victims, answers.
Qed.

(** The critical section of [validateConnection]: below capacity the group is
    inserted; at capacity exactly one entry is evicted first, and all of its
    channels are closed. *)
Lemma cacheStore_spec groupId connections s e :
  let run := cacheStore world rangeOrder groupId connections s e in
  out run = Done tt /\
  ((size (dataClients s) < maxStorageConnection /\
    srv run = setDataClients (<[groupId := connections]>) s /\
    trace run = [EvCacheInsert groupId connections]) \/
   (maxStorageConnection <= size (dataClients s) /\
    exists k victims answers,
      dataClients s !! k = Some victims /\
      List.length answers = List.length victims /\
      srv run = setDataClients (fun m => <[groupId := connections]> (delete k m)) s /\
      trace run =
        zip_with (fun c a => EvCall (ConnClose c) a) victims answers
          ++ [EvCacheEvict k; EvCacheInsert groupId connections])).
Proof.
  cbn zeta. unfold cacheStore. msimpl.
  destruct (decide (maxStorageConnection <= size (dataClients s))) as [Hfull|Hroom]; msimpl.
  -
    destruct (evictOne_spec s e) as (Hout & [(Hempty & _)|(k & victims & answers & Hk & Hlen & Hs & Htr)]).
    { rewrite Hempty, map_size_empty in Hfull. unfold maxStorageConnection in Hfull. lia. }
    cbn zeta in *. rewrite Hout, Hs, Htr. cbn. split; [done|]. right. split; [done|].
    exists k, victims, answers. rewrite <- app_assoc. by cbn.
  - cbn. split; [done|]. left. split; [lia|done].
Qed.

Lemma cacheStore_bounded groupId connections s e :
  size (dataClients s) <= maxStorageConnection ->
  size (dataClients (srv (cacheStore world rangeOrder groupId connections s e)))
    <= maxStorageConnection.
Proof.
  intros Hle.
  destruct (cacheStore_spec groupId connections s e)
    as (_ & [(Hlt & -> & _)|(Hfull & k & victims & answers & Hk & _ & -> & _)]); cbn.
  - rewrite map_size_insert. destruct (dataClients s !! groupId); cbn; lia.
  - rewrite map_size_insert, map_size_delete, Hk. unfold maxStorageConnection in *.
    destruct (delete k (dataClients s) !! groupId); cbn; lia.
Qed.

Lemma evictOne_quiet s e :
  let run := evictOne world rangeOrder s e in
  out run = Done tt /\
  UploadTask (srv run) = UploadTask s /\
  Forall (fun ev => isQuiet ev = true) (trace run).
Proof.
  cbn zeta. unfold evictOne. msimpl.
  destruct ((rangeOrder e (dataClients s)).*1) as [|k rest]; msimpl; [done|].
  destruct (closeAll_spec (default [] (dataClients s !! k)) s e)
    as (Hout & Hs & answers & Hlen & Htr).
  cbn zeta in *. rewrite Hout, Hs, Htr. msimpl. split; [done|]. split; [done|].
  cbn [app]. apply Forall_isQuiet_app; [apply closes_quiet|by repeat constructor].
Qed.

Lemma cacheStore_quiet groupId connections s e :
  let run := cacheStore world rangeOrder groupId connections s e in
  out run = Done tt /\
  UploadTask (srv run) = UploadTask s /\
  dataClients (srv run) !! groupId = Some connections /\
  Forall (fun ev => isQuiet ev = true) (trace run).
Proof.
  cbn zeta. unfold cacheStore. msimpl.
  destruct (decide (maxStorageConnection <= size (dataClients s))) as [Hfull|Hroom]; msimpl.
  - destruct (evictOne_quiet s e) as (Hout & Hup & Hq). cbn zeta in *.
    rewrite Hout. msimpl. unfold setDataClients. cbn [UploadTask dataClients].
    split; [done|]. split; [done|]. split; [apply lookup_insert_eq|].
    cbn [app]. apply Forall_isQuiet_app; [done|by repeat constructor].
  - unfold setDataClients. cbn. split; [done|]. split; [done|].
    split; [apply lookup_insert_eq|]. by repeat constructor.
Qed.

(** [validateConnection] leaves the upload registry alone, does nothing but
    dial, close and update the cache, and answers connections that are then
    cached for the group, or an error of [grpc.Dial]. *)
Lemma validateConnection_quiet group s e :
  let run := validateConnection world rangeOrder group s e in
  UploadTask (srv run) = UploadTask s /\
  Forall (fun ev => isQuiet ev = true) (trace run) /\
  ((exists connections, out run = Done (Ok connections) /\
      dataClients (srv run) !! GroupId group = Some connections) \/
   (exists err, out run = Done (Err err) /\ srv run = s)).
Proof.
  cbn zeta. unfold validateConnection. msimpl.
  destruct (dataClients s !! GroupId group) as [connections|] eqn:Hhit; msimpl.
  - cbn. split; [done|]. split; [constructor|]. left. eauto.
  - destruct (dialAll_spec (Addresses group) [] s e) as (Hs & Hq & Hout). cbn zeta in *.
    destruct Hout as [(dialled & Hout & _)|(err & Hout)]; rewrite Hout, Hs.
    + cbn [app]. msimpl.
      pose proof (cacheStore_quiet (GroupId group) dialled s
                    (env (dialAll world (Addresses group) [] s e)))
        as (Hout' & Hup & Hin & Hq').
      cbn zeta in *. rewrite Hout'. cbn. rewrite app_nil_r.
      split; [done|]. split; [by apply Forall_isQuiet_app|]. left. eauto.
    + msimpl. rewrite app_nil_r. split; [done|]. split; [done|]. right. eauto.
Qed.

Lemma validateConnection_bounded group s e :
  size (dataClients s) <= maxStorageConnection ->
  size (dataClients (srv (validateConnection world rangeOrder group s e)))
    <= maxStorageConnection.
Proof.
  intros Hle. unfold validateConnection. msimpl.
  destruct (dataClients s !! GroupId group) as [connections|] eqn:Hhit; msimpl; [done|].
  destruct (dialAll_spec (Addresses group) [] s e) as (Hs & _ & Hout). cbn zeta in *.
  destruct Hout as [(dialled & Hout & _)|(err & Hout)]; rewrite Hout, Hs; msimpl; [|done].
  cbn [app].
  pose proof (cacheStore_quiet (GroupId group) dialled s
                (env (dialAll world (Addresses group) [] s e))) as (Hout' & _).
  pose proof (cacheStore_bounded (GroupId group) dialled s
                (env (dialAll world (Addresses group) [] s e)) Hle) as Hb.
  cbn zeta in *. rewrite Hout'. by msimpl.
Qed.

(** *** The storage wrappers *)

Lemma sendLoop_srv {R} (rpc : Conn -> Call (result R)) connections deadline fuel :
  forall index s e, srv (sendLoop world rpc connections deadline fuel index s e) = s.
Proof.
  induction fuel as [|fuel IH]; intros index s e; [done|].
  cbn [sendLoop]. destruct (connections !! index) as [c|]; [|done]. msimpl.
  destruct (world _ (rpc c) e) as [e1 [response|err]]; msimpl; [done|].
  destruct (world _ TimeNow e1) as [e2 now]; msimpl.
  destruct (Time_After now deadline); msimpl; [done|]. apply IH.
Qed.

Lemma send_srv {R} (rpc : Conn -> Call (result R)) fuel connections s e :
  srv (send world rpc fuel connections s e) = incrCommandId s.
Proof.
  unfold send. msimpl. destruct (world _ TimeNow e) as [e1 now]; msimpl.
  pose proof (sendLoop_srv rpc connections (Time_Add now executeTimeout) fuel 0
                (incrCommandId s) e1) as Hs.
  destruct (out (sendLoop world rpc connections (Time_Add now executeTimeout) fuel 0
                   (incrCommandId s) e1)); msimpl; done.
Qed.

Lemma send_spec {R} (rpc : Conn -> Call (result R)) fuel connections s e :
  connections <> [] ->
  let run := send world rpc fuel connections s e in
  exists tr,
    trace run = EvCall TimeNow (world _ TimeNow e).2 :: tr /\
    FailoverRun rpc connections (Time_Add (world _ TimeNow e).2 executeTimeout) 0 fuel
      (out run) tr.
Proof.
  intros Hne. cbn zeta. unfold send. msimpl.
  destruct (world _ TimeNow e) as [e1 now]; msimpl.
  assert (Hlt : 0 < List.length connections) by (destruct connections; [done|cbn; lia]).
  destruct (sendLoop_spec rpc connections (Time_Add now executeTimeout) fuel 0
              (incrCommandId s) e1 Hlt) as [Hrun _]. cbn zeta in Hrun.
  exists (trace (sendLoop world rpc connections (Time_Add now executeTimeout) fuel 0
                   (incrCommandId s) e1)).
  destruct (out (sendLoop world rpc connections (Time_Add now executeTimeout) fuel 0
                   (incrCommandId s) e1)); msimpl; done.
Qed.

(** With a clock that advances, the retry loop comes to an end: the fuel is
    never what stops it. *)
Lemma sendLoop_terminates {R} (rpc : Conn -> Call (result R)) connections deadline
    (clock : E -> Z) (tick : Z) :
  AdvancingClock world clock tick ->
  forall fuel index s e,
    index < List.length connections ->
    0 < fuel ->
    (mono deadline < clock e + Z.of_nat fuel * tick)%Z ->
    out (sendLoop world rpc connections deadline fuel index s e) <> OutOfFuel.
Proof.
  intros [Hmono Htick]. induction fuel as [|fuel IH]; intros index s e Hlt Hpos Hfuel; [lia|].
  destruct (lookup_lt_is_Some_2 connections index Hlt) as [c Hc].
  cbn [sendLoop]. rewrite Hc. msimpl.
  pose proof (Hmono _ (rpc c) e) as H1.
  destruct (world _ (rpc c) e) as [e1 [response|err]]; msimpl; [done|].
  pose proof (Htick e1) as [H2 H3].
  destruct (world _ TimeNow e1) as [e2 now]; msimpl. cbn [fst snd] in *.
  destruct (Time_After now deadline) eqn:Hafter; msimpl; [done|].
  unfold Time_After in Hafter. apply Z.ltb_ge in Hafter.
  apply IH.
  - apply Nat.mod_upper_bound; lia.
  - destruct fuel; [|lia]. nia.
  - nia.
Qed.

Lemma send_terminates {R} (rpc : Conn -> Call (result R)) connections fuel
    (clock : E -> Z) (tick : Z) s e :
  AdvancingClock world clock tick ->
  connections <> [] ->
  (executeTimeout < Z.of_nat fuel * tick)%Z ->
  out (send world rpc fuel connections s e) <> OutOfFuel.
Proof.
  intros Hclock Hne Hfuel. unfold send. msimpl.
  pose proof (proj2 Hclock e) as [H2 H3].
  destruct (world _ TimeNow e) as [e1 now]; msimpl. cbn [fst snd] in *.
  assert (Hlt : 0 < List.length connections) by (destruct connections; [done|cbn; lia]).
  assert (Hpos : 0 < fuel) by (unfold executeTimeout, second in Hfuel; destruct fuel; lia).
  pose proof (sendLoop_terminates rpc connections (Time_Add now executeTimeout) clock tick
                Hclock fuel 0 (incrCommandId s) e1 Hlt Hpos) as Hend.
  destruct (out (sendLoop world rpc connections (Time_Add now executeTimeout) fuel 0
                   (incrCommandId s) e1)); msimpl; try done.
  apply Hend. cbn. lia.
Qed.

Lemma send_cases {R} (rpc : Conn -> Call (result R)) fuel connections s e :
  let run := send world rpc fuel connections s e in
  Sent rpc connections fuel (out run) (trace run).
Proof.
  cbn zeta. destruct connections as [|c0 rest] eqn:Hconns.
  - unfold send. msimpl. destruct (world _ TimeNow e) as [e1 now]; msimpl.
    destruct fuel; cbn.
    + apply (SentFuel rpc [] 0 _ []); [apply Retried_nil|done].
    + by constructor.
  - rewrite <- Hconns. assert (Hne : connections <> []) by (by rewrite Hconns).
    destruct (send_spec rpc fuel connections s e Hne)
      as (tr & -> & fails & c & last & Hret & Hc & Hend & ->).
    cbn [Nat.add] in Hc. inversion Hend; subst last.
    + by apply SentOk.
    + by eapply SentErr.
    + rewrite app_nil_r. by apply SentFuel.
Qed.

Lemma send_failover {R} (rpc : Conn -> Call (result R)) connections fuel
    (clock : E -> Z) (tick : Z) s e :
  AdvancingClock world clock tick ->
  connections <> [] ->
  (executeTimeout < Z.of_nat fuel * tick)%Z ->
  Failover fuel rpc connections (send world rpc fuel connections s e).
Proof.
  intros Hclock Hne Hfuel. split; [apply send_cases|].
  pose proof (send_terminates rpc connections fuel clock tick s e Hclock Hne Hfuel) as Hend.
  pose proof (send_cases rpc fuel connections s e) as Hsent. cbn zeta in Hsent.
  destruct (out (send world rpc fuel connections s e)) as [answer| |]; [eauto| |done].
  inversion Hsent; subst. done.
Qed.

(** *** CreateUploadID *)

(** The run of [createUploadID] on the path that mints an id. *)
Lemma createUploadID_fresh_run fuel r s e response group :
  let run := createUploadID world rangeOrder fuel r s e in
  omap checkMetaReply (trace run) = [Ok response] ->
  Existed response = false ->
  cm_Group response = Some group ->
  ~ (formValue r "id" <> "0" /\ is_Some (UploadTask s !! formValue r "id")) ->
  exists now vtr,
    Forall (fun ev => isQuiet ev = true) vtr /\
    UploadTask (srv run) = <[mintedId now := registered group]> (UploadTask s) /\
    ((exists err,
        out run = Done tt /\
        trace run = createPrefix r response now group ++ vtr ++ [EvWriteError err]) \/
     (exists connections o str,
        dataClients (srv run) !! GroupId group = Some connections /\
        Sent (fun c => StorageCreate c (formValue r "tag") (mintedId now))
          connections fuel o str /\
        out run = finished o /\
        trace run = createPrefix r response now group ++ vtr ++ str
                      ++ answered o (fun _ => [EvWriteResponse (mintedId now)]))).
Proof.
  cbn zeta. unfold createUploadID.
  destruct (checkParameter r _) as [p [err|]] eqn:Hp; msimpl; [done|]. params Hp.
  destruct (world _ (AuthCheck _ _ _) e) as [e1 [[]|err]]; msimpl; [|done].
  destruct (world _ (MetaCheckMeta _ _ _ _) e1) as [e2 [response'|err]]; msimpl; [|done].
  destruct (Existed response') eqn:Hex; msimpl.
  { intros [= ->]. congruence. }
  intros Htr Hex' Hgroup Hfresh. cbn in Htr. injection Htr as -> _.
  destruct (bool_decide (formValue r "id" ≠ "0")
            && bool_decide (is_Some (UploadTask s !! formValue r "id"))) eqn:Hresume.
  { exfalso. apply Hfresh. apply andb_true_iff in Hresume as [H1 H2].
    by apply bool_decide_eq_true in H1, H2. }
  msimpl. destruct (world _ TimeNow e2) as [e3 now]; msimpl. rewrite Hgroup. msimpl.
  set (s1 := setUploadTask _ s).
  destruct (validateConnection_quiet group s1 e3) as (Hup & Hq & Hv). cbn zeta in *.
  exists now, (trace (validateConnection world rangeOrder group s1 e3)).
  split; [done|].
  destruct Hv as [(connections & Hout & Hin)|(err & Hout & Hs)]; rewrite Hout; msimpl.
  - pose proof (send_cases (fun c => StorageCreate c (formValue r "tag") (mintedId now))
                  fuel connections
                  (srv (validateConnection world rangeOrder group s1 e3))
                  (env (validateConnection world rangeOrder group s1 e3))) as Hsent.
    pose proof (send_srv (fun c => StorageCreate c (formValue r "tag") (mintedId now))
                  fuel connections
                  (srv (validateConnection world rangeOrder group s1 e3))
                  (env (validateConnection world rangeOrder group s1 e3))) as Hsrv.
    cbn zeta in Hsent. unfold sendCreate. fold (mintedId now).
    set (sent := send world _ fuel connections _ _) in *.
    destruct (out sent) as [[[]|err]| |] eqn:Ho; msimpl; rewrite ?Hsrv; cbn;
      (split; [by rewrite Hup|]); right; exists connections;
      eexists _, (trace sent); (split; [done|]); (split; [exact Hsent|]);
      cbn; rewrite ?app_nil_r; done.
  - rewrite Hs. split; [done|]. left. exists err. done.
Qed.

(** *** What every handler preserves *)

Lemma follows_ret {A} step (a : A) : Compositional step -> follows step (@ret E A a).
Proof. intros H s e. apply H. Qed.

Lemma follows_panic {A} step msg : Compositional step -> follows step (@panic E A msg).
Proof. intros H s e. apply H. Qed.

Lemma follows_getServer step : Compositional step -> follows step (@getServer E).
Proof. intros H s e. apply H. Qed.

Lemma follows_bind {A B} step (m : M A) (k : A -> M B) :
  Compositional step -> follows step m -> (forall a, follows step (k a)) ->
  follows step (bind m k).
Proof.
  intros H Hm Hk s e. rewrite bind_run. specialize (Hm s e).
  destruct (out (m s e)) as [a| |]; cbn [srv trace].
  - eapply comp_trans; [done|exact Hm|apply Hk].
  - done.
  - done.
Qed.

Lemma quiet_not_unregister (tr : list Event) :
  Forall (fun ev => isQuiet ev = true) tr -> Forall (fun ev => isUnregister ev = false) tr.
Proof.
  intros H. eapply Forall_impl; [exact H|]. intros ev Hq. unfold isQuiet in Hq.
  apply andb_true_iff in Hq as [_ Hq]. by apply negb_true_iff in Hq.
Qed.

Lemma attempts_calls {R} (rpc : Conn -> Call (result R)) fails :
  Forall (fun ev => isUnregister ev = false /\ isRegister ev = false /\ isWrite ev = false)
    (flat_map (attemptFailed rpc) fails).
Proof.
  induction fails as [|[[c err] now] rest IH]; cbn; [constructor|].
  by repeat (constructor; [done|]).
Qed.

Lemma Sent_calls {R} (rpc : Conn -> Call (result R)) connections fuel o tr :
  Sent rpc connections fuel o tr ->
  Forall (fun ev => isUnregister ev = false /\ isRegister ev = false /\ isWrite ev = false) tr.
Proof.
  intros []; constructor; try done; try apply Forall_app; try split;
    try apply attempts_calls; by repeat constructor.
Qed.

Section Frames.

Variable step : Step.
Hypothesis step_local : Local step.

Lemma follows_call {R} (c : Call R) : follows step (call world c).
Proof.
  intros s e. rewrite call_run. cbn [srv trace].
  apply (local_same _ step_local); [done|done|by repeat constructor].
Qed.

Lemma follows_emit ev :
  isRegister ev = false -> isUnregister ev = false -> follows step (@emit E ev).
Proof. intros ? ? s e. apply (local_same _ step_local); [done|done|by repeat constructor]. Qed.

Lemma follows_writeError err : follows step (@writeError E err).
Proof. by apply follows_emit. Qed.

Lemma follows_writeResponse body : follows step (@writeResponse E body).
Proof. by apply follows_emit. Qed.

Lemma follows_send {R} (rpc : Conn -> Call (result R)) fuel connections :
  follows step (send world rpc fuel connections).
Proof.
  intros s e. rewrite send_srv.
  apply (local_same _ step_local); [done|done|].
  eapply Forall_impl; [apply (Sent_calls _ _ _ _ _ (send_cases rpc fuel connections s e))|].
  by intros ev (? & ? & _).
Qed.

(** What [validateConnection] and the registration of a minted id do to the
    relation is left to each relation. *)
Hypothesis step_validateConnection :
  forall group, follows step (validateConnection world rangeOrder group).
Hypothesis step_register :
  forall A id g (k : M A),
    follows step k ->
    follows step (modify (setUploadTask (<[id := g]>)) ;;; emit (EvRegister id g) ;;; k).

Ltac frame_step :=
  first
    [ apply step_register
    | apply step_validateConnection
    | apply follows_send
    | apply follows_call
    | apply follows_writeError
    | apply follows_writeResponse
    | apply follows_emit; [reflexivity|reflexivity]
    | apply follows_ret, step_local
    | apply follows_panic, step_local
    | apply follows_getServer, step_local
    | match goal with
      | |- follows _ (match ?x with _ => _ end) => destruct x
      end
    | apply follows_bind; [apply step_local| |intros ?] ].

Lemma handle_follows h fuel r :
  follows step (handle world rangeOrder formatRFC3339 GetMetaResponse_String h fuel r).
Proof.
  destruct h; cbn [handle];
    unfold createBucket, listBucket, deleteBucket, createUploadID, confirmUploadID,
      putObject, getObject, deleteObject, getObjectMeta, rangeObject, listObject,
      loginUser, grantUser, createUser, sendCreate, sendConfirm, sendPut, sendGet;
    repeat frame_step.
Qed.

End Frames.

Lemma registryFrame_local : Local registryFrame.
Proof.
  split; [split|].
  - intros s. split; [done|]. split; [done|]. constructor.
  - intros s s1 s2 t1 t2 (H1 & H2 & H3) (H1' & H2' & H3').
    split; [auto|]. split; [|by apply Forall_app].
    intros id Hnone Hreg. apply H2'; [apply H2; [done|]|];
      intros g Hin; apply (Hreg g), elem_of_app; auto.
  - intros s s' tr Hup _ Htr. split; [by rewrite Hup|]. split; [by rewrite Hup|].
    eapply Forall_impl; [exact Htr|]. by intros ev (_ & ?).
Qed.

Lemma cacheBound_local : Local cacheBound.
Proof.
  split; [split|]; unfold cacheBound.
  - done.
  - auto.
  - intros s s' tr _ Hdc _. by rewrite Hdc.
Qed.

(** No handler removes an id from the upload registry, and an id enters the
    registry only with its [EvRegister] event. *)
Lemma handle_registry h fuel r :
  follows registryFrame
    (handle world rangeOrder formatRFC3339 GetMetaResponse_String h fuel r).
Proof.
  apply (handle_follows registryFrame registryFrame_local).
  - intros group s e. destruct (validateConnection_quiet group s e) as (Hup & Hq & _).
    split; [by rewrite Hup|]. split; [by rewrite Hup|]. by apply quiet_not_unregister.
  - intros A id g k Hk s e. msimpl.
    set (s1 := setUploadTask _ s). specialize (Hk s1 e).
    assert (Hreg : registryFrame s s1 [EvRegister id g]).
    { unfold registryFrame, s1, setUploadTask. simpl.
      split; [|split; [|by repeat constructor]].
      - intros id' Hsome. destruct (decide (id = id')) as [->|Hne].
        + rewrite lookup_insert_eq. eauto.
        + by rewrite lookup_insert_ne.
      - intros id' Hnone Hreg. destruct (decide (id = id')) as [->|Hne].
        + exfalso. apply (Hreg g). by left.
        + by rewrite lookup_insert_ne. }
    pose proof (comp_trans _ (local_compositional _ registryFrame_local)
                  _ _ _ _ _ Hreg Hk) as H.
    by destruct (out (k s1 e)).
Qed.

(** Every handler keeps the cache within its capacity. *)
Lemma handle_cacheBound h fuel r :
  follows cacheBound
    (handle world rangeOrder formatRFC3339 GetMetaResponse_String h fuel r).
Proof.
  apply (handle_follows cacheBound cacheBound_local).
  - intros group s e Hle. by apply validateConnection_bounded.
  - intros A id g k Hk s e. msimpl. specialize (Hk (setUploadTask (<[id := g]>) s) e).
    by destruct (out (k (setUploadTask (<[id := g]>) s) e)).
Qed.

(** *** ConfirmUploadID *)

Lemma quiet_prelude (tr : list Event) :
  Forall (fun ev => isQuiet ev = true) tr -> Forall (fun ev => isPrelude ev = true) tr.
Proof.
  intros H. eapply Forall_impl; [exact H|]. intros ev Hq. unfold isQuiet, isRPC in Hq.
  unfold isPrelude. destruct (isMetaRPC ev), (isStorageRPC ev), (isAuthRPC ev), (isWrite ev);
    done.
Qed.

(** The runs of [confirmUploadID]: it answers an error before it reaches
    storage; or it sends Confirm, and then calls PutMeta with the triple of the
    answer when the wrapper answered one, and writes the wrapper's error
    otherwise. *)
Lemma confirmUploadID_cases fuel r s e :
  let run := confirmUploadID world rangeOrder fuel r s e in
  exists pre,
    Forall (fun ev => isPrelude ev = true) pre /\
    ((exists err, out run = Done tt /\ trace run = pre ++ [EvWriteError err]) \/
     (exists connections o str,
        Sent (fun c => StorageConfirm c (formValue r "id")) connections fuel o str /\
        ((exists cr group m,
            o = Done (Ok cr) /\ out run = Done tt /\
            UploadTask s !! formValue r "id" = Some group /\
            trace run = pre ++ str ++
              [EvCall (MetaPutMeta (formValue r "bucket") (formValue r "key")
                         (formValue r "tag") (formValue r "name") (GroupId group)
                         (VolumeId cr) (Offset cr) (Size cr)) m;
               written m ""]) \/
         ((forall cr, o <> Done (Ok cr)) /\ out run = finished o /\
          trace run = pre ++ str ++ answered o (fun _ => []))))).
Proof.
  cbn zeta. unfold confirmUploadID.
  destruct (checkParameter r _) as [p [err|]] eqn:Hp; msimpl.
  { exists []. split; [constructor|]. left. by exists err. }
  params Hp.
  destruct (world _ (AuthCheck _ _ _) e) as [e1 [[]|err]] eqn:Ha; msimpl.
  2:{ exists [EvCall (AuthCheck (formValue r "token") (formValue r "bucket")
                        PermissionWrite) (Err err)].
      split; [by repeat constructor|]. left. by exists err. }
  destruct (UploadTask s !! formValue r "id") as [group|] eqn:Hid; msimpl.
  2:{ exists [EvCall (AuthCheck (formValue r "token") (formValue r "bucket")
                        PermissionWrite) (Ok tt)].
      split; [by repeat constructor|]. left. by eexists. }
  destruct (validateConnection_quiet group s e1) as (Hup & Hq & Hv). cbn zeta in *.
  exists (EvCall (AuthCheck (formValue r "token") (formValue r "bucket") PermissionWrite)
            (Ok tt) :: trace (validateConnection world rangeOrder group s e1)).
  split; [constructor; [done|by apply quiet_prelude]|].
  destruct Hv as [(connections & Hout & Hin)|(err & Hout & Hs)]; rewrite Hout; msimpl.
  2:{ left. by exists err. }
  right. unfold sendConfirm.
  pose proof (send_cases (fun c => StorageConfirm c (formValue r "id")) fuel connections
                (srv (validateConnection world rangeOrder group s e1))
                (env (validateConnection world rangeOrder group s e1))) as Hsent.
  cbn zeta in Hsent. set (sent := send world _ fuel connections _ _) in *.
  exists connections, (out sent), (trace sent). split; [done|].
  destruct (out sent) as [[cr|err]| |] eqn:Ho; msimpl.
  - left. destruct (world _ (MetaPutMeta _ _ _ _ _ _ _ _) (env sent)) as [e3 [[]|err]] eqn:Hm;
      msimpl; [exists cr, group, (Ok tt)|exists cr, group, (Err err)];
      (split; [done|]); (split; [done|]); (split; [done|]); cbn; reflexivity.
  - right. split; [done|]. split; [done|]. cbn. reflexivity.
  - right. split; [done|]. split; [done|]. cbn. by rewrite app_nil_r.
  - right. split; [done|]. split; [done|]. cbn. by rewrite app_nil_r.
Qed.

(** *** The sweep *)

Lemma attempts_checkBlob fails :
  flat_map reportedIds (flat_map (attemptFailed StorageCheckBlob) fails) = [].
Proof. induction fails as [|[[c err] now] rest IH]; [done|]. cbn. exact IH. Qed.

(** A probe that came to an end reached one replica of the group, and
    reports the ids of its answer (none when it failed). *)
Lemma Sent_checkBlob connections fuel o tr :
  Sent StorageCheckBlob connections fuel o tr ->
  forall answer, o = Done answer ->
    flat_map reportedIds tr = match answer with Ok ids => ids | Err _ => [] end /\
    exists c, c ∈ connections /\ c ∈ omap checkBlobTarget tr.
Proof.
  intros Hsent answer Ho. destruct Hsent as [now fails c ids Hret Hc|now fails c err at_ Hret Hc Hat| |];
    try discriminate; injection Ho as <-; cbn [flat_map reportedIds app].
  - rewrite flat_map_app, attempts_checkBlob. cbn. split; [by rewrite app_nil_r|].
    exists c. split; [by eapply list_elem_of_lookup_2|].
    cbn. rewrite omap_app. apply elem_of_app. right. cbn. by left.
  - rewrite flat_map_app, attempts_checkBlob. cbn. split; [done|].
    exists c. split; [by eapply list_elem_of_lookup_2|].
    cbn. rewrite omap_app. apply elem_of_app. right. cbn. by left.
Qed.

Lemma sweepGroups_spec (clock : E -> Z) (tick : Z) fuel :
  AdvancingClock world clock tick ->
  (executeTimeout < Z.of_nat fuel * tick)%Z ->
  forall groups blobs s e,
    Forall (fun g : string * list Conn => g.2 <> []) groups ->
    let run := sweepGroups world fuel groups blobs s e in
    out run = Done (blobs ++ flat_map reportedIds (trace run)) /\
    UploadTask (srv run) = UploadTask s /\
    dataClients (srv run) = dataClients s /\
    Forall (fun ev => isUnregister ev = false /\ isRegister ev = false /\ isWrite ev = false)
      (trace run) /\
    Forall (fun g : string * list Conn =>
              exists c, c ∈ g.2 /\ c ∈ omap checkBlobTarget (trace run)) groups.
Proof.
  intros Hclock Hfuel.
  induction groups as [|[groupId connections] rest IH]; intros blobs s e Hne; cbn zeta.
  - cbn. rewrite app_nil_r. by repeat split.
  - apply Forall_cons in Hne as [Hne Hrest]. cbn [snd] in Hne.
    cbn [sweepGroups]. unfold sendCheckBlob. msimpl.
    pose proof (send_cases StorageCheckBlob fuel connections s e) as Hsent.
    pose proof (send_terminates StorageCheckBlob connections fuel clock tick s e
                  Hclock Hne Hfuel) as Hend.
    pose proof (send_srv StorageCheckBlob fuel connections s e) as Hsrv.
    cbn zeta in Hsent. set (sent := send world StorageCheckBlob fuel connections s e) in *.
    destruct (out sent) as [answer| |] eqn:Ho; [| |done].
    2:{ inversion Hsent; subst. done. }
    destruct (Sent_checkBlob _ _ _ _ Hsent answer eq_refl) as (Hids & c & Hc & Hprobe).
    pose proof (Sent_calls _ _ _ _ _ Hsent) as Hcalls.
    destruct answer as [ids|err]; msimpl; rewrite Hsrv.
    + destruct (IH (blobs ++ ids) (incrCommandId s) (env sent) Hrest)
        as (Hout & Hup & Hdc & Hev & Hall).
      cbn zeta in *. rewrite Hout, Hup, Hdc. cbn.
      rewrite flat_map_app, Hids, app_assoc. split; [done|]. split; [done|]. split; [done|].
      split; [by apply Forall_app|]. constructor.
      * exists c. split; [done|]. rewrite omap_app. apply elem_of_app. by left.
      * eapply Forall_impl; [exact Hall|]. intros g (c' & ? & ?). exists c'. split; [done|].
        rewrite omap_app. apply elem_of_app. by right.
    + destruct (IH blobs (incrCommandId s) (env sent) Hrest)
        as (Hout & Hup & Hdc & Hev & Hall).
      cbn zeta in *. rewrite Hout, Hup, Hdc. cbn.
      rewrite flat_map_app, Hids. cbn. split; [done|]. split; [done|]. split; [done|].
      split; [apply Forall_app; split; [done|by constructor]|]. constructor.
      * exists c. split; [done|]. rewrite omap_app. apply elem_of_app. by left.
      * eapply Forall_impl; [exact Hall|]. intros g (c' & ? & ?). exists c'. split; [done|].
        rewrite omap_app. apply elem_of_app. by right.
Qed.

Lemma unregisterAll_spec blobs : forall s e,
  let run := unregisterAll (E := E) blobs s e in
  out run = Done tt /\
  dataClients (srv run) = dataClients s /\
  trace run = EvUnregister <$> blobs /\
  forall id, UploadTask (srv run) !! id =
             if bool_decide (id ∈ blobs) then None else UploadTask s !! id.
Proof.
  induction blobs as [|b rest IH]; intros s e; cbn zeta.
  - cbn. split; [done|]. split; [done|]. split; [done|].
    intros id. by rewrite bool_decide_eq_false_2 by apply not_elem_of_nil.
  - cbn [unregisterAll]. msimpl.
    destruct (IH (setUploadTask (delete b) s) e) as (Hout & Hdc & Htr & Hup). cbn zeta in *.
    rewrite Hout, Hdc, Htr. cbn. split; [done|]. split; [done|]. split; [done|].
    intros id. rewrite Hup. unfold setUploadTask. cbn [UploadTask].
    destruct (decide (id ∈ rest)) as [Hin|Hnin].
    + rewrite !bool_decide_eq_true_2; [done|by right|done].
    + rewrite (bool_decide_eq_false_2 _ Hnin). destruct (decide (id = b)) as [->|Hne].
      * rewrite bool_decide_eq_true_2 by by left. apply lookup_delete_eq.
      * rewrite bool_decide_eq_false_2; [by rewrite lookup_delete_ne|].
        intros [?|?]%elem_of_cons; done.
Qed.

Lemma prelude_extract ev :
  isPrelude ev = true ->
  putMetaTriple ev = None /\ confirmedTriple ev = None /\ confirmError ev = None /\
  isWrite ev = false.
Proof. destruct ev as [R c a| | | | | | | |]; try done. by destruct c. Qed.

Lemma omap_none {A B} (f : A -> option B) (l : list A) :
  Forall (fun x => f x = None) l -> omap f l = [].
Proof. induction 1 as [|x l Hx _ IH]; [done|]. cbn. by rewrite Hx. Qed.

Lemma responses_none (l : list Event) :
  Forall (fun ev => isWrite ev = false) l -> responses l = [].
Proof. induction 1 as [|x l Hx _ IH]; [done|]. unfold responses in *. cbn. by rewrite Hx. Qed.

Lemma responses_app (l1 l2 : list Event) :
  responses (l1 ++ l2) = responses l1 ++ responses l2.
Proof. apply List.filter_app. Qed.




(** *** Further facts about traces and the cache *)

Lemma checkParameter_present r parameters :
  (forall k, k ∈ parameters -> is_Some (form r !! k)) ->
  exists p, checkParameter r parameters = (p, None).
Proof.
  induction parameters as [|k rest IH]; intros Hall; [by eexists|].
  destruct (Hall k) as [v Hv]; [by left|].
  destruct IH as [p Hp]; [intros k' Hk'; apply Hall; by right|].
  cbn. rewrite Hv, Hp. by eexists.
Qed.


Lemma quiet_not_write (tr : list Event) :
  Forall (fun ev => isQuiet ev = true) tr -> Forall (fun ev => isWrite ev = false) tr.
Proof.
  intros H. eapply Forall_impl; [exact H|]. intros ev Hq. unfold isQuiet in Hq.
  destruct (isWrite ev); [|done]. by rewrite !andb_false_r in Hq.
Qed.

Lemma quiet_not_register (tr : list Event) :
  Forall (fun ev => isQuiet ev = true) tr ->
  Forall (fun ev => isRegister ev = false /\ isUnregister ev = false) tr.
Proof.
  intros H. eapply Forall_impl; [exact H|]. intros ev Hq. unfold isQuiet in Hq.
  destruct (isRegister ev), (isUnregister ev); try done; by rewrite ?andb_false_r in Hq.
Qed.



Lemma unregisters_report (blobs : list string) :
  flat_map reportedIds (EvUnregister <$> blobs) = [] /\
  omap checkBlobTarget (EvUnregister <$> blobs) = [].
Proof. induction blobs as [|b rest [IH1 IH2]]; [done|]. by cbn. Qed.

Lemma sweepGroups_cache fuel groups : forall blobs s e,
  dataClients (srv (sweepGroups world fuel groups blobs s e)) = dataClients s.
Proof.
  induction groups as [|[groupId connections] rest IH]; intros blobs s e; [done|].
  cbn [sweepGroups]. unfold sendCheckBlob. msimpl.
  pose proof (send_srv (fun c => StorageCheckBlob c) fuel connections s e) as Hsrv.
  destruct (out (send world (fun c => StorageCheckBlob c) fuel connections s e))
    as [[ids|err]| |]; msimpl; rewrite ?IH, Hsrv; done.
Qed.

Lemma sweepTick_cache fuel s e :
  dataClients (srv (sweepTick world rangeOrder fuel s e)) = dataClients s.
Proof.
  unfold sweepTick. msimpl.
  pose proof (sweepGroups_cache fuel (rangeOrder e (dataClients s)) [] s e) as Hdc.
  set (probes := sweepGroups world fuel (rangeOrder e (dataClients s)) [] s e) in *.
  destruct (out probes) as [blobs| |]; msimpl; [|done|done].
  destruct (unregisterAll_spec blobs (srv probes) (env probes)) as (Hout & Hdc' & _).
  cbn zeta in *. rewrite Hout. msimpl. by rewrite Hdc'.
Qed.

Lemma reachable_bounded s :
  Reachable world rangeOrder formatRFC3339 GetMetaResponse_String s ->
  size (dataClients s) <= maxStorageConnection.
Proof.
  induction 1 as [address clientId|s h fuel r e _ IH|s fuel e _ IH].
  - cbn. rewrite map_size_empty. unfold maxStorageConnection. lia.
  - by apply (handle_cacheBound h fuel r s e).
  - by rewrite sweepTick_cache.
Qed.

Lemma dialAll_dials addresses : forall connections s e,
  Forall (fun ev => is_Some (dialTarget ev)) (trace (dialAll world addresses connections s e)).
Proof.
  induction addresses as [|address rest IH]; intros connections s e; [constructor|].
  cbn [dialAll]. msimpl.
  destruct (world _ (Dial address) e) as [e1 [connection|err]]; msimpl.
  - constructor; [by eexists|apply IH].
  - by repeat constructor.
Qed.

Lemma Sent_Forall {R} (rpc : Conn -> Call (result R)) connections fuel o tr
    (P : Event -> Prop) :
  (forall now, P (EvCall TimeNow now)) ->
  (forall c a, P (EvCall (rpc c) a)) ->
  Sent rpc connections fuel o tr -> Forall P tr.
Proof.
  intros Hnow Hrpc Hsent.
  assert (Hfails : forall fails, Forall P (flat_map (attemptFailed rpc) fails)).
  { induction fails as [|[[c err] now] rest IH]; [constructor|].
    cbn. constructor; [apply Hrpc|]. by constructor. }
  destruct Hsent; (constructor; [apply Hnow|]); try apply Forall_app; try split;
    try apply Hfails; repeat constructor; auto.
Qed.

Lemma sweepGroups_frame fuel groups : forall blobs s e,
  let run := sweepGroups world fuel groups blobs s e in
  UploadTask (srv run) = UploadTask s /\
  Forall (fun ev => isWrite ev = false /\ isRegister ev = false /\
                    isUnregister ev = false /\ isTick ev = false) (trace run).
Proof.
  induction groups as [|[groupId connections] rest IH]; intros blobs s e; cbn zeta.
  - split; [done|constructor].
  - cbn [sweepGroups]. unfold sendCheckBlob. msimpl.
    pose proof (send_srv (fun c => StorageCheckBlob c) fuel connections s e) as Hsrv.
    assert (Hsent : Forall (fun ev => isWrite ev = false /\ isRegister ev = false /\
                                      isUnregister ev = false /\ isTick ev = false)
                      (trace (send world (fun c => StorageCheckBlob c) fuel connections s e))).
    { eapply Sent_Forall; [| |apply send_cases]; done. }
    cbn zeta in Hsent. set (sent := send world _ fuel connections s e) in *.
    destruct (out sent) as [[ids|err]| |]; msimpl; rewrite ?Hsrv; [| |done|done].
    + destruct (IH (blobs ++ ids) (incrCommandId s) (env sent)) as [Hup Hev].
      cbn zeta in *. split; [done|by apply Forall_app].
    + destruct (IH blobs (incrCommandId s) (env sent)) as [Hup Hev].
      cbn zeta in *. split; [done|].
      apply Forall_app. split; [done|]. by constructor.
Qed.

(** ** The claims *)



(** C3: when [metadata.CheckMeta] answers existed=true, [createUploadID]
    answers the body "0", sends no [storage.Create] and leaves the upload
    registry (and the whole proxy state) as it was. *)
Theorem createUploadID_deduplicated fuel r s e response :
  let run := createUploadID world rangeOrder fuel r s e in
  omap checkMetaReply (trace run) = [Ok response] ->
  Existed response = true ->
  out run = Done tt /\
  responses (trace run) = [EvWriteResponse "0"] /\
  srv run = s /\
  trace run =
    [EvCall (AuthCheck (formValue r "token") (formValue r "bucket") PermissionWrite) (Ok tt);
     EvCall (MetaCheckMeta (formValue r "bucket") (formValue r "name")
               (formValue r "key") (formValue r "tag")) (Ok response);
     EvWriteResponse "0"] /\
  Forall (fun ev => isStorageRPC ev = false /\ isRegister ev = false) (trace run).
Proof.
  cbn zeta. unfold createUploadID.
  destruct (checkParameter r _) as [p [err|]] eqn:Hp; msimpl; [done|]. params Hp.
  destruct (world _ (AuthCheck _ _ _) e) as [e1 [[]|err]]; msimpl; [|done].
  destruct (world _ (MetaCheckMeta _ _ _ _) e1) as [e2 [response'|err]]; msimpl; [|done].
  destruct (Existed response') eqn:Hex; msimpl.
  - intros [= ->] _. cbn. split; [done|]. split; [done|]. split; [done|]. split; [done|].
    by repeat constructor.
  - intros Htr Hex'. cbn in Htr. injection Htr as -> _. congruence.
Qed.

(** C4: when [metadata.CheckMeta] answers existed=false and the id proposed by
    the client is not "0" and is in the upload registry, [createUploadID]
    answers that same id, inserts nothing into the registry and sends no
    [storage.Create]. *)
Theorem createUploadID_resume fuel r s e response :
  let run := createUploadID world rangeOrder fuel r s e in
  omap checkMetaReply (trace run) = [Ok response] ->
  Existed response = false ->
  formValue r "id" <> "0" ->
  is_Some (UploadTask s !! formValue r "id") ->
  out run = Done tt /\
  srv run = s /\
  trace run =
    [EvCall (AuthCheck (formValue r "token") (formValue r "bucket") PermissionWrite) (Ok tt);
     EvCall (MetaCheckMeta (formValue r "bucket") (formValue r "name")
               (formValue r "key") (formValue r "tag")) (Ok response);
     EvWriteResponse (formValue r "id")] /\
  Forall (fun ev => isStorageRPC ev = false /\ isRegister ev = false) (trace run).
Proof.
  cbn zeta. unfold createUploadID.
  destruct (checkParameter r _) as [p [err|]] eqn:Hp; msimpl; [done|]. params Hp.
  destruct (world _ (AuthCheck _ _ _) e) as [e1 [[]|err]]; msimpl; [|done].
  destruct (world _ (MetaCheckMeta _ _ _ _) e1) as [e2 [response'|err]]; msimpl; [|done].
  destruct (Existed response') eqn:Hex; msimpl.
  { intros [= ->]. congruence. }
  intros Htr _ Hid Hreg. cbn in Htr. injection Htr as -> _.
  rewrite (bool_decide_eq_true_2 _ Hid), (bool_decide_eq_true_2 _ Hreg). msimpl. cbn.
  split; [done|]. split; [done|]. split; [done|]. by repeat constructor.
Qed.


(** C6: each storage wrapper ([sendGet], [sendCreate], [sendPut],
    [sendConfirm], [sendCheckBlob]) reads the clock for its deadline, tries
    the replicas from index 0, moves to index [(i+1) mod len] after every
    failed attempt, answers the first successful response, and answers an
    error only for an attempt that failed when the deadline of
    [executeTimeout] had passed.  It comes to an end whenever the clock
    advances. *)
Theorem storage_wrappers_failover (clock : E -> Z) (tick : Z) fuel connections s e
    volumeId offset start tag id body :
  AdvancingClock world clock tick ->
  connections <> [] ->
  (executeTimeout < Z.of_nat fuel * tick)%Z ->
  Failover fuel (fun c => StorageGet c volumeId offset start) connections
    (sendGet world fuel connections volumeId offset start s e) /\
  Failover fuel (fun c => StorageCreate c tag id) connections
    (sendCreate world fuel connections tag id s e) /\
  Failover fuel (fun c => StoragePut c body id offset) connections
    (sendPut world fuel connections body id offset s e) /\
  Failover fuel (fun c => StorageConfirm c id) connections
    (sendConfirm world fuel connections id s e) /\
  Failover fuel StorageCheckBlob connections
    (sendCheckBlob world fuel connections s e).
Proof.
  intros Hclock Hne Hfuel.
  unfold sendGet, sendCreate, sendPut, sendConfirm, sendCheckBlob.
  repeat split; eapply send_failover; eauto.
Qed.

(** C7 (amended): over a connection cache in which every group has at
    least one connection, a turn of [checkExpiredBlobs] sends CheckBlob to
    every group of the cache, whatever the other groups answer (a group whose
    probe fails is logged and passed over), and then removes every reported
    id from the upload registry before it waits for its ticker: the trace of
    the turn is the probes, then the removal of each reported id, then the
    wait.  After the turn, an id is in the registry exactly when it was there
    before and no CheckBlob answer of the turn reported it.  An id that is
    absent stays absent through every handler run that does not register
    it.  The removal comes at the end of the turn, at no set time after the
    CheckBlob answer. *)
Theorem sweepTick_unregisters_reported (clock : E -> Z) (tick : Z) fuel s e :
  AdvancingClock world clock tick ->
  (executeTimeout < Z.of_nat fuel * tick)%Z ->
  (forall groupId connections,
     dataClients s !! groupId = Some connections -> connections <> []) ->
  let run := sweepTick world rangeOrder fuel s e in
  out run = Done tt /\
  dataClients (srv run) = dataClients s /\
  (forall groupId connections,
     dataClients s !! groupId = Some connections ->
     exists c, c ∈ connections /\ c ∈ omap checkBlobTarget (trace run)) /\
  (exists probes,
     trace run = probes ++ (EvUnregister <$> flat_map reportedIds probes)
                   ++ [EvCall TickerRecv tt] /\
     Forall (fun ev => isUnregister ev = false /\ isTick ev = false) probes) /\
  (forall id,
     UploadTask (srv run) !! id =
       if bool_decide (id ∈ flat_map reportedIds (trace run)) then None
       else UploadTask s !! id) /\
  (forall id h fuel' r' s' e',
     UploadTask s' !! id = None ->
     (forall g, EvRegister id g ∉
        trace (handle world rangeOrder formatRFC3339 GetMetaResponse_String h fuel' r' s' e')) ->
     UploadTask (srv (handle world rangeOrder formatRFC3339 GetMetaResponse_String
                        h fuel' r' s' e')) !! id = None).
Proof.
  intros Hclock Hfuel Hne. cbn zeta. unfold sweepTick. msimpl.
  assert (Hgroups : Forall (fun g : string * list Conn => g.2 <> [])
                      (rangeOrder e (dataClients s))).
  { apply Forall_forall. intros [groupId connections] Hin. cbn.
    apply (Hne groupId). apply elem_of_map_to_list. by rewrite <- (rangeOrder_perm e). }
  destruct (sweepGroups_spec clock tick fuel Hclock Hfuel
              (rangeOrder e (dataClients s)) [] s e Hgroups)
    as (Hout & Hup & Hdc & Hev & Hall). cbn zeta in *.
  destruct (sweepGroups_frame fuel (rangeOrder e (dataClients s)) [] s e) as [_ Hframe].
  cbn zeta in Hframe.
  set (probes := sweepGroups world fuel (rangeOrder e (dataClients s)) [] s e) in *.
  rewrite Hout. msimpl. cbn [app].
  destruct (unregisterAll_spec (flat_map reportedIds (trace probes)) (srv probes) (env probes))
    as (Hout' & Hdc' & Htr' & Hup'). cbn zeta in *.
  rewrite Hout'. msimpl.
  destruct (world _ TickerRecv _) as [e' []]; msimpl. rewrite Htr'.
  destruct (unregisters_report (flat_map reportedIds (trace probes))) as [Hr1 Hr2].
  split; [done|]. split; [by rewrite Hdc', Hdc|]. split; [|split; [|split]].
  - intros groupId connections Hin.
    assert (Hin' : (groupId, connections) ∈ rangeOrder e (dataClients s))
      by (rewrite (rangeOrder_perm e); by apply elem_of_map_to_list).
    destruct (proj1 (Forall_forall _ _) Hall _ Hin') as (c & Hc & Hprobe).
    exists c. split; [done|]. rewrite omap_app. apply elem_of_app. by left.
  - exists (trace probes). split; [done|].
    eapply Forall_impl; [exact Hframe|]. by intros ev (_ & _ & ? & ?).
  - intros id. rewrite Hup', Hup, !flat_map_app, Hr1. cbn. by rewrite app_nil_r.
  - intros id h fuel' r' s' e'0. apply (handle_registry h fuel' r' s' e'0).
Qed.

(** C8: the connection cache of a proxy never holds more than
    [maxStorageConnection] (10) groups: no state reached by handlers and
    turns of the sweep does, and the critical section of
    [validateConnection] keeps the bound from any state.  When
    [validateConnection] inserts a group that is not cached while the cache is
    at capacity, it first closes every channel of exactly one cached group and
    deletes that group, so that the cache is at capacity again after the
    insertion. *)
Theorem cache_never_exceeds_capacity s :
  Reachable world rangeOrder formatRFC3339 GetMetaResponse_String s ->
  size (dataClients s) <= maxStorageConnection /\
  (forall groupId connections s' e,
     size (dataClients s') <= maxStorageConnection ->
     size (dataClients (srv (cacheStore world rangeOrder groupId connections s' e)))
       <= maxStorageConnection) /\
  forall group e connections,
    let run := validateConnection world rangeOrder group s e in
    dataClients s !! GroupId group = None ->
    size (dataClients s) = maxStorageConnection ->
    out run = Done (Ok connections) ->
    exists dials k victims answers,
      Forall (fun ev => is_Some (dialTarget ev)) dials /\
      dataClients s !! k = Some victims /\
      List.length answers = List.length victims /\
      trace run =
        dials ++ zip_with (fun c a => EvCall (ConnClose c) a) victims answers
          ++ [EvCacheEvict k; EvCacheInsert (GroupId group) connections] /\
      dataClients (srv run) = <[GroupId group := connections]> (delete k (dataClients s)) /\
      size (dataClients (srv run)) = maxStorageConnection.
Proof.
  intros Hreach. split; [by apply reachable_bounded|].
  split; [intros groupId connections s' e; apply cacheStore_bounded|].
  intros group e connections. cbn zeta. intros Hmiss Hfull.
  unfold validateConnection. msimpl. rewrite Hmiss. msimpl.
  pose proof (dialAll_dials (Addresses group) [] s e) as Hdials.
  destruct (dialAll_spec (Addresses group) [] s e) as (Hs & _ & Hout). cbn zeta in *.
  set (dialled := dialAll world (Addresses group) [] s e) in *.
  destruct Hout as [(conns & Hout & _)|(err & Hout)]; rewrite Hout; msimpl; [|done].
  rewrite Hs. cbn [app].
  destruct (cacheStore_spec (GroupId group) conns s (env dialled))
    as (Hout' & [(Hlt & _)|(_ & k & victims & answers & Hk & Hlen & Hsrv & Htr)]); [lia|].
  cbn zeta in *. rewrite Hout', Hsrv, Htr. msimpl. intros [= <-].
  exists (trace dialled), k, victims, answers.
  split; [done|]. split; [done|]. split; [done|]. split; [by rewrite app_nil_r|].
  split; [done|]. cbn.
  rewrite map_size_insert, map_size_delete, Hk.
  assert (Hne : k <> GroupId group) by congruence.
  rewrite lookup_delete_ne, Hmiss by done. cbn. unfold maxStorageConnection in *. lia.
Qed.



(** [deleteBucket] has no [return] after it writes the error of
    [checkParameter]: when [checkParameter] answers an error, together with
    whatever map [p], the handler writes the error and goes on as it does for
    a request that was accepted, with [p["token"]] and [p["bucket"]] for the
    token and the bucket: to the auth check and, as far as the calls succeed,
    to [metadata.DeleteBucket] and [auth.Clear].  It writes a second
    answer. *)
Theorem deleteBucket_goes_on_after_error r s e p err :
  checkParameter r (required HDeleteBucket) = (p, Some err) ->
  let run := deleteBucket world r s e in
  out run = Done tt /\
  exists (a m c : result unit),
    trace run =
      EvWriteError err
        :: EvCall (AuthCheck (param p "token") (param p "bucket") PermissionOwner) a
        :: match a with
           | Err err1 => [EvWriteError err1]
           | Ok _ =>
               EvCall (MetaDeleteBucket (param p "bucket")) m
                 :: match m with
                    | Err err2 => [EvWriteError err2]
                    | Ok _ =>
                        [EvCall (AuthClear (param p "bucket")) c;
                         match c with
                         | Err err3 => EvWriteError err3
                         | Ok _ => EvWriteResponse ""
                         end]
                    end
           end /\
    List.length (responses (trace run)) = 2.
Proof.
  intros Hp. cbn zeta. cbn [required] in Hp. unfold deleteBucket. rewrite Hp. msimpl.
  destruct (world _ (AuthCheck _ _ _) e) as [e1 [[]|err1]]; msimpl.
  2:{ split; [done|]. by exists (Err err1), (Ok tt), (Ok tt). }
  destruct (world _ (MetaDeleteBucket _) e1) as [e2 [[]|err2]]; msimpl.
  2:{ split; [done|]. by exists (Ok tt), (Err err2), (Ok tt). }
  destruct (world _ (AuthClear _) e2) as [e3 [[]|err3]]; msimpl.
  2:{ split; [done|]. by exists (Ok tt), (Ok tt), (Err err3). }
  split; [done|]. by exists (Ok tt), (Ok tt), (Ok tt).
Qed.

(** ** Further properties of the handlers *)

Ltac handlers :=
  cbn [handle];
  unfold createBucket, listBucket, deleteBucket, createUploadID, confirmUploadID,
    putObject, getObject, deleteObject, getObjectMeta, rangeObject, listObject,
    loginUser, grantUser, createUser.

(** Runs the next call of a handler, by the two answers it may get. *)
Ltac answer :=
  match goal with
  | |- context [world ?R ?c ?e] =>
      let e' := fresh "e" in
      let a := fresh "a" in
      let err := fresh "err" in
      destruct (world R c e) as [e' [a|err]]; msimpl
  end.

(** The ten handlers that do not go to storage serve a request from auth and
    metadata alone: they always return, leave the state of the proxy as it
    was, and do nothing but call auth and metadata and answer the client (no
    storage call, no dial, no reading of the clock). *)
Theorem service_handlers_keep_state h fuel r s e :
  reachesStorage h = false ->
  let run := handle world rangeOrder formatRFC3339 GetMetaResponse_String h fuel r s e in
  out run = Done tt /\
  srv run = s /\
  Forall (fun ev => isService ev = true) (trace run).
Proof.
  intros Hh. cbn zeta.
  destruct h; try discriminate Hh; handlers;
    destruct (checkParameter r _) as [p [perr|]]; msimpl;
    repeat match goal with
    | |- context [strconv.Atoi ?x] => destruct (strconv.Atoi x) as [? [?|]]; msimpl
    end;
    repeat answer;
    (split; [done|]); (split; [done|]); by repeat constructor.
Qed.
(** [listBucket] requires a token and never shows it to auth: it issues no
    auth RPC, and whatever the token is, a request that has one is answered
    from [metadata.ListBucket] alone. *)
Theorem listBucket_checks_no_token r s e :
  let run := listBucket world r s e in
  Forall (fun ev => isAuthRPC ev = false) (trace run) /\
  (is_Some (form r !! "token") ->
   trace run =
     [EvCall MetaListBucket (world _ MetaListBucket e).2;
      match (world _ MetaListBucket e).2 with
      | Ok buckets => EvWriteResponse (String.concat " " buckets)
      | Err err => EvWriteError err
      end]).
Proof.
  cbn zeta. unfold listBucket.
  destruct (checkParameter r _) as [p [perr|]] eqn:Hp; msimpl.
  - split; [by repeat constructor|]. intros [token Htoken].
    cbn in Hp. rewrite Htoken in Hp. discriminate.
  - destruct (world _ MetaListBucket e) as [e1 [buckets|err]]; msimpl;
      (split; [by repeat constructor|done]).
Qed.

(** Each of the ten handlers that check the caller's permission does so
    before anything else: once [checkParameter] has accepted the request, the
    first thing the handler does is [auth.Check] with the token and the
    bucket of the request and the permission of the handler; when that check
    fails, the handler answers its error, does nothing else and leaves the
    state of the proxy as it was. *)
Theorem authorization_first h perm fuel r s e p :
  permission h = Some perm ->
  checkParameter r (required h) = (p, None) ->
  let run := handle world rangeOrder formatRFC3339 GetMetaResponse_String h fuel r s e in
  let check := AuthCheck (param p "token") (param p "bucket") perm in
  exists rest,
    trace run = EvCall check (world _ check e).2 :: rest /\
    (forall err, (world _ check e).2 = Err err ->
       rest = [EvWriteError err] /\ srv run = s /\ out run = Done tt).
Proof.
  intros Hperm Hp. cbn zeta.
  destruct h; try discriminate Hperm; injection Hperm as <-; cbn [required] in Hp;
    handlers; rewrite Hp; msimpl;
    (destruct (world _ (AuthCheck _ _ _) e) as [e1 [[]|err]]; msimpl;
      [eexists; split; [reflexivity|]; intros err' [=]
      |eexists; split; [reflexivity|]; intros err' [= <-]; done]).
Qed.

(** *** One answer for each request *)

Lemma Silent_call {R} (c : Call R) : Silent (call world c).
Proof. intros s e. rewrite call_run. by repeat constructor. Qed.

Lemma Silent_getServer : Silent (@getServer E).
Proof. intros s e. constructor. Qed.

Lemma Silent_ret {A} (a : A) : Silent (@ret E A a).
Proof. intros s e. constructor. Qed.

Lemma Silent_modify f : Silent (@modify E f).
Proof. intros s e. constructor. Qed.

Lemma Silent_emit ev : isWrite ev = false -> Silent (@emit E ev).
Proof. intros Hev s e. by repeat constructor. Qed.

Lemma Silent_validateConnection group : Silent (validateConnection world rangeOrder group).
Proof.
  intros s e. destruct (validateConnection_quiet group s e) as (_ & Hq & _).
  by apply quiet_not_write.
Qed.

Lemma Silent_send {R} (rpc : Conn -> Call (result R)) fuel connections :
  Silent (send world rpc fuel connections).
Proof.
  intros s e.
  eapply Forall_impl; [apply (Sent_calls _ _ _ _ _ (send_cases rpc fuel connections s e))|].
  by intros ev (_ & _ & ?).
Qed.

Lemma AnswersOnce_write ev : isWrite ev = true -> AnswersOnce (@emit E ev).
Proof. intros Hev s e. cbn. exists [], ev. by repeat split. Qed.

Lemma AnswersOnce_panic msg : AnswersOnce (@panic E unit msg).
Proof. intros s e. constructor. Qed.

Lemma AnswersOnce_bind {A} (m : M A) (k : A -> M unit) :
  Silent m -> (forall a, AnswersOnce (k a)) -> AnswersOnce (bind m k).
Proof.
  intros Hm Hk s e. rewrite bind_run. specialize (Hm s e).
  destruct (out (m s e)) as [a| |]; cbn [out trace]; [|done|done].
  specialize (Hk a (srv (m s e)) (env (m s e))).
  destruct (out (k a (srv (m s e)) (env (m s e)))) as [[]| |].
  - destruct Hk as (pre & w & -> & Hw & Hpre).
    exists (trace (m s e) ++ pre), w. rewrite app_assoc.
    split; [done|]. split; [done|]. by apply Forall_app.
  - by apply Forall_app.
  - by apply Forall_app.
Qed.

Ltac answers_once :=
  repeat first
    [ apply AnswersOnce_write; reflexivity
    | apply AnswersOnce_panic
    | match goal with
      | |- AnswersOnce (match ?x with _ => _ end) => destruct x
      end
    | apply AnswersOnce_bind;
        [first [ apply Silent_call | apply Silent_getServer | apply Silent_modify
               | apply Silent_ret | apply Silent_validateConnection | apply Silent_send
               | apply Silent_emit; reflexivity ]
        |intros ?] ].

(** A handler that returns has answered the client exactly once, and the
    answer is the last thing it did; a handler that does not return (a
    panic) has written nothing.  [deleteBucket] is held to this only for the
    requests that [checkParameter] accepts. *)
Theorem handle_answers_once h fuel r s e :
  (h = HDeleteBucket -> (checkParameter r (required h)).2 = None) ->
  let run := handle world rangeOrder formatRFC3339 GetMetaResponse_String h fuel r s e in
  match out run with
  | Done _ =>
      exists pre w, trace run = pre ++ [w] /\ isWrite w = true /\
                    responses (trace run) = [w]
  | _ => responses (trace run) = []
  end.
Proof.
  intros Hdel. cbn zeta.
  assert (Honce : AnswersOnce
            (handle world rangeOrder formatRFC3339 GetMetaResponse_String h fuel r)).
  { destruct h; handlers; unfold writeError, writeResponse, sendCreate, sendConfirm,
      sendPut, sendGet.
    3:{ specialize (Hdel eq_refl). cbn [required] in Hdel.
        destruct (checkParameter r _) as [p [perr|]]; [discriminate Hdel|]. answers_once. }
    all: destruct (checkParameter r _) as [p [perr|]]; answers_once. }
  specialize (Honce s e).
  destruct (out (handle world rangeOrder formatRFC3339 GetMetaResponse_String h fuel r s e))
    as [[]| |].
  - destruct Honce as (pre & w & -> & Hw & Hpre). exists pre, w.
    split; [done|]. split; [done|].
    rewrite responses_app, (responses_none pre Hpre). unfold responses. cbn. by rewrite Hw.
  - by apply responses_none.
  - by apply responses_none.
Qed.

(** *** Who writes the upload registry *)

Lemma registrySame_local : Local registrySame.
Proof.
  split; [split|].
  - intros s. split; [done|constructor].
  - intros s s1 s2 t1 t2 [H1 H2] [H1' H2']. split; [congruence|by apply Forall_app].
  - intros s s' tr Hup _ Htr. by split.
Qed.

Lemma registrySame_validateConnection group :
  follows registrySame (validateConnection world rangeOrder group).
Proof.
  intros s e. destruct (validateConnection_quiet group s e) as (Hup & Hq & _).
  split; [done|by apply quiet_not_register].
Qed.

Ltac same_step :=
  first
    [ apply registrySame_validateConnection
    | apply (follows_send registrySame registrySame_local)
    | apply (follows_call registrySame registrySame_local)
    | apply (follows_writeError registrySame registrySame_local)
    | apply (follows_writeResponse registrySame registrySame_local)
    | apply (follows_emit registrySame registrySame_local); [reflexivity|reflexivity]
    | apply follows_ret, registrySame_local
    | apply follows_panic, registrySame_local
    | apply follows_getServer, registrySame_local
    | match goal with
      | |- follows _ (match ?x with _ => _ end) => destruct x
      end
    | apply follows_bind; [apply registrySame_local| |intros ?] ].

Lemma handle_registrySame h fuel r :
  h <> HCreateUploadID ->
  follows registrySame
    (handle world rangeOrder formatRFC3339 GetMetaResponse_String h fuel r).
Proof.
  intros Hh. destruct h; try done; handlers; unfold sendConfirm, sendPut, sendGet;
    repeat same_step.
Qed.

(** [createUploadID] is the only handler that writes the upload registry:
    every other handler leaves it exactly as it was and registers and
    unregisters nothing.  In particular [confirmUploadID] does not take the
    id it has confirmed out of the registry. *)
Theorem registry_written_by_createUploadID_alone h fuel r s e :
  h <> HCreateUploadID ->
  let run := handle world rangeOrder formatRFC3339 GetMetaResponse_String h fuel r s e in
  UploadTask (srv run) = UploadTask s /\
  Forall (fun ev => isRegister ev = false /\ isUnregister ev = false) (trace run).
Proof. intros Hh. apply (handle_registrySame h fuel r Hh s e). Qed.

(** *** Errors are answered as they come *)

Lemma relaysErrors_clean (tr : list Event) :
  Forall (fun ev => failedCall ev = None) tr -> relaysErrors tr.
Proof.
  intros Hall i err Hi. destruct (tr !! i) as [ev|] eqn:Hev; [|done]. cbn in Hi.
  apply (proj1 (Forall_lookup _ _) Hall _ _) in Hev. congruence.
Qed.

Lemma relaysErrors_app (t1 t2 : list Event) :
  Forall (fun ev => failedCall ev = None) t1 -> relaysErrors t2 -> relaysErrors (t1 ++ t2).
Proof.
  intros H1 H2 i err Hi.
  destruct (decide (i < List.length t1)) as [Hlt|Hge].
  - rewrite lookup_app_l in Hi by done. exfalso.
    destruct (t1 !! i) as [ev|] eqn:Hev; [|done]. cbn in Hi.
    apply (proj1 (Forall_lookup _ _) H1 _ _) in Hev. congruence.
  - rewrite lookup_app_r in Hi by lia.
    rewrite drop_app_ge by lia.
    replace (S i - List.length t1) with (S (i - List.length t1)) by lia.
    by apply H2.
Qed.

Lemma Clean_call {R} (c : Call R) :
  (forall r, failedCall (EvCall c r) = None) -> Clean (call world c).
Proof. intros Hc s e. rewrite call_run. by repeat constructor. Qed.

Lemma Clean_send {R} (rpc : Conn -> Call (result R)) fuel connections :
  (forall c r, failedCall (EvCall (rpc c) r) = None) ->
  Clean (send world rpc fuel connections).
Proof.
  intros Hrpc s e.
  assert (Hfails : forall fails,
            Forall (fun ev => failedCall ev = None) (flat_map (attemptFailed rpc) fails)).
  { induction fails as [|[[c err] now] rest IH]; [constructor|].
    cbn. constructor; [apply Hrpc|]. by constructor. }
  destruct (send_cases rpc fuel connections s e);
    (constructor; [done|]); try apply Forall_app; try split; try apply Hfails;
    repeat constructor; try apply Hrpc; done.
Qed.

Lemma Relays_clean (m : M unit) : Clean m -> Relays m.
Proof. intros Hm s e. by apply relaysErrors_clean. Qed.

Lemma Relays_bind {A} (m : M A) (k : A -> M unit) :
  Clean m -> (forall a, Relays (k a)) -> Relays (bind m k).
Proof.
  intros Hm Hk s e. rewrite bind_run. specialize (Hm s e).
  destruct (out (m s e)) as [a| |]; cbn [trace].
  - apply relaysErrors_app; [done|apply Hk].
  - by apply relaysErrors_clean.
  - by apply relaysErrors_clean.
Qed.

(** A call whose error the handler answers at once. *)
Lemma Relays_call {R} (c : Call (result R)) (k : R -> M unit) :
  (forall r, failedCall (EvCall c r) = errorOf r) ->
  (forall a, Relays (k a)) ->
  Relays (bind (call world c)
            (fun r => match r with Ok a => k a | Err err => writeError err end)).
Proof.
  intros Hc Hk s e. rewrite bind_run, call_run. cbn [out srv env trace].
  destruct (world _ c e) as [e1 [a|err]]; cbn [fst snd].
  - apply relaysErrors_app; [constructor; [by rewrite Hc|constructor]|apply Hk].
  - cbn [app]. intros [|[|i]] err' Hi; [|by cbn in Hi|by cbn in Hi].
    change (failedCall (EvCall c (Err err)) = Some err') in Hi.
    rewrite Hc in Hi. by injection Hi as <-.
Qed.

(** The dials of [validateConnection]: all but the last succeeded when it
    answers an error, all succeeded when it answers connections. *)
Lemma dialAll_failed addresses : forall connections s e,
  let run := dialAll world addresses connections s e in
  match out run with
  | Done (Err err) =>
      exists pre address,
        trace run = pre ++ [EvCall (Dial address) (Err err)] /\
        Forall (fun ev => failedCall ev = None) pre
  | _ => Forall (fun ev => failedCall ev = None) (trace run)
  end.
Proof.
  induction addresses as [|address rest IH]; intros connections s e; cbn zeta.
  - constructor.
  - cbn [dialAll]. msimpl.
    destruct (world _ (Dial address) e) as [e1 [connection|err]]; msimpl.
    + specialize (IH (connections ++ [connection]) s e1). cbn zeta in IH.
      destruct (out (dialAll world rest (connections ++ [connection]) s e1)) as [[|err]| |].
      * by constructor.
      * destruct IH as (pre & address' & -> & Hpre).
        exists (EvCall (Dial address) (Ok connection) :: pre), address'.
        split; [done|]. by constructor.
      * by constructor.
      * by constructor.
    + exists [], address. by split.
Qed.

(** What the critical section of [validateConnection] does: it closes
    connections, evicts and inserts. *)
Lemma cacheStore_Forall (P : Event -> Prop) groupId connections s e :
  (forall c a, P (EvCall (ConnClose c) a)) ->
  (forall k, P (EvCacheEvict k)) ->
  P (EvCacheInsert groupId connections) ->
  let run := cacheStore world rangeOrder groupId connections s e in
  out run = Done tt /\ Forall P (trace run).
Proof.
  intros Hclose Hevict Hinsert.
  assert (Hcloses : forall (victims : list Conn) (answers : list (result unit)),
            Forall P (zip_with (fun c a => EvCall (ConnClose c) a) victims answers)).
  { induction victims as [|c rest IH]; intros [|a answers]; cbn; try constructor; auto. }
  cbn zeta. unfold cacheStore. msimpl.
  destruct (decide (maxStorageConnection <= size (dataClients s))) as [Hfull|Hroom]; msimpl.
  - unfold evictOne. msimpl.
    destruct ((rangeOrder e (dataClients s)).*1) as [|k rest]; msimpl;
      [split; [done|by repeat constructor]|].
    destruct (closeAll_spec (default [] (dataClients s !! k)) s e)
      as (Hout & Hs & answers & Hlen & Htr).
    cbn zeta in *. rewrite Hout, Htr. msimpl. split; [done|].
    cbn [app]. repeat (apply Forall_app; split);
      first [apply Hcloses|by repeat constructor].
  - split; [done|by repeat constructor].
Qed.

Lemma Relays_validateConnection group (k : list Conn -> M unit) :
  (forall connections, Relays (k connections)) ->
  Relays (bind (validateConnection world rangeOrder group)
            (fun v => match v with Ok connections => k connections
                               | Err err => writeError err end)).
Proof.
  intros Hk s e. rewrite bind_run.
  assert (Hv : match out (validateConnection world rangeOrder group s e) with
               | Done (Err err) =>
                   exists pre address,
                     trace (validateConnection world rangeOrder group s e)
                       = pre ++ [EvCall (Dial address) (Err err)] /\
                     Forall (fun ev => failedCall ev = None) pre
               | _ => Forall (fun ev => failedCall ev = None)
                        (trace (validateConnection world rangeOrder group s e))
               end).
  { unfold validateConnection. msimpl.
    destruct (dataClients s !! GroupId group) as [connections|]; msimpl; [constructor|].
    pose proof (dialAll_failed (Addresses group) [] s e) as Hd. cbn zeta in Hd.
    destruct (out (dialAll world (Addresses group) [] s e)) as [[dialled|err]| |]; msimpl.
    - cbn [app].
      destruct (cacheStore_Forall (fun ev => failedCall ev = None) (GroupId group) dialled
                  (srv (dialAll world (Addresses group) [] s e))
                  (env (dialAll world (Addresses group) [] s e))) as (Hout & Hq); try done.
      cbn zeta in *. rewrite Hout. msimpl. rewrite app_nil_r.
      by apply Forall_app.
    - by rewrite app_nil_r.
    - done.
    - done. }
  destruct (out (validateConnection world rangeOrder group s e)) as [[connections|err]| |];
    cbn [trace].
  - apply relaysErrors_app; [done|apply Hk].
  - destruct Hv as (pre & address & -> & Hpre). cbn. rewrite <- app_assoc.
    apply relaysErrors_app; [done|].
    intros [|[|i]] err' Hi; cbn in Hi; try done. by injection Hi as <-.
  - by apply relaysErrors_clean.
  - by apply relaysErrors_clean.
Qed.

Ltac clean :=
  first
    [ apply Clean_send; reflexivity
    | apply Clean_call; reflexivity
    | intros ? ?; by repeat constructor ].

Ltac relays :=
  repeat first
    [ apply Relays_call; [reflexivity|intros ?]
    | apply Relays_validateConnection; intros ?
    | match goal with
      | |- Relays (match ?x with _ => _ end) => destruct x
      end
    | apply Relays_bind; [clean|intros ?]
    | apply Relays_clean; clean ].

(** Every handler answers the error of a service as it comes: when a call
    to auth or to metadata fails, or a dial, the handler writes that very
    error to the client and does nothing after it (no further call, no
    compensation of what the calls before it did). *)
Theorem errors_relayed h fuel r s e :
  relaysErrors (trace (handle world rangeOrder formatRFC3339 GetMetaResponse_String
                         h fuel r s e)).
Proof.
  assert (Hrelays : Relays
            (handle world rangeOrder formatRFC3339 GetMetaResponse_String h fuel r)).
  { destruct h; handlers; unfold sendCreate, sendConfirm, sendPut, sendGet;
      destruct (checkParameter r _) as [p [perr|]]; relays. }
  apply Hrelays.
Qed.

(** *** The connection cache, once more *)

(** The dials of [validateConnection], one by one. *)
Lemma dialAll_trace addresses : forall connections s e,
  let run := dialAll world addresses connections s e in
  (exists dialled,
     out run = Done (Ok (connections ++ dialled)) /\
     List.length dialled = List.length addresses /\
     trace run = zip_with (fun a c => EvCall (Dial a) (Ok c)) addresses dialled) \/
  (exists opened address err,
     out run = Done (Err err) /\
     addresses !! List.length opened = Some address /\
     trace run = zip_with (fun a c => EvCall (Dial a) (Ok c)) addresses opened
                   ++ [EvCall (Dial address) (Err err)]).
Proof.
  induction addresses as [|address rest IH]; intros connections s e; cbn zeta.
  - left. exists []. cbn. by rewrite app_nil_r.
  - cbn [dialAll]. msimpl.
    destruct (world _ (Dial address) e) as [e1 [connection|err]]; msimpl.
    + destruct (IH (connections ++ [connection]) s e1)
        as [(dialled & -> & Hlen & ->)|(opened & address' & err & -> & Haddr & ->)].
      * left. exists (connection :: dialled). rewrite <- app_assoc. cbn. by rewrite Hlen.
      * right. by exists (connection :: opened), address', err.
    + right. by exists [], address, err.
Qed.

(** Once [validateConnection] has answered the connections of a group, the
    cache holds them under the id of the group; and in every state whose
    cache holds them there, [validateConnection] answers them to a request
    for that group id, whatever addresses the request gives for the group:
    it dials nothing and leaves the state of the proxy as it is.  (The entry
    stays until the cache, at capacity, evicts it for another group; the
    group is dialled again after that.) *)
Theorem validateConnection_cached group group' s e s' e' connections :
  out (validateConnection world rangeOrder group s e) = Done (Ok connections) ->
  GroupId group' = GroupId group ->
  dataClients (srv (validateConnection world rangeOrder group s e)) !! GroupId group
    = Some connections /\
  (dataClients s' !! GroupId group = Some connections ->
   validateConnection world rangeOrder group' s' e' = MkRun (Done (Ok connections)) s' e' []).
Proof.
  intros Hout Hid.
  destruct (validateConnection_quiet group s e)
    as (_ & _ & [(connections' & Hout' & Hin)|(err & Hout' & _)]); cbn zeta in *;
    [|congruence].
  assert (connections' = connections) as -> by congruence.
  split; [exact Hin|]. intros Hin'.
  unfold validateConnection. msimpl. rewrite Hid, Hin'. reflexivity.
Qed.

(** When a dial fails, [validateConnection] answers its error and leaves the
    cache as it was.  Its trace is the dials alone, all successful but the
    last: the connections it opened before the address that failed are not
    closed, and they are not cached. *)
Theorem validateConnection_dial_failure group s e err :
  let run := validateConnection world rangeOrder group s e in
  out run = Done (Err err) ->
  srv run = s /\
  dataClients s !! GroupId group = None /\
  exists opened address,
    Addresses group !! List.length opened = Some address /\
    trace run = zip_with (fun a c => EvCall (Dial a) (Ok c)) (Addresses group) opened
                  ++ [EvCall (Dial address) (Err err)].
Proof.
  cbn zeta. unfold validateConnection. msimpl.
  destruct (dataClients s !! GroupId group) as [connections|] eqn:Hhit; msimpl; [done|].
  destruct (dialAll_spec (Addresses group) [] s e) as (Hs & _ & _).
  destruct (dialAll_trace (Addresses group) [] s e)
    as [(dialled & Hout & Hlen & Htr)|(opened & address & err' & Hout & Haddr & Htr)];
    cbn zeta in *; rewrite Hout; msimpl.
  - cbn [app].
    destruct (cacheStore_quiet (GroupId group) dialled
                (srv (dialAll world (Addresses group) [] s e))
                (env (dialAll world (Addresses group) [] s e))) as (Hout' & _).
    cbn zeta in *. rewrite Hout'. msimpl. done.
  - intros [= ->]. rewrite Hs, Htr, app_nil_r. split; [done|]. split; [done|].
    by exists opened, address.
Qed.

(** *** Groups without replicas *)

(** A wrapper that is given no connection panics at [connections[index]],
    after it has counted the command. *)
Lemma send_no_connection {R} (rpc : Conn -> Call (result R)) fuel s e :
  let run := send world rpc (S fuel) [] s e in
  out run = Panic "index out of range" /\
  srv run = incrCommandId s /\
  trace run = [EvCall TimeNow (world _ TimeNow e).2].
Proof.
  cbn zeta. unfold send. msimpl. by destruct (world _ TimeNow e) as [e1 now].
Qed.

Lemma validateConnection_no_address group s e :
  Addresses group = [] ->
  dataClients s !! GroupId group = None ->
  let run := validateConnection world rangeOrder group s e in
  out run = Done (Ok []) /\
  UploadTask (srv run) = UploadTask s /\
  dataClients (srv run) !! GroupId group = Some [] /\
  Forall (fun ev => isQuiet ev = true) (trace run) /\
  omap dialTarget (trace run) = [].
Proof.
  intros Haddr Hmiss. cbn zeta.
  destruct (validateConnection_quiet group s e) as (Hup & Hq & Hv). cbn zeta in *.
  assert (Hout : out (validateConnection world rangeOrder group s e) = Done (Ok []) /\
                 omap dialTarget (trace (validateConnection world rangeOrder group s e)) = []).
  { unfold validateConnection. msimpl. rewrite Hmiss, Haddr. cbn [dialAll]. msimpl.
    destruct (cacheStore_Forall (fun ev => dialTarget ev = None) (GroupId group) [] s e)
      as (Hout' & Hnodial); try done.
    cbn zeta in *. rewrite Hout'. msimpl. split; [done|]. cbn [app]. rewrite app_nil_r.
    by apply omap_none. }
  destruct Hout as [Hout Hdial].
  split; [done|]. split; [done|]. split; [|done].
  destruct Hv as [(connections & Hout' & Hin)|(err & Hout' & _)]; congruence.
Qed.

(** When metadata places an object on a group that has no address,
    [createUploadID] registers the id it mints, caches the group with no
    connection at all (nothing is dialled), and then panics in [sendCreate]
    at [connections[0]]: nothing is answered to the client, and the id and
    the empty cache entry stay. *)
Theorem createUploadID_group_without_address fuel r s e response group :
  let run := createUploadID world rangeOrder fuel r s e in
  omap checkMetaReply (trace run) = [Ok response] ->
  Existed response = false ->
  cm_Group response = Some group ->
  ~ (formValue r "id" <> "0" /\ is_Some (UploadTask s !! formValue r "id")) ->
  Addresses group = [] ->
  dataClients s !! GroupId group = None ->
  0 < fuel ->
  out run = Panic "index out of range" /\
  responses (trace run) = [] /\
  omap dialTarget (trace run) = [] /\
  dataClients (srv run) !! GroupId group = Some [] /\
  exists now rest,
    trace run = createPrefix r response now group ++ rest /\
    UploadTask (srv run) = <[mintedId now := registered group]> (UploadTask s).
Proof.
  cbn zeta. unfold createUploadID.
  destruct (checkParameter r _) as [p [err|]] eqn:Hp; msimpl; [done|]. params Hp.
  destruct (world _ (AuthCheck _ _ _) e) as [e1 [[]|err]]; msimpl; [|done].
  destruct (world _ (MetaCheckMeta _ _ _ _) e1) as [e2 [response'|err]]; msimpl; [|done].
  destruct (Existed response') eqn:Hex; msimpl.
  { intros [= ->]. congruence. }
  intros Htr Hex' Hgroup Hfresh Haddr Hmiss Hfuel. cbn in Htr. injection Htr as -> _.
  destruct (bool_decide (formValue r "id" ≠ "0")
            && bool_decide (is_Some (UploadTask s !! formValue r "id"))) eqn:Hresume.
  { exfalso. apply Hfresh. apply andb_true_iff in Hresume as [H1 H2].
    by apply bool_decide_eq_true in H1, H2. }
  msimpl. destruct (world _ TimeNow e2) as [e3 now]; msimpl. rewrite Hgroup. msimpl.
  set (s1 := setUploadTask _ s).
  destruct (validateConnection_no_address group s1 e3 Haddr Hmiss) as (Hout & Hup & Hin & Hq & Hdial).
  cbn zeta in *. rewrite Hout. msimpl.
  destruct fuel as [|fuel]; [lia|]. unfold sendCreate.
  destruct (send_no_connection (fun c => StorageCreate c (formValue r "tag")
                                  (strconv.FormatInt (Time_UnixNano now))) fuel
              (srv (validateConnection world rangeOrder group s1 e3))
              (env (validateConnection world rangeOrder group s1 e3))) as (Hpanic & Hsrv & Hstr).
  cbn zeta in *. rewrite Hpanic, Hsrv, Hstr. cbn [out srv trace].
  split; [done|]. split; [|split; [|split]].
  - unfold responses. cbn. rewrite List.filter_app. cbn. rewrite app_nil_r.
    apply (responses_none _ (quiet_not_write _ Hq)).
  - cbn. rewrite omap_app, Hdial. done.
  - done.
  - exists now. eexists. split; [reflexivity|]. cbn. by rewrite Hup.
Qed.

Lemma sweepGroups_no_connection (clock : E -> Z) (tick : Z) fuel :
  AdvancingClock world clock tick ->
  (executeTimeout < Z.of_nat fuel * tick)%Z ->
  forall groups blobs s e,
    Exists (fun g : string * list Conn => g.2 = []) groups ->
    out (sweepGroups world fuel groups blobs s e) = Panic "index out of range".
Proof.
  intros Hclock Hfuel.
  assert (Hpos : 0 < fuel) by (unfold executeTimeout, second in Hfuel; destruct fuel; lia).
  induction groups as [|[groupId connections] rest IH]; intros blobs s e Hex.
  - by apply Exists_nil in Hex.
  - cbn [sweepGroups]. unfold sendCheckBlob. msimpl.
    destruct connections as [|c0 more].
    + destruct fuel as [|fuel]; [lia|].
      destruct (send_no_connection (fun c => StorageCheckBlob c) fuel s e) as (Hpanic & _).
      cbn zeta in Hpanic. by rewrite Hpanic.
    + apply Exists_cons in Hex as [Hex|Hex]; [done|].
      pose proof (send_cases (fun c => StorageCheckBlob c) fuel (c0 :: more) s e) as Hsent.
      pose proof (send_terminates (fun c => StorageCheckBlob c) (c0 :: more) fuel clock tick
                    s e Hclock ltac:(done) Hfuel) as Hend.
      cbn zeta in Hsent. set (sent := send world _ fuel (c0 :: more) s e) in *.
      destruct (out sent) as [[ids|err]| |]; msimpl; [by apply IH| |by inversion Hsent|done].
      rewrite (IH _ _ _ Hex). done.
Qed.

(** A turn of the sweep over a cache that holds a group without connection
    panics at [connections[0]] of a probe: it unregisters nothing, whatever
    the groups probed before have reported, and it does not come to wait for
    the ticker.  (The sweep runs in a goroutine of its own, where nothing
    recovers the panic.) *)
Theorem sweepTick_group_without_connection (clock : E -> Z) (tick : Z) fuel s e groupId :
  AdvancingClock world clock tick ->
  (executeTimeout < Z.of_nat fuel * tick)%Z ->
  dataClients s !! groupId = Some [] ->
  let run := sweepTick world rangeOrder fuel s e in
  out run = Panic "index out of range" /\
  UploadTask (srv run) = UploadTask s /\
  Forall (fun ev => isUnregister ev = false /\ isTick ev = false) (trace run).
Proof.
  intros Hclock Hfuel Hempty. cbn zeta. unfold sweepTick. msimpl.
  assert (Hex : Exists (fun g : string * list Conn => g.2 = [])
                  (rangeOrder e (dataClients s))).
  { apply Exists_exists. exists (groupId, []). split; [|done].
    rewrite (rangeOrder_perm e). by apply elem_of_map_to_list. }
  rewrite (sweepGroups_no_connection clock tick fuel Hclock Hfuel _ [] s e Hex).
  destruct (sweepGroups_frame fuel (rangeOrder e (dataClients s)) [] s e) as [Hup Hev].
  cbn zeta in *. cbn [out srv trace]. split; [done|]. split; [done|].
  eapply Forall_impl; [exact Hev|]. by intros ev (_ & _ & ? & ?).
Qed.

(** *** The sweep over any number of turns *)

Lemma sweepTick_frame fuel s e :
  let run := sweepTick world rangeOrder fuel s e in
  dataClients (srv run) = dataClients s /\
  (forall id, UploadTask (srv run) !! id = UploadTask s !! id \/
              (UploadTask (srv run) !! id = None /\ EvUnregister id ∈ trace run)) /\
  Forall (fun ev => isWrite ev = false /\ isRegister ev = false) (trace run) /\
  List.length (List.filter isTick (trace run)) = match out run with Done _ => 1 | _ => 0 end.
Proof.
  cbn zeta. split; [apply sweepTick_cache|]. unfold sweepTick. msimpl.
  destruct (sweepGroups_frame fuel (rangeOrder e (dataClients s)) [] s e) as [Hup Hev].
  cbn zeta in *. set (probes := sweepGroups world fuel (rangeOrder e (dataClients s)) [] s e) in *.
  assert (Hquiet : Forall (fun ev => isWrite ev = false /\ isRegister ev = false) (trace probes))
    by (eapply Forall_impl; [exact Hev|]; by intros ev (? & ? & _)).
  assert (Hticks : List.filter isTick (trace probes) = []).
  { clear -Hev. induction Hev as [|ev l (_ & _ & _ & Hev) _ IH]; [done|]. cbn. by rewrite Hev. }
  destruct (out probes) as [blobs| |]; msimpl.
  - destruct (unregisterAll_spec blobs (srv probes) (env probes)) as (Hout & _ & Htr & Hreg).
    cbn zeta in *. rewrite Hout, Htr. msimpl.
    destruct (world _ TickerRecv (env (unregisterAll blobs (srv probes) (env probes))))
      as [e' []]; msimpl.
    split; [|split].
    + intros id. rewrite Hreg, Hup. destruct (decide (id ∈ blobs)) as [Hin|Hnin].
      * right. rewrite bool_decide_eq_true_2 by done. split; [done|].
        assert (Hm : EvUnregister id ∈ EvUnregister <$> blobs)
          by (by apply list_elem_of_fmap_2).
        rewrite !elem_of_app. tauto.
      * left. by rewrite bool_decide_eq_false_2.
    + cbn [app]. apply Forall_app. split; [done|]. apply Forall_app.
      split; [|by repeat constructor]. apply Forall_fmap. by apply Forall_true.
    + cbn [app]. rewrite !List.filter_app, Hticks. cbn.
      assert (Hnone : List.filter isTick (EvUnregister <$> blobs) = [])
        by (clear; induction blobs as [|b rest IH]; [done|exact IH]).
      by rewrite Hnone.
  - cbn [app]. split; [by left; rewrite Hup|]. split; [done|]. by rewrite Hticks.
  - cbn [app]. split; [by left; rewrite Hup|]. split; [done|]. by rewrite Hticks.
Qed.

(** Over any number of turns, and whatever the storage servers answer, the
    sweep only removes: it leaves the connection cache as it is, an upload id
    is in the registry after it only if it was there before, with the same
    group, and it is gone only if the sweep unregistered it; the sweep
    registers nothing and writes to no client.  When all its turns return,
    it has waited for the ticker once in each. *)
Theorem checkExpiredBlobs_only_removes fuel ticks s e :
  let run := checkExpiredBlobs world rangeOrder fuel ticks s e in
  dataClients (srv run) = dataClients s /\
  UploadTask (srv run) ⊆ UploadTask s /\
  (forall id, UploadTask (srv run) !! id = UploadTask s !! id \/
              EvUnregister id ∈ trace run) /\
  Forall (fun ev => isWrite ev = false /\ isRegister ev = false) (trace run) /\
  (out run = Done tt -> List.length (List.filter isTick (trace run)) = ticks).
Proof.
  cbn zeta. revert s e. induction ticks as [|n IH]; intros s e.
  - cbn. split; [done|]. split; [done|]. split; [by left|]. split; [constructor|done].
  - cbn [checkExpiredBlobs]. msimpl.
    destruct (sweepTick_frame fuel s e) as (Hdc & Hup & Hev & Hticks). cbn zeta in *.
    set (turn := sweepTick world rangeOrder fuel s e) in *.
    assert (Hsub : UploadTask (srv turn) ⊆ UploadTask s).
    { apply map_subseteq_spec. intros id g Hg.
      destruct (Hup id) as [<-|[Hnone _]]; [done|congruence]. }
    assert (Hgone : forall id, UploadTask (srv turn) !! id = UploadTask s !! id \/
                               EvUnregister id ∈ trace turn).
    { intros id. destruct (Hup id) as [?|[_ ?]]; auto. }
    destruct (out turn) as [[]| |]; cbn [out srv trace]; [|done|done].
    destruct (IH (srv turn) (env turn)) as (Hdc' & Hsub' & Hgone' & Hev' & Hticks').
    split; [congruence|]. split; [by etrans|]. split; [|split].
    + intros id. destruct (Hgone' id) as [Heq|Hin]; [|right; apply elem_of_app; by right].
      destruct (Hgone id) as [Heq'|Hin]; [left; congruence|right; apply elem_of_app; by left].
    + by apply Forall_app.
    + intros Hdone. rewrite List.filter_app, List.length_app, Hticks, (Hticks' Hdone). done.
Qed.

(** *** An answer of metadata without group *)

(** When metadata answers no group (a nil [Group] in its response), the
    handler that needs one panics on [group.GroupId] with nothing answered
    to the client, nothing registered and nothing dialled, the upload
    registry and the connection cache being as they were: [createUploadID]
    when [CheckMeta] says that the object is new and the request does not
    resume an upload, after it has read the clock for the id and before it
    writes the registry; [getObject] as soon as it looks the group up in the
    cache.  (The lock of the proxy is no part of [Server]: nothing is said
    of it here.) *)
Theorem nil_group_panics fuel r s e :
  (forall response,
     let run := createUploadID world rangeOrder fuel r s e in
     omap checkMetaReply (trace run) = [Ok response] ->
     Existed response = false ->
     cm_Group response = None ->
     ~ (formValue r "id" <> "0" /\ is_Some (UploadTask s !! formValue r "id")) ->
     out run = Panic "nil pointer dereference" /\
     UploadTask (srv run) = UploadTask s /\
     dataClients (srv run) = dataClients s /\
     exists now,
       trace run =
         [EvCall (AuthCheck (formValue r "token") (formValue r "bucket") PermissionWrite)
            (Ok tt);
          EvCall (MetaCheckMeta (formValue r "bucket") (formValue r "name")
                    (formValue r "key") (formValue r "tag")) (Ok response);
          EvCall TimeNow now]) /\
  (forall meta,
     let run := getObject world rangeOrder fuel r s e in
     omap getMetaReply (trace run) = [Ok meta] ->
     gm_Group meta = None ->
     out run = Panic "nil pointer dereference" /\
     UploadTask (srv run) = UploadTask s /\
     dataClients (srv run) = dataClients s /\
     trace run =
       [EvCall (AuthCheck (formValue r "token") (formValue r "bucket") PermissionRead)
          (Ok tt);
        EvCall (MetaGetMeta (formValue r "bucket") (formValue r "key")) (Ok meta)]).
Proof.
  split.
  - intros response. cbn zeta. unfold createUploadID.
    destruct (checkParameter r _) as [p [err|]] eqn:Hp; msimpl; [done|]. params Hp.
    destruct (world _ (AuthCheck _ _ _) e) as [e1 [[]|err]]; msimpl; [|done].
    destruct (world _ (MetaCheckMeta _ _ _ _) e1) as [e2 [response'|err]]; msimpl; [|done].
    destruct (Existed response') eqn:Hex; msimpl.
    { intros [= ->]. congruence. }
    intros Htr _ Hgroup Hfresh. cbn in Htr. injection Htr as -> _.
    destruct (bool_decide (formValue r "id" ≠ "0")
              && bool_decide (is_Some (UploadTask s !! formValue r "id"))) eqn:Hresume.
    { exfalso. apply Hfresh. apply andb_true_iff in Hresume as [H1 H2].
      by apply bool_decide_eq_true in H1, H2. }
    msimpl. destruct (world _ TimeNow e2) as [e3 now]; msimpl. rewrite Hgroup. msimpl.
    split; [done|]. split; [done|]. split; [done|]. by exists now.
  - intros meta. cbn zeta. unfold getObject.
    destruct (checkParameter r _) as [p [err|]] eqn:Hp; msimpl; [done|]. params Hp.
    destruct (world _ (AuthCheck _ _ _) e) as [e1 [[]|err]]; msimpl; [|done].
    destruct (world _ (MetaGetMeta _ _) e1) as [e2 [meta'|err]]; msimpl; [|done].
    intros Htr Hgroup. cbn in Htr. injection Htr as Hmeta _.
    rewrite Hmeta, Hgroup. msimpl. done.
Qed.

(** *** What goes to storage and what comes back *)

Lemma attempts_Forall {R} (rpc : Conn -> Call (result R)) (P : Event -> Prop) fails :
  (forall now, P (EvCall TimeNow now)) ->
  (forall c a, P (EvCall (rpc c) a)) ->
  Forall P (flat_map (attemptFailed rpc) fails).
Proof.
  intros Hnow Hrpc. induction fails as [|[[c err] now] rest IH]; [constructor|].
  cbn. constructor; [apply Hrpc|]. by constructor.
Qed.

Lemma quiet_no_reply (tr : list Event) :
  Forall (fun ev => isQuiet ev = true) tr ->
  omap getMetaReply tr = [] /\ omap authCheckReply tr = [] /\ omap putSent tr = [].
Proof.
  intros H. repeat split; apply omap_none; (eapply Forall_impl; [exact H|]); intros ev Hq;
    (destruct ev as [R c a| | | | | | | |]; try done); by destruct c.
Qed.

Lemma wrote_responses (tr : list Event) body :
  EvWriteResponse body ∈ tr -> EvWriteResponse body ∈ responses tr.
Proof.
  intros Hin. unfold responses. apply list_elem_of_In, List.filter_In.
  split; [by apply list_elem_of_In|done].
Qed.

Ltac no_answer Hin :=
  repeat (apply elem_of_cons in Hin as [Hin|Hin]; [discriminate Hin|]);
  by apply elem_of_nil in Hin.

(** When [getObject] answers a body, it is the body that a storage replica
    answered to the last [storage.Get] of the run, sent on a connection
    cached for the group that [metadata.GetMeta] named, for the volume and
    the offset of that answer and the start that [strconv.ParseInt] made of
    the request's start (0 when it does not parse, the nearest bound of
    int64 when it is out of range).  The name of the object goes into the
    header before the body is written, and the body is the only answer. *)
Theorem getObject_serves_stored_bytes fuel r s e body :
  let run := getObject world rangeOrder fuel r s e in
  EvWriteResponse body ∈ trace run ->
  exists pre meta group connections c,
    trace run =
      pre ++ [EvCall (StorageGet c (gm_VolumeId meta) (gm_Offset meta)
                        (strconv.ParseInt (formValue r "start")).1) (Ok body);
              EvHeader "name" (gm_Name meta);
              EvWriteResponse body] /\
    omap authCheckReply pre = [Ok tt] /\
    omap getMetaReply pre = [Ok meta] /\
    gm_Group meta = Some group /\
    dataClients (srv run) !! GroupId group = Some connections /\
    c ∈ connections /\
    responses (trace run) = [EvWriteResponse body].
Proof.
  cbn zeta. unfold getObject.
  destruct (checkParameter r _) as [p [perr|]] eqn:Hp; msimpl; [intros Hin; no_answer Hin|].
  params Hp.
  destruct (world _ (AuthCheck _ _ _) e) as [e1 [[]|err]]; msimpl; [|intros Hin; no_answer Hin].
  destruct (world _ (MetaGetMeta _ _) e1) as [e2 [meta|err]]; msimpl;
    [|intros Hin; no_answer Hin].
  destruct (gm_Group meta) as [group|] eqn:Hgroup; msimpl; [|intros Hin; no_answer Hin].
  destruct (validateConnection_quiet group s e2) as (_ & Hq & Hv). cbn zeta in *.
  set (v := validateConnection world rangeOrder group s e2) in *.
  pose proof (quiet_not_write _ Hq) as Hvw.
  destruct (quiet_no_reply _ Hq) as (Hvm & Hva & _).
  destruct Hv as [(connections & Hout & Hin)|(err & Hout & _)]; rewrite Hout; msimpl.
  2:{ intros Hw. exfalso. apply wrote_responses in Hw.
      rewrite ?responses_app, ?(responses_none _ Hvw) in Hw. cbn in Hw. no_answer Hw. }
  unfold sendGet.
  pose proof (send_cases (fun c => StorageGet c (gm_VolumeId meta) (gm_Offset meta)
                                     (strconv.ParseInt (formValue r "start")).1)
                fuel connections (srv v) (env v)) as Hsent.
  pose proof (send_srv (fun c => StorageGet c (gm_VolumeId meta) (gm_Offset meta)
                                   (strconv.ParseInt (formValue r "start")).1)
                fuel connections (srv v) (env v)) as Hsrv.
  cbn zeta in Hsent. set (sent := send world _ fuel connections _ _) in *.
  pose proof (Sent_calls _ _ _ _ _ Hsent) as Hcalls.
  assert (Hsw : Forall (fun ev => isWrite ev = false) (trace sent))
    by (eapply Forall_impl; [exact Hcalls|]; by intros ev (_ & _ & ?)).
  destruct (out sent) as [[body'|err]| |] eqn:Ho; msimpl; intros Hw;
    pose proof (wrote_responses _ _ Hw) as Hw';
    rewrite ?responses_app, ?(responses_none _ Hvw), ?(responses_none _ Hsw) in Hw';
    cbn in Hw'; [|no_answer Hw'|no_answer Hw'|no_answer Hw'].
  apply elem_of_cons in Hw' as [[= ->]|Hw']; [|no_answer Hw'].
  inversion Hsent as [now fails c response Hret Hc Ho' Htr| | |]; subst.
  exists ([EvCall (AuthCheck (formValue r "token") (formValue r "bucket") PermissionRead)
             (Ok tt);
           EvCall (MetaGetMeta (formValue r "bucket") (formValue r "key")) (Ok meta)]
          ++ trace v ++ EvCall TimeNow now
          :: flat_map (attemptFailed
                         (fun c => StorageGet c (gm_VolumeId meta) (gm_Offset meta)
                                     (strconv.ParseInt (formValue r "start")).1)) fails),
    meta, group, connections, c.
  assert (Hfa : omap authCheckReply
                  (flat_map (attemptFailed
                     (fun c => StorageGet c (gm_VolumeId meta) (gm_Offset meta)
                                 (strconv.ParseInt (formValue r "start")).1)) fails) = [] /\
                omap getMetaReply
                  (flat_map (attemptFailed
                     (fun c => StorageGet c (gm_VolumeId meta) (gm_Offset meta)
                                 (strconv.ParseInt (formValue r "start")).1)) fails) = []).
  { split; apply omap_none; by apply attempts_Forall. }
  destruct Hfa as [Hfa Hfm].
  split; [|split; [|split; [|split; [done|split; [|split]]]]].
  - repeat (progress (rewrite <- ?app_assoc; cbn [app])). reflexivity.
  - cbn. rewrite omap_app, Hva. cbn. by rewrite Hfa.
  - cbn. rewrite omap_app, Hvm. cbn. by rewrite Hfm.
  - by rewrite Hsrv.
  - by eapply list_elem_of_lookup_2.
  - rewrite Htr, !responses_app, (responses_none _ Hvw), (responses_none _ Hsw). done.
Qed.

(** Every call of a wrapper goes to one of the connections it was given. *)
Lemma Sent_targets {R} (rpc : Conn -> Call (result R)) connections fuel o tr
    (P : Event -> Prop) :
  (forall now, P (EvCall TimeNow now)) ->
  (forall c a, c ∈ connections -> P (EvCall (rpc c) a)) ->
  Sent rpc connections fuel o tr -> Forall P tr.
Proof.
  intros Hnow Hrpc Hsent.
  assert (Hfails : forall deadline fails,
            Retried connections deadline 0 fails ->
            Forall P (flat_map (attemptFailed rpc) fails)).
  { intros deadline fails Hret. apply Forall_flat_map, Forall_lookup.
    intros k [[c err] now] Hk. destruct (Hret k c err now Hk) as [Hc _].
    cbn. constructor; [|by repeat constructor].
    apply Hrpc. by eapply list_elem_of_lookup_2. }
  destruct Hsent as [now fails c response Hret Hc|now fails c err at_ Hret Hc Hat
                     |now fails Hret Hlen|now Hempty];
    (constructor; [apply Hnow|]); try apply Forall_app; try split;
    try (by eapply Hfails); repeat constructor; auto;
    apply Hrpc; by eapply list_elem_of_lookup_2.
Qed.

(** [putObject] never calls metadata, and every [storage.Put] it sends
    carries the body of the request as it was read, the upload id of the
    request and the offset that [strconv.ParseInt] made of the request's
    offset, on a connection cached for the group that the id is registered
    with. *)
Theorem putObject_forwards_body fuel r s e :
  let run := putObject world rangeOrder fuel r s e in
  Forall (fun ev => isMetaRPC ev = false) (trace run) /\
  forall i c payload id offset,
    trace run !! i ≫= putSent = Some (c, payload, id, offset) ->
    body r = Ok payload /\
    id = formValue r "id" /\
    strconv.ParseInt (formValue r "offset") = (offset, None) /\
    exists group connections,
      UploadTask s !! id = Some group /\
      dataClients (srv run) !! GroupId group = Some connections /\
      c ∈ connections.
Proof.
  cbn zeta.
  set (P := fun srv' (ev : Event) =>
         isMetaRPC ev = false /\
         forall c payload id offset,
           putSent ev = Some (c, payload, id, offset) ->
           body r = Ok payload /\
           id = formValue r "id" /\
           strconv.ParseInt (formValue r "offset") = (offset, None) /\
           exists group connections,
             UploadTask s !! id = Some group /\
             dataClients srv' !! GroupId group = Some connections /\
             c ∈ connections).
  assert (Hall : Forall (P (srv (putObject world rangeOrder fuel r s e)))
                   (trace (putObject world rangeOrder fuel r s e))).
  { unfold putObject.
    destruct (checkParameter r _) as [p [perr|]] eqn:Hp; msimpl; [by repeat constructor|].
    params Hp.
    destruct (world _ (AuthCheck _ _ _) e) as [e1 [[]|err]]; msimpl; [|by repeat constructor].
    destruct (strconv.ParseInt (formValue r "offset")) as [offset [nerr|]] eqn:Hoff; msimpl;
      [by repeat constructor|].
    destruct (body r) as [payload|err] eqn:Hbody; msimpl; [|by repeat constructor].
    destruct (UploadTask s !! formValue r "id") as [group|] eqn:Hid; msimpl;
      [|by repeat constructor].
    destruct (validateConnection_quiet group s e1) as (_ & Hq & Hv). cbn zeta in *.
    set (v := validateConnection world rangeOrder group s e1) in *.
    assert (Hvq : forall srv', Forall (P srv') (trace v)).
    { intros srv'. eapply Forall_impl; [exact Hq|]. intros ev Hev.
      destruct ev as [R c a| | | | | | | |]; try done. by destruct c. }
    destruct Hv as [(connections & Hout & Hin)|(err & Hout & _)]; rewrite Hout; msimpl.
    2:{ repeat first [apply Hvq|apply Forall_nil|apply Forall_cons; split
                     |apply Forall_app; split|done]. }
    unfold sendPut.
    pose proof (send_cases (fun c => StoragePut c payload (formValue r "id") offset)
                  fuel connections (srv v) (env v)) as Hsent.
    pose proof (send_srv (fun c => StoragePut c payload (formValue r "id") offset)
                  fuel connections (srv v) (env v)) as Hsrv.
    cbn zeta in Hsent. set (sent := send world _ fuel connections _ _) in *.
    assert (Hsq : Forall (P (srv sent)) (trace sent)).
    { eapply Sent_targets; [| |exact Hsent].
      - intros now. by split.
      - intros c a Hc. split; [done|]. intros c' payload' id' offset' [= <- <- <- <-].
        split; [done|]. split; [done|]. split; [done|].
        exists group, connections. by rewrite Hsrv. }
    destruct (out sent) as [[[]|err]| |]; msimpl;
      repeat first [apply Hvq|exact Hsq|apply Forall_nil|apply Forall_cons; split
                   |apply Forall_app; split|done]. }
  split.
  - eapply Forall_impl; [exact Hall|]. by intros ev [? _].
  - intros i c payload id offset Hi.
    destruct (trace (putObject world rangeOrder fuel r s e) !! i) as [ev|] eqn:Hev; [|done].
    cbn in Hi. by apply (proj2 (proj1 (Forall_lookup _ _) Hall _ _ Hev)).
Qed.

(** *** From one request of an upload to the next *)

(** After [createUploadID] has answered a fresh id, a [confirmUploadID] for
    that id that passes the auth check finds the id in the registry and the
    connections of its group in the cache: it dials nothing, leaves the cache
    as it is, and sends [storage.Confirm] through the connections that
    [storage.Create] was sent through. *)
Theorem confirm_after_create_uses_cached_connections
    fuel r s e response group id fuel' r' e' :
  let run := createUploadID world rangeOrder fuel r s e in
  let run' := confirmUploadID world rangeOrder fuel' r' (srv run) e' in
  omap checkMetaReply (trace run) = [Ok response] ->
  Existed response = false ->
  cm_Group response = Some group ->
  ~ (formValue r "id" <> "0" /\ is_Some (UploadTask s !! formValue r "id")) ->
  EvWriteResponse id ∈ trace run ->
  formValue r' "id" = id ->
  omap authCheckReply (trace run') = [Ok tt] ->
  exists connections pre str o' str' rest',
    dataClients (srv run) !! GroupId group = Some connections /\
    trace run = pre ++ str ++ [EvWriteResponse id] /\
    Sent (fun c => StorageCreate c (formValue r "tag") id) connections fuel
      (Done (Ok tt)) str /\
    trace run' =
      EvCall (AuthCheck (formValue r' "token") (formValue r' "bucket") PermissionWrite)
        (Ok tt) :: str' ++ rest' /\
    Sent (fun c => StorageConfirm c id) connections fuel' o' str' /\
    omap dialTarget (trace run') = [] /\
    dataClients (srv run') = dataClients (srv run).
Proof.
  cbn zeta. intros Htr Hex Hgroup Hfresh Hid Hid' Hauth.
  destruct (createUploadID_fresh_run fuel r s e response group Htr Hex Hgroup Hfresh)
    as (now & vtr & Hq & Hup & Hcases). cbn zeta in *.
  set (run := createUploadID world rangeOrder fuel r s e) in *.
  pose proof (quiet_not_write _ Hq) as Hvw.
  assert (Hpw : responses (createPrefix r response now group) = []) by done.
  apply wrote_responses in Hid.
  destruct Hcases as [(err & Hout & Heq)|(connections & o & str & Hin & Hsent & Hout & Heq)];
    rewrite Heq in Hid;
    rewrite ?responses_app, ?Hpw, ?(responses_none _ Hvw) in Hid.
  { cbn in Hid. no_answer Hid. }
  assert (Hsw : Forall (fun ev => isWrite ev = false) str).
  { eapply Forall_impl; [exact (Sent_calls _ _ _ _ _ Hsent)|]. by intros ev (_ & _ & ?). }
  rewrite (responses_none _ Hsw) in Hid.
  destruct o as [[[]|err]| |]; cbn in Hid; [|no_answer Hid|no_answer Hid|no_answer Hid].
  apply elem_of_cons in Hid as [[= ->]|Hid]; [|no_answer Hid].
  exists connections, (createPrefix r response now group ++ vtr), str.
  assert (Hreg : UploadTask (srv run) !! formValue r' "id" = Some (registered group)).
  { rewrite Hid', Hup. apply lookup_insert_eq. }
  revert Hauth. unfold confirmUploadID.
  destruct (checkParameter r' _) as [p [perr|]] eqn:Hp; msimpl; [done|]. params Hp.
  destruct (world _ (AuthCheck _ _ _) e') as [e1 [[]|err]]; msimpl; [|by intros [=]].
  intros _. rewrite Hreg. msimpl.
  unfold validateConnection. msimpl. cbn [registered GroupId]. rewrite Hin. msimpl.
  unfold sendConfirm. rewrite Hid'.
  pose proof (send_cases (fun c => StorageConfirm c (mintedId now)) fuel' connections
                (srv run) e1) as Hsent'.
  pose proof (send_srv (fun c => StorageConfirm c (mintedId now)) fuel' connections
                (srv run) e1) as Hsrv'.
  cbn zeta in Hsent'. set (sent := send world _ fuel' connections _ _) in *.
  assert (Hnodial : omap dialTarget (trace sent) = []).
  { apply omap_none. eapply Sent_Forall; [| |exact Hsent']; done. }
  exists (out sent), (trace sent).
  destruct (out sent) as [[cr|err]| |] eqn:Ho; msimpl.
  - destruct (world _ (MetaPutMeta _ _ _ _ _ _ _ _) (env sent)) as [e3 [[]|err]] eqn:Hm;
      msimpl; eexists; (split; [done|]); (split; [by rewrite Heq, <- app_assoc|]);
      (split; [done|]); (split; [cbn [app]; reflexivity|]); (split; [done|]);
      (split; [cbn; rewrite omap_app, Hnodial; done|by rewrite Hsrv']).
  - eexists; (split; [done|]); (split; [by rewrite Heq, <- app_assoc|]);
      (split; [done|]); (split; [cbn [app]; reflexivity|]); (split; [done|]);
      (split; [cbn; rewrite omap_app, Hnodial; done|by rewrite Hsrv']).
  - exists []; (split; [done|]); (split; [by rewrite Heq, <- app_assoc|]);
      (split; [done|]); (split; [cbn [app]; by rewrite !app_nil_r|]); (split; [done|]);
      (split; [cbn; rewrite ?app_nil_r, Hnodial; done|by rewrite Hsrv']).
  - exists []; (split; [done|]); (split; [by rewrite Heq, <- app_assoc|]);
      (split; [done|]); (split; [cbn [app]; by rewrite !app_nil_r|]); (split; [done|]);
      (split; [cbn; rewrite ?app_nil_r, Hnodial; done|by rewrite Hsrv']).
Qed.

(** The ids that [createUploadID] mints are as distinct as the readings of
    the clock they are made of: of two requests that mint an id one after
    the other, the second gets the id of the first exactly when it reads the
    same [UnixNano], and then its registration replaces the group that the
    first had registered for the id; otherwise both ids are registered, each
    with its own group. *)
Theorem minted_ids_follow_the_clock
    fuel r s e response group fuel' r' e' response' group' :
  let run := createUploadID world rangeOrder fuel r s e in
  let run' := createUploadID world rangeOrder fuel' r' (srv run) e' in
  omap checkMetaReply (trace run) = [Ok response] ->
  Existed response = false ->
  cm_Group response = Some group ->
  ~ (formValue r "id" <> "0" /\ is_Some (UploadTask s !! formValue r "id")) ->
  omap checkMetaReply (trace run') = [Ok response'] ->
  Existed response' = false ->
  cm_Group response' = Some group' ->
  ~ (formValue r' "id" <> "0" /\ is_Some (UploadTask (srv run) !! formValue r' "id")) ->
  exists now now' rest rest',
    trace run = createPrefix r response now group ++ rest /\
    trace run' = createPrefix r' response' now' group' ++ rest' /\
    (mintedId now' = mintedId now <-> Time_UnixNano now' = Time_UnixNano now) /\
    UploadTask (srv run') !! mintedId now' = Some (registered group') /\
    UploadTask (srv run') !! mintedId now =
      Some (if decide (Time_UnixNano now' = Time_UnixNano now)
            then registered group' else registered group).
Proof.
  cbn zeta. intros Htr Hex Hgroup Hfresh Htr' Hex' Hgroup' Hfresh'.
  destruct (createUploadID_fresh_run fuel r s e response group Htr Hex Hgroup Hfresh)
    as (now & vtr & _ & Hup & Hcases). cbn zeta in *.
  set (run := createUploadID world rangeOrder fuel r s e) in *.
  destruct (createUploadID_fresh_run fuel' r' (srv run) e' response' group'
              Htr' Hex' Hgroup' Hfresh')
    as (now' & vtr' & _ & Hup' & Hcases'). cbn zeta in *.
  set (run' := createUploadID world rangeOrder fuel' r' (srv run) e') in *.
  assert (Hinj : mintedId now' = mintedId now <-> Time_UnixNano now' = Time_UnixNano now).
  { unfold mintedId, strconv.FormatInt. split; [apply (inj pretty)|congruence]. }
  exists now, now'.
  assert (Hrest : exists rest, trace run = createPrefix r response now group ++ rest).
  { destruct Hcases as [(err & _ & ->)|(? & ? & ? & _ & _ & _ & ->)]; eauto. }
  assert (Hrest' : exists rest', trace run' = createPrefix r' response' now' group' ++ rest').
  { destruct Hcases' as [(err & _ & ->)|(? & ? & ? & _ & _ & _ & ->)]; eauto. }
  destruct Hrest as [rest Hrest], Hrest' as [rest' Hrest'].
  exists rest, rest'. split; [done|]. split; [done|]. split; [done|].
  rewrite Hup', Hup. split; [apply lookup_insert_eq|].
  destruct (decide (Time_UnixNano now' = Time_UnixNano now)) as [Heq|Hne].
  - rewrite (proj2 Hinj Heq). apply lookup_insert_eq.
  - rewrite lookup_insert_ne by (intros Hid; by apply Hne, Hinj).
    apply lookup_insert_eq.
Qed.

(** *** When a handler panics *)

Lemma Returns_call {R} (c : Call R) : Returns (call world c).
Proof. intros s e. rewrite call_run. by eexists. Qed.

Lemma Returns_getServer : Returns (@getServer E).
Proof. intros s e. by eexists. Qed.

Lemma Returns_modify f : Returns (@modify E f).
Proof. intros s e. by eexists. Qed.

Lemma Returns_emit ev : Returns (@emit E ev).
Proof. intros s e. by eexists. Qed.

Lemma Returns_bind {A B} (m : M A) (k : A -> M B) :
  Returns m -> (forall a, Returns (k a)) -> Returns (bind m k).
Proof.
  intros Hm Hk s e. rewrite bind_run. destruct (Hm s e) as [a ->].
  destruct (Hk a (srv (m s e)) (env (m s e))) as [b Hb]. cbn [out]. eauto.
Qed.

Ltac returns :=
  repeat first
    [ apply Returns_call | apply Returns_getServer | apply Returns_modify
    | apply Returns_emit
    | match goal with
      | |- Returns (match ?x with _ => _ end) => destruct x
      end
    | apply Returns_bind; [|intros ?] ].

Lemma PanicsOnly_returns nil (m : M unit) : Returns m -> PanicsOnly nil m.
Proof. intros Hm s e msg Hpanic. destruct (Hm s e) as [a Ha]. congruence. Qed.

Lemma PanicsOnly_nil : PanicsOnly true (@panic E unit "nil pointer dereference").
Proof. intros s e msg [= <-]. by left. Qed.

Lemma PanicsOnly_bind {A} nil (m : M A) (k : A -> M unit) :
  Returns m -> (forall a, PanicsOnly nil (k a)) -> PanicsOnly nil (bind m k).
Proof.
  intros Hm Hk s e msg. rewrite bind_run. destruct (Hm s e) as [a ->]. cbn [out srv].
  apply Hk.
Qed.

Lemma send_panics {R} (rpc : Conn -> Call (result R)) fuel connections groupId s e msg :
  dataClients s !! groupId = Some connections ->
  out (send world rpc fuel connections s e) = Panic msg ->
  msg = "index out of range" /\
  dataClients (srv (send world rpc fuel connections s e)) !! groupId = Some [].
Proof.
  intros Hin Hpanic. pose proof (send_cases rpc fuel connections s e) as Hsent.
  cbn zeta in Hsent. rewrite Hpanic in Hsent. rewrite send_srv.
  inversion Hsent; subst. done.
Qed.

(** After [validateConnection], a handler panics only in the wrapper, and
    only when the group is cached without connection. *)
Lemma PanicsOnly_storage {R} nil group (rpc : Conn -> Call (result R)) fuel
    (K : R -> M unit) :
  (forall x, Returns (K x)) ->
  PanicsOnly nil
    (v <- validateConnection world rangeOrder group ;;
     match v with
     | Ok connections =>
         c <- send world rpc fuel connections ;;
         match c with
         | Ok x => K x
         | Err err => writeError err
         end
     | Err err => writeError err
     end).
Proof.
  intros HK s e msg. msimpl.
  destruct (validateConnection_quiet group s e) as (_ & _ & Hv). cbn zeta in Hv.
  set (v := validateConnection world rangeOrder group s e) in *.
  destruct Hv as [(connections & Hout & Hin)|(err & Hout & _)]; rewrite Hout; msimpl;
    [|done].
  pose proof (send_panics rpc fuel connections (GroupId group) (srv v) (env v)) as Hsend.
  set (sent := send world rpc fuel connections (srv v) (env v)) in *.
  destruct (out sent) as [[x|err]|msg'|] eqn:Ho; msimpl; [|done| |done].
  - destruct (HK x (srv sent) (env sent)) as [u Hu]. by rewrite Hu.
  - intros [= ->]. destruct (Hsend msg Hin eq_refl) as [-> Hempty].
    right. split; [done|]. by exists (GroupId group).
Qed.

Ltac panics_only :=
  repeat first
    [ apply PanicsOnly_nil
    | apply PanicsOnly_storage; intros ?; returns
    | match goal with
      | |- PanicsOnly _ (match ?x with _ => _ end) => destruct x
      end
    | apply PanicsOnly_bind;
        [first [apply Returns_call|apply Returns_getServer|apply Returns_modify
               |apply Returns_emit]
        |intros ?]
    | apply PanicsOnly_returns; returns ].

(** A handler panics only when metadata names no group ([createUploadID],
    [getObject]) or when the group it goes to is cached without connection,
    which makes the wrapper panic at [connections[0]].  The ten handlers that
    do not go to storage never panic. *)
Theorem handle_panics_only h fuel r s e msg :
  let run := handle world rangeOrder formatRFC3339 GetMetaResponse_String h fuel r s e in
  out run = Panic msg ->
  reachesStorage h = true /\
  ((msg = "nil pointer dereference" /\ (h = HCreateUploadID \/ h = HGetObject)) \/
   (msg = "index out of range" /\
    exists groupId, dataClients (srv run) !! groupId = Some [])).
Proof.
  cbn zeta. intros Hpanic.
  assert (Hnil : PanicsOnly (groupFromMetadata h)
            (handle world rangeOrder formatRFC3339 GetMetaResponse_String h fuel r)).
  { destruct h; handlers; unfold writeError, writeResponse, sendCreate, sendConfirm,
      sendPut, sendGet; destruct (checkParameter r _) as [p [perr|]];
      try (apply PanicsOnly_returns; returns; fail); cbn [groupFromMetadata];
      panics_only. }
  assert (Hstorage : reachesStorage h = true).
  { destruct (reachesStorage h) eqn:Hh; [done|]. exfalso.
    destruct h; try discriminate Hh; revert Hpanic; handlers;
      destruct (checkParameter r _) as [p [perr|]]; msimpl;
      repeat match goal with
      | |- context [strconv.Atoi ?x] => destruct (strconv.Atoi x) as [? [?|]]; msimpl
      end;
      repeat answer; done. }
  split; [done|].
  destruct (Hnil s e msg Hpanic) as [[-> Hb]|Hrange]; [left|by right].
  split; [done|]. destruct h; try discriminate Hb; auto.
Qed.

(** *** Opening the connections of a group *)

(** For a group that is not cached, [validateConnection] answers one
    connection for each address of the group, dialled in the order of the
    addresses (so that index 0 of the failover is the first address).  While
    the cache is below its capacity it then does nothing but insert them
    under the group id: no connection is closed and no group leaves the
    cache. *)
Theorem validateConnection_opens_group group s e connections :
  let run := validateConnection world rangeOrder group s e in
  dataClients s !! GroupId group = None ->
  out run = Done (Ok connections) ->
  List.length connections = List.length (Addresses group) /\
  exists rest,
    trace run =
      zip_with (fun a c => EvCall (Dial a) (Ok c)) (Addresses group) connections ++ rest /\
    omap dialTarget rest = [] /\
    (size (dataClients s) < maxStorageConnection ->
     rest = [EvCacheInsert (GroupId group) connections] /\
     srv run = setDataClients (<[GroupId group := connections]>) s).
Proof.
  cbn zeta. intros Hmiss. unfold validateConnection. msimpl. rewrite Hmiss. msimpl.
  destruct (dialAll_spec (Addresses group) [] s e) as (Hs & _ & _).
  destruct (dialAll_trace (Addresses group) [] s e)
    as [(dialled & Hout & Hlen & Htr)|(opened & address & err' & Hout & Haddr & Htr)];
    cbn zeta in *; rewrite Hout; msimpl; [|done].
  cbn [app]. rewrite Hs, Htr.
  destruct (cacheStore_Forall (fun ev => dialTarget ev = None) (GroupId group) dialled s
              (env (dialAll world (Addresses group) [] s e))) as (Hout' & Hnodial); try done.
  cbn zeta in *. rewrite Hout'. msimpl. intros [= <-]. split; [done|].
  exists (trace (cacheStore world rangeOrder (GroupId group) dialled s
                   (env (dialAll world (Addresses group) [] s e)))).
  split; [by rewrite app_nil_r|]. split; [by apply omap_none|].
  intros Hroom. unfold cacheStore. msimpl.
  destruct (decide (maxStorageConnection <= size (dataClients s))); [lia|]. by msimpl.
Qed.

(** *** What the upload registry holds *)

(** [createUploadID] leaves the registry as it is, or adds to it the id it
    has minted from the clock, for the group that [CheckMeta] answered. *)
Lemma createUploadID_registry fuel r s e :
  let run := createUploadID world rangeOrder fuel r s e in
  UploadTask (srv run) = UploadTask s \/
  exists response now group rest,
    cm_Group response = Some group /\
    trace run = createPrefix r response now group ++ rest /\
    UploadTask (srv run) = <[mintedId now := registered group]> (UploadTask s).
Proof.
  cbn zeta. unfold createUploadID.
  destruct (checkParameter r _) as [p [err|]] eqn:Hp; msimpl; [by left|]. params Hp.
  destruct (world _ (AuthCheck _ _ _) e) as [e1 [[]|err]]; msimpl; [|by left].
  destruct (world _ (MetaCheckMeta _ _ _ _) e1) as [e2 [response|err]]; msimpl; [|by left].
  destruct (Existed response); msimpl; [by left|].
  destruct (bool_decide _ && bool_decide _); msimpl; [by left|].
  destruct (world _ TimeNow e2) as [e3 now]; msimpl.
  destruct (cm_Group response) as [group|] eqn:Hgroup; msimpl; [|by left].
  right. exists response, now, group.
  set (s1 := setUploadTask _ s).
  destruct (validateConnection_quiet group s1 e3) as (Hup & _ & Hv). cbn zeta in *.
  set (v := validateConnection world rangeOrder group s1 e3) in *.
  destruct Hv as [(connections & Hout & _)|(err & Hout & _)]; rewrite Hout; msimpl.
  2:{ eexists. split; [done|]. split; [reflexivity|]. by rewrite Hup. }
  unfold sendCreate.
  pose proof (send_srv (fun c => StorageCreate c (formValue r "tag")
                                   (strconv.FormatInt (Time_UnixNano now)))
                fuel connections (srv v) (env v)) as Hsrv.
  set (sent := send world _ fuel connections _ _) in *.
  destruct (out sent) as [[[]|err]| |]; msimpl; rewrite Hsrv;
    (eexists; split; [done|]; split; [reflexivity|]; cbn; by rewrite Hup).
Qed.

(** Whatever ids the clients propose, the upload registry of a proxy only
    ever holds what the proxy has registered itself in [createUploadID]:
    for every entry of the registry of a state reached by handlers and turns
    of the sweep, the events that led to the state hold an answer of
    [CheckMeta], then a reading of the clock, then the registration of the
    entry, one right after the other; the id of the entry is the decimal
    numeral of the nanoseconds of that reading, and its group has the id and
    the addresses of the group of that answer. *)
Theorem registry_holds_minted_ids tr s id group :
  History world rangeOrder formatRFC3339 GetMetaResponse_String tr s ->
  UploadTask s !! id = Some group ->
  exists i response now placed,
    tr !! i ≫= checkMetaReply = Some (Ok response) /\
    cm_Group response = Some placed /\
    tr !! S i = Some (EvCall TimeNow now) /\
    tr !! S (S i) = Some (EvRegister id group) /\
    id = strconv.FormatInt (Time_UnixNano now) /\
    group = {| GroupId := GroupId placed; Addresses := Addresses placed |}.
Proof.
  intros Hhist. revert id group.
  assert (Hkeep : forall (tr tr' : list Event) id group,
            (exists i response now placed,
               tr !! i ≫= checkMetaReply = Some (Ok response) /\
               cm_Group response = Some placed /\
               tr !! S i = Some (EvCall TimeNow now) /\
               tr !! S (S i) = Some (EvRegister id group) /\
               id = strconv.FormatInt (Time_UnixNano now) /\
               group = {| GroupId := GroupId placed; Addresses := Addresses placed |}) ->
            exists i response now placed,
               (tr ++ tr') !! i ≫= checkMetaReply = Some (Ok response) /\
               cm_Group response = Some placed /\
               (tr ++ tr') !! S i = Some (EvCall TimeNow now) /\
               (tr ++ tr') !! S (S i) = Some (EvRegister id group) /\
               id = strconv.FormatInt (Time_UnixNano now) /\
               group = {| GroupId := GroupId placed; Addresses := Addresses placed |}).
  { intros tr0 tr' id group (i & response & now & placed & H1 & H2 & H3 & H4 & H5 & H6).
    exists i, response, now, placed.
    destruct (tr0 !! i) as [ev|] eqn:Hi; [|discriminate H1].
    rewrite (lookup_app_l_Some _ _ _ _ Hi), (lookup_app_l_Some _ _ _ _ H3),
      (lookup_app_l_Some _ _ _ _ H4). done. }
  induction Hhist as [address clientId|tr s h fuel r e _ IH|tr s fuel e _ IH];
    intros id group Hid.
  - cbn in Hid. by rewrite lookup_empty in Hid.
  - assert (Hh : h = HCreateUploadID \/ h <> HCreateUploadID)
      by (destruct h; (by left) || (by right)).
    destruct Hh as [->|Hother].
    2:{ apply Hkeep, IH. by rewrite <- (proj1 (handle_registrySame h fuel r Hother s e)). }
    cbn [handle] in Hid |- *.
    destruct (createUploadID_registry fuel r s e)
      as [Hsame|(response & now & placed & rest & Hgroup & Htr & Hminted)]; cbn zeta in *.
    + apply Hkeep, IH. by rewrite <- Hsame.
    + rewrite Hminted in Hid. destruct (decide (id = mintedId now)) as [->|Hne].
      * rewrite lookup_insert_eq in Hid. injection Hid as <-.
        assert (Hat : forall k,
                  (tr ++ createPrefix r response now placed ++ rest) !! (List.length tr + k)
                  = (createPrefix r response now placed ++ rest) !! k).
        { intros k. rewrite lookup_app_r by lia. f_equal. lia. }
        exists (List.length tr + 1), response, now, placed. rewrite Htr.
        replace (S (List.length tr + 1)) with (List.length tr + 2) by lia.
        replace (S (List.length tr + 2)) with (List.length tr + 3) by lia.
        rewrite !Hat. done.
      * rewrite lookup_insert_ne in Hid by done. by apply Hkeep, IH.
  - apply Hkeep, IH. destruct (sweepTick_frame fuel s e) as (_ & Hup & _). cbn zeta in Hup.
    destruct (Hup id) as [Heq|[Hnone _]]; [by rewrite <- Heq|].
    by rewrite Hnone in Hid.
Qed.

(** *** Where a confirmed object is recorded *)

(** A [metadata.PutMeta] of [confirmUploadID] records the object under the
    bucket, key, tag and name of the confirming request itself (the
    registry keeps nothing of the request that created the upload), on the
    group that the upload id is registered with. *)
Theorem confirmUploadID_records_request fuel r s e i bucket key tag name groupId :
  let run := confirmUploadID world rangeOrder fuel r s e in
  trace run !! i ≫= putMetaRecord = Some (bucket, key, tag, name, groupId) ->
  bucket = formValue r "bucket" /\
  key = formValue r "key" /\
  tag = formValue r "tag" /\
  name = formValue r "name" /\
  exists group,
    UploadTask s !! formValue r "id" = Some group /\
    groupId = GroupId group /\
    S i = List.length (trace run) - 1.
Proof.
  cbn zeta.
  destruct (confirmUploadID_cases fuel r s e) as (pre & Hpre & Hcases). cbn zeta in Hcases.
  assert (Hnone : forall l, Forall (fun ev => putMetaRecord ev = None) l ->
                            forall j, l !! j ≫= putMetaRecord = None).
  { intros l Hl j. destruct (l !! j) as [ev|] eqn:Hev; [|done].
    exact (proj1 (Forall_lookup _ _) Hl _ _ Hev). }
  assert (Hpre' : Forall (fun ev => putMetaRecord ev = None) pre).
  { eapply Forall_impl; [exact Hpre|]. intros ev Hev.
    destruct ev as [R c a| | | | | | | |]; try done. by destruct c. }
  assert (Hsent : forall connections o str,
            Sent (fun c => StorageConfirm c (formValue r "id")) connections fuel o str ->
            Forall (fun ev => putMetaRecord ev = None) str).
  { intros connections o str H. eapply Sent_Forall; [| |exact H]; done. }
  destruct Hcases as [(err & _ & ->)|(connections & o & str & Hstr & Hcases)].
  { intros Hi. rewrite Hnone in Hi; [done|].
    apply Forall_app. split; [done|by repeat constructor]. }
  apply Hsent in Hstr.
  destruct Hcases as [(cr & group & m & -> & _ & Hid & ->)|(_ & _ & ->)].
  2:{ intros Hi. rewrite Hnone in Hi; [done|].
      repeat (apply Forall_app; split); try done. by destruct o as [[|]| |]; repeat constructor. }
  intros Hi. rewrite !app_assoc in Hi.
  destruct (decide (i < List.length (pre ++ str))) as [Hlt|Hge].
  { rewrite lookup_app_l in Hi by done. rewrite Hnone in Hi; [done|by apply Forall_app]. }
  rewrite lookup_app_r in Hi by lia.
  destruct (i - List.length (pre ++ str)) as [|[|n]] eqn:Hn; cbn in Hi; [|by destruct m|done].
  injection Hi as <- <- <- <- <-. repeat (split; [done|]).
  exists group. split; [done|]. split; [done|].
  rewrite !length_app in *. cbn. lia.
Qed.

(** *** An upload in a healthy environment *)

(** A wrapper whose first replica answers returns that answer after one
    attempt. *)
Lemma send_first_answer {R} (rpc : Conn -> Call (result R)) fuel c rest s e :
  (forall e', exists x, (world _ (rpc c) e').2 = Ok x) ->
  exists now x,
    send world rpc (S fuel) (c :: rest) s e =
      MkRun (Done (Ok x)) (incrCommandId s)
        (world _ (rpc c) (world _ TimeNow e).1).1
        [EvCall TimeNow now; EvCall (rpc c) (Ok x)].
Proof.
  intros Hrpc. unfold send. msimpl.
  destruct (world _ TimeNow e) as [e1 now] eqn:Hnow; msimpl. cbn [sendLoop lookup list_lookup].
  msimpl. destruct (Hrpc e1) as [x Hx].
  destruct (world _ (rpc c) e1) as [e2 a] eqn:Ha; msimpl. cbn [fst snd] in *. subst a.
  exists now, x. reflexivity.
Qed.

Lemma dialAll_healthy addresses : forall connections s e,
  (forall address e', address ∈ addresses -> exists c, (world _ (Dial address) e').2 = Ok c) ->
  exists dialled,
    out (dialAll world addresses connections s e) = Done (Ok (connections ++ dialled)) /\
    List.length dialled = List.length addresses.
Proof.
  induction addresses as [|address rest IH]; intros connections s e Hdial.
  - exists []. by rewrite app_nil_r.
  - cbn [dialAll]. msimpl. destruct (Hdial address e ltac:(by left)) as [c Hc].
    destruct (world _ (Dial address) e) as [e1 a]; msimpl. cbn [snd] in Hc. subst a.
    destruct (IH (connections ++ [c]) s e1) as (dialled & Hout & Hlen).
    { intros address' e' Hin. apply Hdial. by right. }
    exists (c :: dialled). rewrite Hout, <- app_assoc. cbn. by rewrite Hlen.
Qed.

(** In a healthy environment [validateConnection] answers connections, at
    least one, that are then cached for the group. *)
Lemma validateConnection_healthy response group g s e :
  Healthy world response group ->
  GroupId g = GroupId group ->
  Addresses g = Addresses group ->
  (forall connections, dataClients s !! GroupId group = Some connections ->
                       connections <> []) ->
  let run := validateConnection world rangeOrder g s e in
  exists c rest,
    out run = Done (Ok (c :: rest)) /\
    UploadTask (srv run) = UploadTask s /\
    dataClients (srv run) !! GroupId group = Some (c :: rest) /\
    Forall (fun ev => isQuiet ev = true) (trace run).
Proof.
  intros Hh Hid Haddr Hcached. cbn zeta.
  destruct (validateConnection_quiet g s e) as (Hup & Hq & Hv). cbn zeta in *.
  assert (Hout : exists c rest,
            out (validateConnection world rangeOrder g s e) = Done (Ok (c :: rest))).
  { unfold validateConnection. msimpl. rewrite Hid.
    destruct (dataClients s !! GroupId group) as [connections|] eqn:Hhit; msimpl.
    - destruct connections as [|c rest]; [by destruct (Hcached [] eq_refl)|]. by exists c, rest.
    - destruct (dialAll_healthy (Addresses g) [] s e) as (dialled & Hout & Hlen).
      { intros address e' Hin. apply (healthy_dial _ _ _ Hh). by rewrite <- Haddr. }
      rewrite Hout. msimpl.
      destruct (cacheStore_quiet (GroupId group) ([] ++ dialled)
                  (srv (dialAll world (Addresses g) [] s e))
                  (env (dialAll world (Addresses g) [] s e))) as (Hout' & _).
      cbn zeta in *. rewrite Hout'. msimpl.
      destruct dialled as [|c rest]; [|by exists c, rest].
      pose proof (healthy_addresses _ _ _ Hh) as Hne. rewrite <- Haddr in Hne.
      destruct (Addresses g); [done|discriminate Hlen]. }
  destruct Hout as (c & rest & Hout). exists c, rest.
  split; [done|]. split; [done|]. split; [|done].
  destruct Hv as [(connections & Hout' & Hin)|(err & Hout' & _)]; [|congruence].
  rewrite Hid in Hin. congruence.
Qed.

Lemma createUploadID_healthy response group fuel r s e :
  Healthy world response group ->
  0 < fuel ->
  complete HCreateUploadID r ->
  ~ (formValue r "id" <> "0" /\ is_Some (UploadTask s !! formValue r "id")) ->
  (forall connections, dataClients s !! GroupId group = Some connections ->
                       connections <> []) ->
  let run := createUploadID world rangeOrder fuel r s e in
  exists id,
    out run = Done tt /\
    responses (trace run) = [EvWriteResponse id] /\
    Ready (srv run) id group.
Proof.
  intros Hh Hfuel Hall Hfresh Hcached. cbn zeta.
  destruct fuel as [|fuel]; [lia|].
  destruct (checkParameter_present r _ Hall) as [p Hp]. cbn [required] in Hp.
  unfold createUploadID. rewrite Hp. params Hp. msimpl.
  rewrite (healthy_auth _ _ _ Hh). msimpl.
  rewrite (healthy_checkMeta _ _ _ Hh). msimpl.
  rewrite (healthy_new _ _ _ Hh). msimpl.
  destruct (bool_decide (formValue r "id" ≠ "0")
            && bool_decide (is_Some (UploadTask s !! formValue r "id"))) eqn:Hresume.
  { exfalso. apply Hfresh. apply andb_true_iff in Hresume as [H1 H2].
    by apply bool_decide_eq_true in H1, H2. }
  msimpl. rewrite (healthy_group _ _ _ Hh). msimpl.
  set (e2 := (world _ (MetaCheckMeta _ _ _ _) _).1).
  destruct (world _ TimeNow e2) as [e3 now]; msimpl.
  set (s1 := setUploadTask _ s).
  destruct (validateConnection_healthy response group group s1 e3 Hh eq_refl eq_refl Hcached)
    as (c & rest & Hout & Hup & Hin & Hq).
  cbn zeta in *. rewrite Hout. msimpl. unfold sendCreate.
  destruct (send_first_answer (fun c => StorageCreate c (formValue r "tag")
                                 (strconv.FormatInt (Time_UnixNano now))) fuel c rest
              (srv (validateConnection world rangeOrder group s1 e3))
              (env (validateConnection world rangeOrder group s1 e3)))
    as (now' & [] & Hsend).
  { intros e'. exists tt. apply (healthy_create _ _ _ Hh). }
  rewrite Hsend. msimpl.
  exists (strconv.FormatInt (Time_UnixNano now)). split; [done|]. split.
  - cbn [app]. unfold responses. cbn [List.filter isWrite isAuthRPC]. 
    change (List.filter isWrite ?l) with (responses l).
    rewrite responses_app, (responses_none _ (quiet_not_write _ Hq)). done.
  - split.
    + cbn. rewrite Hup. apply lookup_insert_eq.
    + intros connections. cbn. rewrite Hin. by intros [= <-].
Qed.

Lemma putObject_healthy response group fuel r s e id offset payload :
  Healthy world response group ->
  0 < fuel ->
  Ready s id group ->
  complete HPutObject r ->
  formValue r "id" = id ->
  strconv.ParseInt (formValue r "offset") = (offset, None) ->
  body r = Ok payload ->
  let run := putObject world rangeOrder fuel r s e in
  out run = Done tt /\
  responses (trace run) = [EvWriteResponse ""] /\
  (exists c, omap putSent (trace run) = [(c, payload, id, offset)]) /\
  Ready (srv run) id group.
Proof.
  intros Hh Hfuel [Hreg Hcached] Hall Hid Hoffset Hbody. cbn zeta.
  destruct fuel as [|fuel]; [lia|].
  destruct (checkParameter_present r _ Hall) as [p Hp]. cbn [required] in Hp.
  unfold putObject. rewrite Hp. params Hp. msimpl.
  rewrite (healthy_auth _ _ _ Hh). msimpl. rewrite Hoffset, Hbody, Hid. msimpl.
  rewrite Hreg. msimpl.
  set (e1 := (world _ (AuthCheck _ _ _) _).1).
  destruct (validateConnection_healthy response group
              {| GroupId := GroupId group; Addresses := Addresses group |} s e1
              Hh eq_refl eq_refl Hcached) as (c & rest & Hout & Hup & Hin & Hq).
  cbn zeta in *. set (v := validateConnection world rangeOrder _ s e1) in *.
  rewrite Hout. msimpl. unfold sendPut.
  destruct (send_first_answer (fun c => StoragePut c payload id offset) fuel c rest
              (srv v) (env v)) as (now' & [] & Hsend).
  { intros e'. exists tt. apply (healthy_put _ _ _ Hh). }
  rewrite Hsend. msimpl.
  destruct (quiet_no_reply _ Hq) as (_ & _ & Hnoput).
  split; [done|]. split; [|split].
  - cbn [app]. unfold responses. cbn [List.filter isWrite isAuthRPC].
    change (List.filter isWrite ?l) with (responses l).
    rewrite responses_app, (responses_none _ (quiet_not_write _ Hq)). done.
  - exists c. cbn. rewrite omap_app, Hnoput. done.
  - split.
    + cbn. by rewrite Hup.
    + intros connections. cbn. rewrite Hin. by intros [= <-].
Qed.

Lemma confirmUploadID_healthy response group fuel r s e id :
  Healthy world response group ->
  0 < fuel ->
  Ready s id group ->
  complete HConfirmUploadID r ->
  formValue r "id" = id ->
  let run := confirmUploadID world rangeOrder fuel r s e in
  out run = Done tt /\
  responses (trace run) = [EvWriteResponse ""] /\
  exists triple,
    omap confirmedTriple (trace run) = [triple] /\
    omap putMetaTriple (trace run) = [triple].
Proof.
  intros Hh Hfuel [Hreg Hcached] Hall Hid. cbn zeta.
  destruct fuel as [|fuel]; [lia|].
  destruct (checkParameter_present r _ Hall) as [p Hp]. cbn [required] in Hp.
  unfold confirmUploadID. rewrite Hp. params Hp. msimpl.
  rewrite (healthy_auth _ _ _ Hh). msimpl. rewrite Hid, Hreg. msimpl.
  set (e1 := (world _ (AuthCheck _ _ _) _).1).
  destruct (validateConnection_healthy response group
              {| GroupId := GroupId group; Addresses := Addresses group |} s e1
              Hh eq_refl eq_refl Hcached) as (c & rest & Hout & Hup & Hin & Hq).
  cbn zeta in *. set (v := validateConnection world rangeOrder _ s e1) in *.
  rewrite Hout. msimpl. unfold sendConfirm.
  destruct (send_first_answer (fun c => StorageConfirm c id) fuel c rest (srv v) (env v))
    as (now' & cr & Hsend).
  { intros e'. apply (healthy_confirm _ _ _ Hh). }
  rewrite Hsend. msimpl. rewrite (healthy_putMeta _ _ _ Hh). msimpl.
  pose proof (quiet_prelude _ Hq) as Hprelude.
  assert (Hnone : omap confirmedTriple (trace v) = [] /\ omap putMetaTriple (trace v) = []).
  { split; apply omap_none; (eapply Forall_impl; [exact Hprelude|]); intros ev Hev;
      by destruct (prelude_extract ev Hev) as (? & ? & _). }
  destruct Hnone as [Hnc Hnp].
  split; [done|]. split.
  - cbn [app]. unfold responses. cbn [List.filter isWrite isAuthRPC].
    change (List.filter isWrite ?l) with (responses l).
    rewrite responses_app, (responses_none _ (quiet_not_write _ Hq)). done.
  - exists (VolumeId cr, Offset cr, Size cr). cbn. rewrite !omap_app, Hnc, Hnp. done.
Qed.

(** In a healthy environment an upload goes through: [createUploadID]
    answers a fresh id; a [putObject] for that id whose offset parses and
    whose body can be read is accepted, and exactly one [storage.Put] carries
    the body, the id and the offset; a [confirmUploadID] for the id is
    accepted, and metadata is told once, with the place that the one
    successful [storage.Confirm] answered. *)
Theorem upload_completes response group fuel r s e :
  Healthy world response group ->
  0 < fuel ->
  complete HCreateUploadID r ->
  ~ (formValue r "id" <> "0" /\ is_Some (UploadTask s !! formValue r "id")) ->
  (forall connections, dataClients s !! GroupId group = Some connections ->
                       connections <> []) ->
  let create := createUploadID world rangeOrder fuel r s e in
  exists id,
    out create = Done tt /\
    responses (trace create) = [EvWriteResponse id] /\
    forall rp ep offset payload,
      complete HPutObject rp ->
      formValue rp "id" = id ->
      strconv.ParseInt (formValue rp "offset") = (offset, None) ->
      body rp = Ok payload ->
      let put := putObject world rangeOrder fuel rp (srv create) ep in
      out put = Done tt /\
      responses (trace put) = [EvWriteResponse ""] /\
      (exists c, omap putSent (trace put) = [(c, payload, id, offset)]) /\
      forall rc ec,
        complete HConfirmUploadID rc ->
        formValue rc "id" = id ->
        let confirm := confirmUploadID world rangeOrder fuel rc (srv put) ec in
        out confirm = Done tt /\
        responses (trace confirm) = [EvWriteResponse ""] /\
        exists triple,
          omap confirmedTriple (trace confirm) = [triple] /\
          omap putMetaTriple (trace confirm) = [triple].
Proof.
  intros Hh Hfuel Hall Hfresh Hcached. cbn zeta.
  destruct (createUploadID_healthy response group fuel r s e Hh Hfuel Hall Hfresh Hcached)
    as (id & Hout & Hresp & Hready).
  exists id. split; [done|]. split; [done|].
  intros rp ep offset payload Hallp Hidp Hoffset Hbody.
  destruct (putObject_healthy response group fuel rp _ ep id offset payload
              Hh Hfuel Hready Hallp Hidp Hoffset Hbody)
    as (Hout' & Hresp' & Hput & Hready').
  split; [done|]. split; [done|]. split; [done|].
  intros rc ec Hallc Hidc.
  exact (confirmUploadID_healthy response group fuel rc _ ec id Hh Hfuel Hready' Hallc Hidc).
Qed.

End Properties.

(** ** The claims on the scripted environment *)

Lemma scripted_clock sc :
  (0 <= sc_tick sc)%Z -> AdvancingClock (scripted sc) (fun clock => clock) (sc_tick sc).
Proof.
  intros Htick. split.
  - intros R c e. destruct c; cbn; unfold checkExpiredBlobsTimeout, second; lia.
  - intros e. cbn. split; [lia|done].
Qed.

Lemma scriptedOrder_perm (e : Z) (m : gmap string (list Conn)) :
  scriptedOrder e m ≡ₚ map_to_list m.
Proof. reflexivity. Qed.

(** Replica 1 is down: [sendCreate] fails over to replica 2. *)
Lemma storage_wrappers_failover_witness :
  AdvancingClock (scripted firstDown) (fun clock => clock) second /\
  [1; 2] <> [] /\
  (executeTimeout < Z.of_nat 3 * second)%Z /\
  Failover 3 (fun c => StorageCreate c "sha-AAA" "I") [1; 2]
    (sendCreate (scripted firstDown) 3 [1; 2] "sha-AAA" "I" emptyServer 0%Z) /\
  trace (sendCreate (scripted firstDown) 3 [1; 2] "sha-AAA" "I" emptyServer 0%Z) =
    [EvCall TimeNow {| wall := 1000000000; mono := 1000000000 |};
     EvCall (StorageCreate 1 "sha-AAA" "I") (Err (StatusError Unavailable "replica down"));
     EvCall TimeNow {| wall := 2000000000; mono := 2000000000 |};
     EvCall (StorageCreate 2 "sha-AAA" "I") (Ok tt)].
Proof.
  assert (Hclock : AdvancingClock (scripted firstDown) (fun clock => clock) second)
    by (apply (scripted_clock firstDown); vm_compute; discriminate).
  assert (Hne : [1; 2] <> ([] : list Conn)) by discriminate.
  assert (Hfuel : (executeTimeout < Z.of_nat 3 * second)%Z) by (vm_compute; reflexivity).
  split; [exact Hclock|]. split; [exact Hne|]. split; [exact Hfuel|].
  split; [|vm_compute; reflexivity].
  exact (proj1 (proj2 (storage_wrappers_failover (scripted firstDown) (fun clock => clock)
                         second 3 [1; 2] emptyServer 0%Z 0%Z 0%Z 0%Z "sha-AAA" "I" ""
                         Hclock Hne Hfuel))).
Defined.

Lemma createUploadID_deduplicated_witness :
  let run := createUploadID (scripted deduplicated) scriptedOrder 3 (createRequest "0")
               emptyServer 0%Z in
  omap checkMetaReply (trace run) = [Ok {| Existed := true; cm_Group := None |}] /\
  out run = Done tt /\
  responses (trace run) = [EvWriteResponse "0"] /\
  srv run = emptyServer /\
  Forall (fun ev => isStorageRPC ev = false /\ isRegister ev = false) (trace run).
Proof.
  cbn zeta.
  assert (Hreply : omap checkMetaReply
                     (trace (createUploadID (scripted deduplicated) scriptedOrder 3
                               (createRequest "0") emptyServer 0%Z))
                   = [Ok {| Existed := true; cm_Group := None |}])
    by (vm_compute; reflexivity).
  split; [exact Hreply|].
  pose proof (createUploadID_deduplicated (scripted deduplicated) scriptedOrder 3
                (createRequest "0") emptyServer 0%Z _ Hreply eq_refl) as H.
  cbn zeta in H. tauto.
Defined.

Lemma createUploadID_resume_witness :
  let run := createUploadID (scripted allUp) scriptedOrder 3 (createRequest "123")
               uploading 0%Z in
  formValue (createRequest "123") "id" = "123" /\
  is_Some (UploadTask uploading !! "123") /\
  out run = Done tt /\
  srv run = uploading /\
  responses (trace run) = [EvWriteResponse "123"].
Proof.
  cbn zeta.
  assert (Hreply : omap checkMetaReply
                     (trace (createUploadID (scripted allUp) scriptedOrder 3
                               (createRequest "123") uploading 0%Z))
                   = [Ok {| Existed := false; cm_Group := Some groupA |}])
    by (vm_compute; reflexivity).
  assert (Hid : formValue (createRequest "123") "id" <> "0")
    by (vm_compute; discriminate).
  assert (Hreg : is_Some (UploadTask uploading !! formValue (createRequest "123") "id"))
    by (vm_compute; eexists; reflexivity).
  split; [vm_compute; reflexivity|]. split; [exact Hreg|].
  destruct (createUploadID_resume (scripted allUp) scriptedOrder 3 (createRequest "123")
              uploading 0%Z _ Hreply eq_refl Hid Hreg) as (Hout & Hsrv & Htr & _).
  split; [exact Hout|]. split; [exact Hsrv|]. rewrite Htr. vm_compute. reflexivity.
Defined.





(** [deleteBucket] without its bucket parameter: the error is written and
    the handler goes on to a second answer. *)
Lemma deleteBucket_goes_on_after_error_witness :
  let r := request [("token", "T")] (Ok "") in
  let run := scriptedHandle allUp HDeleteBucket 3 r emptyServer in
  (checkParameter r (required HDeleteBucket)).2
    = Some (StatusError InvalidArgument "missing parameter bucket") /\
  out run = Done tt /\
  List.length (responses (trace run)) = 2.
Proof.
  cbn zeta.
  assert (Hp : checkParameter (request [("token", "T")] (Ok "")) (required HDeleteBucket)
               = (∅, Some (StatusError InvalidArgument "missing parameter bucket")))
    by (vm_compute; reflexivity).
  split; [by rewrite Hp|].
  destruct (deleteBucket_goes_on_after_error (scripted allUp)
              (request [("token", "T")] (Ok "")) emptyServer 0%Z _ _ Hp)
    as (Hout & a & m & c & _ & Hlen).
  split; [exact Hout|exact Hlen].
Defined.





(** Storage reports the upload "123": the turn of the sweep probes the group
    and removes "123" from the registry. *)
Lemma sweepTick_unregisters_reported_witness :
  let run := sweepTick (scripted expired123) scriptedOrder 3 connected 0%Z in
  (forall e m, scriptedOrder e m ≡ₚ map_to_list m) /\
  AdvancingClock (scripted expired123) (fun clock => clock) second /\
  (executeTimeout < Z.of_nat 3 * second)%Z /\
  UploadTask connected !! "123" = Some groupA /\
  flat_map reportedIds (trace run) = ["123"] /\
  out run = Done tt /\
  dataClients (srv run) = dataClients connected /\
  UploadTask (srv run) !! "123" = None.
Proof.
  cbn zeta.
  assert (Hclock : AdvancingClock (scripted expired123) (fun clock => clock) second)
    by (apply (scripted_clock expired123); vm_compute; discriminate).
  assert (Hfuel : (executeTimeout < Z.of_nat 3 * second)%Z) by (vm_compute; reflexivity).
  assert (Hne : forall groupId connections,
            dataClients connected !! groupId = Some connections -> connections <> []).
  { intros groupId connections Hin. unfold connected, setDataClients in Hin. cbn in Hin.
    apply lookup_insert_Some in Hin as [[_ <-]|[_ Hin]]; [discriminate|].
    by rewrite lookup_empty in Hin. }
  assert (Hreported : flat_map reportedIds
                        (trace (sweepTick (scripted expired123) scriptedOrder 3 connected 0%Z))
                      = ["123"]) by (vm_compute; reflexivity).
  split; [exact scriptedOrder_perm|]. split; [exact Hclock|]. split; [exact Hfuel|].
  split; [vm_compute; reflexivity|]. split; [exact Hreported|].
  destruct (sweepTick_unregisters_reported (scripted expired123) scriptedOrder noTimeZone
              noText scriptedOrder_perm (fun clock => clock) second 3 connected 0%Z
              Hclock Hfuel Hne) as (Hout & Hdc & _ & _ & Hup & _).
  split; [exact Hout|]. split; [exact Hdc|].
  rewrite (Hup "123"), Hreported. vm_compute. reflexivity.
Defined.

(** The replica of "A" reports the upload "123"; the probe of "B" then fails
    and ends only when the clock is read 40 s later, past one sweep interval
    (30 s): "123" is still registered at that reading, and is unregistered
    after it. *)
Lemma sweepTick_removes_after_the_interval :
  let run := sweepTick (scripted slowProbes) scriptedOrder 3 twoGroups 0%Z in
  (forall groupId connections,
     dataClients twoGroups !! groupId = Some connections -> connections <> []) /\
  UploadTask twoGroups !! "123" = Some groupA /\
  out run = Done tt /\
  trace run =
    [EvCall TimeNow {| wall := 40000000000; mono := 40000000000 |};
     EvCall (StorageCheckBlob 1) (Ok ["123"]);
     EvCall TimeNow {| wall := 80000000000; mono := 80000000000 |};
     EvCall (StorageCheckBlob 2) (Err (StatusError Unavailable "replica down"));
     EvCall TimeNow {| wall := 120000000000; mono := 120000000000 |};
     EvLogWarn "B";
     EvUnregister "123";
     EvCall TickerRecv tt] /\
  ~ removedWithin checkExpiredBlobsTimeout (trace run).
Proof.
  cbn zeta.
  assert (Htr : trace (sweepTick (scripted slowProbes) scriptedOrder 3 twoGroups 0%Z) =
    [EvCall TimeNow {| wall := 40000000000; mono := 40000000000 |};
     EvCall (StorageCheckBlob 1) (Ok ["123"]);
     EvCall TimeNow {| wall := 80000000000; mono := 80000000000 |};
     EvCall (StorageCheckBlob 2) (Err (StatusError Unavailable "replica down"));
     EvCall TimeNow {| wall := 120000000000; mono := 120000000000 |};
     EvLogWarn "B";
     EvUnregister "123";
     EvCall TickerRecv tt]) by (vm_compute; reflexivity).
  split.
  { intros groupId connections Hin.
    change (dataClients twoGroups)
      with (<["A" := [1]]> (<["B" := [2]]> (∅ : gmap string (list Conn)))) in Hin.
    apply lookup_insert_Some in Hin as [[_ <-]|[_ Hin]]; [discriminate|].
    apply lookup_insert_Some in Hin as [[_ <-]|[_ Hin]]; [discriminate|].
    by rewrite lookup_empty in Hin. }
  split; [vm_compute; reflexivity|]. split; [vm_compute; reflexivity|].
  split; [exact Htr|]. rewrite Htr. intros Hwithin.
  destruct (Hwithin 1 2 4 _ "123" _ _ ltac:(lia) ltac:(lia) eq_refl
              ltac:(cbn; by left) eq_refl eq_refl ltac:(vm_compute; congruence))
    as (u & Hu & Hun).
  do 4 (destruct u as [|u]; [discriminate Hun|]). lia.
Qed.

(** The case that the statement on the turn leaves out.  Metadata places a
    second upload on a group that has no address, and [createUploadID]
    caches the empty connection list of that group.  The next turn of the
    sweep is told by group "A" that "1000000000" has expired, panics at the
    probe of group "N", and removes nothing. *)
Example sweepTick_after_group_without_address :
  let s1 := srv (scriptedHandle allUp HCreateUploadID 3 (createRequest "0")
                   (NewProxyServer "127.0.0.1:8082" 0)) in
  let s2 := srv (handle (scripted noAddress) scriptedOrder noTimeZone noText
                   HCreateUploadID 3 (createRequest "0") s1 (5 * second)%Z) in
  let run := sweepTick (scripted (withExpired (fun _ => ["1000000000"]) allUp))
               scriptedOrder 3 s2 0%Z in
  map_to_list (dataClients s2) = [("A", [1; 2]); ("N", [])] /\
  UploadTask s2 !! "1000000000" = Some groupA /\
  out run = Panic "index out of range" /\
  flat_map reportedIds (trace run) = ["1000000000"] /\
  UploadTask (srv run) !! "1000000000" = Some groupA.
Proof. cbn zeta. repeat split; vm_compute; reflexivity. Qed.

(** The probe of group "A" fails on its only replica until the deadline has
    passed; the turn logs it, goes on to group "B", and unregisters what "B"
    reports. *)
Example sweepTick_passes_failed_group :
  let run := sweepTick (scripted oneDownOneExpired) scriptedOrder 4 twoGroups 0%Z in
  out run = Done tt /\
  omap checkBlobTarget (trace run) = [1; 1; 1; 2] /\
  List.filter (fun ev => match ev with EvCall _ _ => false | _ => true end) (trace run)
    = [EvLogWarn "A"; EvUnregister "123"] /\
  UploadTask twoGroups !! "123" = Some groupA /\
  UploadTask (srv run) !! "123" = None.
Proof.
  cbn zeta. split; [vm_compute; reflexivity|]. split; [vm_compute; reflexivity|].
  split; [|split; vm_compute; reflexivity].
  vm_compute. reflexivity.
Qed.

(** A proxy that has served one [createUploadID]. *)
Lemma cache_never_exceeds_capacity_witness :
  let s := srv (scriptedHandle allUp HCreateUploadID 3 (createRequest "0")
                  (NewProxyServer "127.0.0.1:8082" 0)) in
  (forall e m, scriptedOrder e m ≡ₚ map_to_list m) /\
  Reachable (scripted allUp) scriptedOrder noTimeZone noText s /\
  size (dataClients s) = 1 /\
  size (dataClients s) <= maxStorageConnection.
Proof.
  cbn zeta.
  assert (Hreach : Reachable (scripted allUp) scriptedOrder noTimeZone noText
                     (srv (scriptedHandle allUp HCreateUploadID 3 (createRequest "0")
                             (NewProxyServer "127.0.0.1:8082" 0))))
    by (apply ReachHandle, ReachNew).
  split; [exact scriptedOrder_perm|]. split; [exact Hreach|].
  split; [vm_compute; reflexivity|].
  exact (proj1 (cache_never_exceeds_capacity (scripted allUp) scriptedOrder noTimeZone
                  noText scriptedOrder_perm _ Hreach)).
Defined.

(** A cache at capacity: opening the connections of [groupA] closes the
    channel of one cached group, deletes that group and inserts [groupA]. *)
Example validateConnection_evicts_at_capacity :
  let run := validateConnection (scripted allUp) scriptedOrder groupA atCapacity 0%Z in
  size (dataClients atCapacity) = 10 /\
  out run = Done (Ok [1; 2]) /\
  trace run =
    [EvCall (Dial "s1:8080") (Ok 1); EvCall (Dial "s2:8080") (Ok 2);
     EvCall (ConnClose 17) (Ok tt); EvCacheEvict "g7"; EvCacheInsert "A" [1; 2]] /\
  dataClients atCapacity !! "g7" = Some [17] /\
  dataClients (srv run) = <["A" := [1; 2]]> (delete "g7" tenGroups) /\
  size (dataClients (srv run)) = 10.
Proof.
  cbn zeta. split; [vm_compute; reflexivity|]. split; [vm_compute; reflexivity|].
  split; [vm_compute; reflexivity|]. split; [vm_compute; reflexivity|].
  split; [|vm_compute; reflexivity].
  apply map_eq. intros k. apply option_eq. intros v.
  rewrite <- !elem_of_map_to_list.
  assert (Heq : map_to_list
                  (dataClients (srv (validateConnection (scripted allUp) scriptedOrder
                                       groupA atCapacity 0%Z)))
                = map_to_list (<["A" := [1; 2]]> (delete "g7" tenGroups)))
    by (vm_compute; reflexivity).
  by rewrite Heq.
Qed.

(** ** The further properties on the scripted environment *)

(** A bucket is created: three calls and one answer, the proxy unchanged. *)
Lemma service_handlers_keep_state_witness :
  let run := scriptedHandle allUp HCreateBucket 3 objectRequest emptyServer in
  reachesStorage HCreateBucket = false /\
  out run = Done tt /\
  srv run = emptyServer /\
  trace run =
    [EvCall (AuthCheck "T" "b" PermissionNone) (Ok tt);
     EvCall (MetaCreateBucket "b") (Ok tt);
     EvCall (AuthConfirm "T" "b") (Ok tt);
     EvWriteResponse ""].
Proof.
  cbn zeta. split; [reflexivity|].
  destruct (service_handlers_keep_state (scripted allUp) scriptedOrder noTimeZone noText
              HCreateBucket 3 objectRequest emptyServer 0%Z eq_refl) as (Hout & Hsrv & _).
  split; [exact Hout|]. split; [exact Hsrv|]. vm_compute. reflexivity.
Defined.

(** Auth refuses everything, and [listBucket] lists the buckets all the
    same. *)
Lemma listBucket_checks_no_token_witness :
  let r := request [("token", "anything")] (Ok "") in
  let run := listBucket (scripted denied) r emptyServer 0%Z in
  is_Some (form r !! "token") /\
  trace run = [EvCall MetaListBucket (Ok []); EvWriteResponse ""].
Proof.
  cbn zeta.
  assert (Htoken : is_Some (form (request [("token", "anything")] (Ok "")) !! "token"))
    by (vm_compute; eexists; reflexivity).
  split; [exact Htoken|].
  rewrite (proj2 (listBucket_checks_no_token (scripted denied)
                    (request [("token", "anything")] (Ok "")) emptyServer 0%Z) Htoken).
  vm_compute. reflexivity.
Defined.

(** Auth refuses the deletion of an object: the error of the check is
    answered and metadata is not called. *)
Lemma authorization_first_witness :
  let run := scriptedHandle denied HDeleteObject 3 objectRequest emptyServer in
  permission HDeleteObject = Some PermissionWrite /\
  (checkParameter objectRequest (required HDeleteObject)).2 = None /\
  srv run = emptyServer /\
  out run = Done tt /\
  trace run =
    [EvCall (AuthCheck "T" "b" PermissionWrite)
       (Err (StatusError PermissionDenied "permission denied"));
     EvWriteError (StatusError PermissionDenied "permission denied")].
Proof.
  cbn zeta. split; [reflexivity|]. split; [vm_compute; reflexivity|].
  assert (Hp : checkParameter objectRequest (required HDeleteObject)
               = ((checkParameter objectRequest (required HDeleteObject)).1, None))
    by (vm_compute; reflexivity).
  destruct (authorization_first (scripted denied) scriptedOrder noTimeZone noText
              HDeleteObject PermissionWrite 3 objectRequest emptyServer 0%Z _ eq_refl Hp)
    as (rest & Htr & Hdenied).
  destruct (Hdenied (StatusError PermissionDenied "permission denied"))
    as (_ & Hsrv & Hout); [vm_compute; reflexivity|].
  split; [exact Hsrv|]. split; [exact Hout|]. vm_compute. reflexivity.
Defined.

(** A [getObject] that fails over to the second replica answers once, at the
    end. *)
Lemma handle_answers_once_witness :
  let run := scriptedHandle firstDown HGetObject 3 (getRequest "2") emptyServer in
  out run = Done tt /\
  exists pre,
    trace run = pre ++ [EvWriteResponse "HELLO"] /\
    responses (trace run) = [EvWriteResponse "HELLO"].
Proof.
  cbn zeta.
  pose proof (handle_answers_once (scripted firstDown) scriptedOrder noTimeZone noText
                HGetObject 3 (getRequest "2") emptyServer 0%Z ltac:(discriminate)) as Honce.
  cbn zeta in Honce.
  assert (Hout : out (scriptedHandle firstDown HGetObject 3 (getRequest "2") emptyServer)
                 = Done tt) by (vm_compute; reflexivity).
  unfold scriptedHandle in *. rewrite Hout in Honce.
  destruct Honce as (pre & w & Htr & _ & Hresp).
  assert (Hw : w = EvWriteResponse "HELLO").
  { assert (Hcomputed : responses
              (trace (handle (scripted firstDown) scriptedOrder noTimeZone noText HGetObject 3
                        (getRequest "2") emptyServer 0%Z)) = [EvWriteResponse "HELLO"])
      by (vm_compute; reflexivity).
    rewrite Hcomputed in Hresp. by injection Hresp as <-. }
  subst w. split; [exact Hout|]. exists pre. split; [exact Htr|exact Hresp].
Defined.

(** [confirmUploadID] confirms the upload "123" and leaves it in the
    registry. *)
Lemma registry_written_by_createUploadID_alone_witness :
  let run := scriptedHandle allUp HConfirmUploadID 3 (confirmRequest "123") uploading in
  HConfirmUploadID <> HCreateUploadID /\
  responses (trace run) = [EvWriteResponse ""] /\
  UploadTask (srv run) = UploadTask uploading /\
  UploadTask (srv run) !! "123" = Some groupA.
Proof.
  cbn zeta.
  assert (Hh : HConfirmUploadID <> HCreateUploadID) by discriminate.
  destruct (registry_written_by_createUploadID_alone (scripted allUp) scriptedOrder
              noTimeZone noText HConfirmUploadID 3 (confirmRequest "123") uploading 0%Z Hh)
    as (Hup & _).
  split; [exact Hh|]. split; [vm_compute; reflexivity|]. split; [exact Hup|].
  unfold scriptedHandle. rewrite Hup. vm_compute. reflexivity.
Defined.

(** Metadata is down: [deleteObject] answers the error of
    [metadata.DeleteMeta]. *)
Lemma errors_relayed_witness :
  let tr := trace (scriptedHandle metaDown HDeleteObject 3 objectRequest emptyServer) in
  tr !! 1 ≫= failedCall = Some (StatusError Unavailable "metadata down") /\
  drop 2 tr = [EvWriteError (StatusError Unavailable "metadata down")].
Proof.
  cbn zeta.
  assert (Hfailed : trace (scriptedHandle metaDown HDeleteObject 3 objectRequest emptyServer)
                      !! 1 ≫= failedCall = Some (StatusError Unavailable "metadata down"))
    by (vm_compute; reflexivity).
  split; [exact Hfailed|].
  exact (errors_relayed (scripted metaDown) scriptedOrder noTimeZone noText HDeleteObject 3
           objectRequest emptyServer 0%Z 1 _ Hfailed).
Defined.
(** The connections of [groupA] are opened once; a later request for the
    group id "A", with other addresses, gets them from the cache, also after
    an upload has been registered. *)
Lemma validateConnection_cached_witness :
  let run := validateConnection (scripted allUp) scriptedOrder groupA emptyServer 0%Z in
  let again := {| GroupId := "A"; Addresses := ["s9:8080"] |} in
  out run = Done (Ok [1; 2]) /\
  dataClients connected !! "A" = Some [1; 2] /\
  dataClients (srv run) !! "A" = Some [1; 2] /\
  validateConnection (scripted allUp) scriptedOrder again connected 5%Z =
    MkRun (Done (Ok [1; 2])) connected 5%Z [].
Proof.
  cbn zeta.
  assert (Hout : out (validateConnection (scripted allUp) scriptedOrder groupA emptyServer 0%Z)
                 = Done (Ok [1; 2])) by (vm_compute; reflexivity).
  assert (Hin : dataClients connected !! GroupId groupA = Some [1; 2])
    by (vm_compute; reflexivity).
  split; [exact Hout|]. split; [exact Hin|].
  destruct (validateConnection_cached (scripted allUp) scriptedOrder groupA
              {| GroupId := "A"; Addresses := ["s9:8080"] |} emptyServer 0%Z connected 5%Z
              [1; 2] Hout eq_refl) as [Hcached Hagain].
  split; [exact Hcached|exact (Hagain Hin)].
Defined.

(** The second address of [groupB] cannot be dialled: the connection to the
    first stays open and is not cached. *)
Lemma validateConnection_dial_failure_witness :
  let run := validateConnection (scripted allUp) scriptedOrder groupB emptyServer 0%Z in
  out run = Done (Err (PlainError "no such host")) /\
  srv run = emptyServer /\
  trace run =
    [EvCall (Dial "s1:8080") (Ok 1);
     EvCall (Dial "s9:8080") (Err (PlainError "no such host"))].
Proof.
  cbn zeta.
  assert (Hout : out (validateConnection (scripted allUp) scriptedOrder groupB emptyServer 0%Z)
                 = Done (Err (PlainError "no such host"))) by (vm_compute; reflexivity).
  split; [exact Hout|].
  destruct (validateConnection_dial_failure (scripted allUp) scriptedOrder groupB emptyServer
              0%Z _ Hout) as (Hsrv & _).
  split; [exact Hsrv|]. vm_compute. reflexivity.
Defined.

(** The connections of [groupA] are dialled in the order of its addresses
    and inserted into the empty cache. *)
Lemma validateConnection_opens_group_witness :
  let run := validateConnection (scripted allUp) scriptedOrder groupA emptyServer 0%Z in
  dataClients emptyServer !! GroupId groupA = None /\
  out run = Done (Ok [1; 2]) /\
  size (dataClients emptyServer) < maxStorageConnection /\
  trace run =
    [EvCall (Dial "s1:8080") (Ok 1); EvCall (Dial "s2:8080") (Ok 2);
     EvCacheInsert "A" [1; 2]] /\
  srv run = setDataClients (<["A" := [1; 2]]>) emptyServer.
Proof.
  cbn zeta.
  assert (Hmiss : dataClients emptyServer !! GroupId groupA = None)
    by (vm_compute; reflexivity).
  assert (Hout : out (validateConnection (scripted allUp) scriptedOrder groupA emptyServer 0%Z)
                 = Done (Ok [1; 2])) by (vm_compute; reflexivity).
  assert (Hroom : size (dataClients emptyServer) < maxStorageConnection)
    by (vm_compute; lia).
  split; [exact Hmiss|]. split; [exact Hout|]. split; [exact Hroom|].
  destruct (validateConnection_opens_group (scripted allUp) scriptedOrder groupA emptyServer
              0%Z [1; 2] Hmiss Hout) as (_ & rest & Htr & _ & Hbelow).
  destruct (Hbelow Hroom) as [-> Hsrv]. split; [exact Htr|exact Hsrv].
Defined.

(** Metadata places the object on a group without address: the handler
    panics, and the id and the empty cache entry stay. *)
Lemma createUploadID_group_without_address_witness :
  let run := createUploadID (scripted noAddress) scriptedOrder 3 (createRequest "0")
               emptyServer 0%Z in
  omap checkMetaReply (trace run) = [Ok {| Existed := false; cm_Group := Some groupNone |}] /\
  out run = Panic "index out of range" /\
  responses (trace run) = [] /\
  dataClients (srv run) !! "N" = Some [] /\
  UploadTask (srv run) !! "1000000000" = Some groupNone.
Proof.
  cbn zeta.
  assert (Hreply : omap checkMetaReply
                     (trace (createUploadID (scripted noAddress) scriptedOrder 3
                               (createRequest "0") emptyServer 0%Z))
                   = [Ok {| Existed := false; cm_Group := Some groupNone |}])
    by (vm_compute; reflexivity).
  assert (Hfresh : ~ (formValue (createRequest "0") "id" <> "0" /\
                      is_Some (UploadTask emptyServer !! formValue (createRequest "0") "id")))
    by (intros [Hne _]; apply Hne; vm_compute; reflexivity).
  split; [exact Hreply|].
  destruct (createUploadID_group_without_address (scripted noAddress) scriptedOrder 3
              (createRequest "0") emptyServer 0%Z _ groupNone Hreply eq_refl eq_refl Hfresh
              eq_refl eq_refl ltac:(lia))
    as (Hout & Hresp & _ & Hcache & _).
  split; [exact Hout|]. split; [exact Hresp|]. split; [exact Hcache|].
  vm_compute. reflexivity.
Defined.

(** The cache holds the group "N" without connection: the turn of the sweep
    panics, and the upload "123" that group "A" has reported stays
    registered. *)
Lemma sweepTick_group_without_connection_witness :
  let run := sweepTick (scripted expired123) scriptedOrder 3 cachedNone 0%Z in
  (forall e m, scriptedOrder e m ≡ₚ map_to_list m) /\
  AdvancingClock (scripted expired123) (fun clock => clock) second /\
  (executeTimeout < Z.of_nat 3 * second)%Z /\
  dataClients cachedNone !! "N" = Some [] /\
  flat_map reportedIds (trace run) = ["123"] /\
  out run = Panic "index out of range" /\
  UploadTask (srv run) !! "123" = Some groupA.
Proof.
  cbn zeta.
  assert (Hclock : AdvancingClock (scripted expired123) (fun clock => clock) second)
    by (apply (scripted_clock expired123); vm_compute; discriminate).
  assert (Hfuel : (executeTimeout < Z.of_nat 3 * second)%Z) by (vm_compute; reflexivity).
  assert (Hempty : dataClients cachedNone !! "N" = Some []) by (vm_compute; reflexivity).
  split; [exact scriptedOrder_perm|]. split; [exact Hclock|]. split; [exact Hfuel|].
  split; [exact Hempty|]. split; [vm_compute; reflexivity|].
  destruct (sweepTick_group_without_connection (scripted expired123) scriptedOrder
              scriptedOrder_perm (fun clock => clock) second 3 cachedNone 0%Z "N"
              Hclock Hfuel Hempty) as (Hout & Hup & _).
  split; [exact Hout|]. rewrite Hup. vm_compute. reflexivity.
Defined.

(** Two turns of the sweep on a proxy with the upload "123": the upload is
    unregistered, the cache is as it was, and the ticker was waited for
    twice. *)
Lemma checkExpiredBlobs_only_removes_witness :
  let run := checkExpiredBlobs (scripted expired123) scriptedOrder 3 2 connected 0%Z in
  out run = Done tt /\
  dataClients (srv run) = dataClients connected /\
  UploadTask (srv run) ⊆ UploadTask connected /\
  UploadTask (srv run) !! "123" = None /\
  List.length (List.filter isTick (trace run)) = 2.
Proof.
  cbn zeta.
  assert (Hout : out (checkExpiredBlobs (scripted expired123) scriptedOrder 3 2 connected 0%Z)
                 = Done tt) by (vm_compute; reflexivity).
  destruct (checkExpiredBlobs_only_removes (scripted expired123) scriptedOrder 3 2
              connected 0%Z) as (Hdc & Hsub & _ & _ & Hticks).
  split; [exact Hout|]. split; [exact Hdc|]. split; [exact Hsub|].
  split; [vm_compute; reflexivity|exact (Hticks Hout)].
Defined.

(** Metadata names no group: both handlers panic before they answer. *)
Lemma nil_group_panics_witness :
  let create := createUploadID (scripted noGroup) scriptedOrder 3 (createRequest "0")
                  emptyServer 0%Z in
  let get := getObject (scripted noGroupMeta) scriptedOrder 3 (getRequest "0")
               emptyServer 0%Z in
  out create = Panic "nil pointer dereference" /\
  UploadTask (srv create) = UploadTask emptyServer /\
  responses (trace create) = [] /\
  out get = Panic "nil pointer dereference" /\
  dataClients (srv get) = dataClients emptyServer /\
  responses (trace get) = [].
Proof.
  cbn zeta.
  assert (Hreply : omap checkMetaReply
                     (trace (createUploadID (scripted noGroup) scriptedOrder 3
                               (createRequest "0") emptyServer 0%Z))
                   = [Ok {| Existed := false; cm_Group := None |}])
    by (vm_compute; reflexivity).
  assert (Hfresh : ~ (formValue (createRequest "0") "id" <> "0" /\
                      is_Some (UploadTask emptyServer !! formValue (createRequest "0") "id")))
    by (intros [Hne _]; apply Hne; vm_compute; reflexivity).
  assert (Hmeta : omap getMetaReply
                    (trace (getObject (scripted noGroupMeta) scriptedOrder 3 (getRequest "0")
                              emptyServer 0%Z))
                  = [Ok {| gm_Group := None; gm_VolumeId := 7; gm_Offset := 4096;
                           gm_Size := 5; gm_Name := "hello.txt"; gm_CreatedTime := 0 |}])
    by (vm_compute; reflexivity).
  destruct (nil_group_panics (scripted noGroup) scriptedOrder 3 (createRequest "0")
              emptyServer 0%Z) as [Hcreate _].
  destruct (nil_group_panics (scripted noGroupMeta) scriptedOrder 3 (getRequest "0")
              emptyServer 0%Z) as [_ Hget].
  destruct (Hcreate _ Hreply eq_refl eq_refl Hfresh) as (Hout & Hup & _).
  destruct (Hget _ Hmeta eq_refl) as (Hout' & _ & Hdc' & _).
  split; [exact Hout|]. split; [exact Hup|]. split; [vm_compute; reflexivity|].
  split; [exact Hout'|]. split; [exact Hdc'|]. vm_compute. reflexivity.
Defined.
(** Replica 1 is down: the body comes from replica 2, for the location that
    metadata gave and the start of the request. *)
Lemma getObject_serves_stored_bytes_witness :
  let run := getObject (scripted firstDown) scriptedOrder 3 (getRequest "2") emptyServer 0%Z in
  EvWriteResponse "HELLO" ∈ trace run /\
  exists pre c,
    trace run = pre ++ [EvCall (StorageGet c 7 4096 2) (Ok "HELLO");
                        EvHeader "name" "hello.txt";
                        EvWriteResponse "HELLO"] /\
    responses (trace run) = [EvWriteResponse "HELLO"].
Proof.
  cbn zeta.
  assert (Hwrote : EvWriteResponse "HELLO" ∈
            trace (getObject (scripted firstDown) scriptedOrder 3 (getRequest "2")
                     emptyServer 0%Z)).
  { apply list_elem_of_In. vm_compute. do 10 right. left. reflexivity. }
  split; [exact Hwrote|].
  destruct (getObject_serves_stored_bytes (scripted firstDown) scriptedOrder 3
              (getRequest "2") emptyServer 0%Z "HELLO" Hwrote)
    as (pre & meta & group & connections & c & Htr & _ & Hmeta & _ & _ & _ & Hresp).
  assert (Hmeta' : omap getMetaReply
                     (trace (getObject (scripted firstDown) scriptedOrder 3 (getRequest "2")
                               emptyServer 0%Z))
                   = [Ok {| gm_Group := Some groupA; gm_VolumeId := 7; gm_Offset := 4096;
                            gm_Size := 5; gm_Name := "hello.txt"; gm_CreatedTime := 0 |}])
    by (vm_compute; reflexivity).
  rewrite Htr, omap_app, Hmeta in Hmeta'. cbn in Hmeta'. injection Hmeta' as ->.
  exists pre, c. split; [exact Htr|exact Hresp].
Defined.

(** The body "HELLO" of the request goes to replica 1 of [groupA], where the
    upload "123" is registered, at offset 7. *)
Lemma putObject_forwards_body_witness :
  let r := putRequest "123" "7" (Ok "HELLO") in
  let run := putObject (scripted allUp) scriptedOrder 3 r uploading 0%Z in
  trace run !! 5 ≫= putSent = Some (1, "HELLO", "123", 7%Z) /\
  body r = Ok "HELLO" /\
  strconv.ParseInt (formValue r "offset") = (7%Z, None) /\
  exists group connections,
    UploadTask uploading !! "123" = Some group /\
    dataClients (srv run) !! GroupId group = Some connections /\
    1 ∈ connections.
Proof.
  cbn zeta.
  assert (Hput : trace (putObject (scripted allUp) scriptedOrder 3
                          (putRequest "123" "7" (Ok "HELLO")) uploading 0%Z) !! 5 ≫= putSent
                 = Some (1, "HELLO", "123", 7%Z)) by (vm_compute; reflexivity).
  split; [exact Hput|].
  destruct (proj2 (putObject_forwards_body (scripted allUp) scriptedOrder 3
                     (putRequest "123" "7" (Ok "HELLO")) uploading 0%Z) _ _ _ _ _ Hput)
    as (Hbody & _ & Hoffset & group & connections & Hreg & Hcache & Hin).
  split; [exact Hbody|]. split; [exact Hoffset|]. by exists group, connections.
Defined.

(** An upload is created and then confirmed: the confirmation dials
    nothing. *)
Lemma confirm_after_create_uses_cached_connections_witness :
  let run := createUploadID (scripted allUp) scriptedOrder 3 (createRequest "0")
               emptyServer 0%Z in
  let run' := confirmUploadID (scripted allUp) scriptedOrder 3 (confirmRequest "1000000000")
                (srv run) 5%Z in
  omap checkMetaReply (trace run) = [Ok {| Existed := false; cm_Group := Some groupA |}] /\
  EvWriteResponse "1000000000" ∈ trace run /\
  omap authCheckReply (trace run') = [Ok tt] /\
  dataClients (srv run) !! "A" = Some [1; 2] /\
  omap dialTarget (trace run') = [] /\
  dataClients (srv run') = dataClients (srv run) /\
  responses (trace run') = [EvWriteResponse ""].
Proof.
  cbn zeta.
  assert (Hreply : omap checkMetaReply
                     (trace (createUploadID (scripted allUp) scriptedOrder 3
                               (createRequest "0") emptyServer 0%Z))
                   = [Ok {| Existed := false; cm_Group := Some groupA |}])
    by (vm_compute; reflexivity).
  assert (Hfresh : ~ (formValue (createRequest "0") "id" <> "0" /\
                      is_Some (UploadTask emptyServer !! formValue (createRequest "0") "id")))
    by (intros [Hne _]; apply Hne; vm_compute; reflexivity).
  assert (Hwrote : EvWriteResponse "1000000000" ∈
            trace (createUploadID (scripted allUp) scriptedOrder 3 (createRequest "0")
                     emptyServer 0%Z)).
  { apply list_elem_of_In. vm_compute. do 9 right. left. reflexivity. }
  assert (Hauth : omap authCheckReply
                    (trace (confirmUploadID (scripted allUp) scriptedOrder 3
                              (confirmRequest "1000000000")
                              (srv (createUploadID (scripted allUp) scriptedOrder 3
                                      (createRequest "0") emptyServer 0%Z)) 5%Z)) = [Ok tt])
    by (vm_compute; reflexivity).
  split; [exact Hreply|]. split; [exact Hwrote|]. split; [exact Hauth|].
  destruct (confirm_after_create_uses_cached_connections (scripted allUp) scriptedOrder 3
              (createRequest "0") emptyServer 0%Z _ groupA "1000000000" 3
              (confirmRequest "1000000000") 5%Z Hreply eq_refl eq_refl Hfresh Hwrote
              ltac:(vm_compute; reflexivity) Hauth)
    as (connections & pre & str & o' & str' & rest' & Hcache & _ & _ & _ & _ & Hnodial & Hdc).
  split; [vm_compute; reflexivity|]. split; [exact Hnodial|]. split; [exact Hdc|].
  vm_compute. reflexivity.
Defined.

(** Two requests read the same nanosecond: the second gets the id of the
    first. *)
Lemma minted_ids_follow_the_clock_witness :
  let run := createUploadID (scripted allUp) scriptedOrder 3 (createRequest "0")
               emptyServer 0%Z in
  let run' := createUploadID (scripted allUp) scriptedOrder 3 (createRequest "0")
                (srv run) 0%Z in
  omap checkMetaReply (trace run) = [Ok {| Existed := false; cm_Group := Some groupA |}] /\
  omap checkMetaReply (trace run') = [Ok {| Existed := false; cm_Group := Some groupA |}] /\
  responses (trace run) = [EvWriteResponse "1000000000"] /\
  responses (trace run') = [EvWriteResponse "1000000000"] /\
  exists now now',
    mintedId now' = mintedId now /\
    UploadTask (srv run') !! mintedId now = Some (registered groupA).
Proof.
  cbn zeta.
  assert (Hreply : omap checkMetaReply
                     (trace (createUploadID (scripted allUp) scriptedOrder 3
                               (createRequest "0") emptyServer 0%Z))
                   = [Ok {| Existed := false; cm_Group := Some groupA |}])
    by (vm_compute; reflexivity).
  assert (Hfresh : ~ (formValue (createRequest "0") "id" <> "0" /\
                      is_Some (UploadTask emptyServer !! formValue (createRequest "0") "id")))
    by (intros [Hne _]; apply Hne; vm_compute; reflexivity).
  assert (Hreply' : omap checkMetaReply
                      (trace (createUploadID (scripted allUp) scriptedOrder 3
                                (createRequest "0")
                                (srv (createUploadID (scripted allUp) scriptedOrder 3
                                        (createRequest "0") emptyServer 0%Z)) 0%Z))
                    = [Ok {| Existed := false; cm_Group := Some groupA |}])
    by (vm_compute; reflexivity).
  assert (Hfresh' : ~ (formValue (createRequest "0") "id" <> "0" /\
                       is_Some (UploadTask
                                  (srv (createUploadID (scripted allUp) scriptedOrder 3
                                          (createRequest "0") emptyServer 0%Z))
                                  !! formValue (createRequest "0") "id")))
    by (intros [Hne _]; apply Hne; vm_compute; reflexivity).
  split; [exact Hreply|]. split; [exact Hreply'|].
  split; [vm_compute; reflexivity|]. split; [vm_compute; reflexivity|].
  destruct (minted_ids_follow_the_clock (scripted allUp) scriptedOrder 3 (createRequest "0")
              emptyServer 0%Z _ groupA 3 (createRequest "0") 0%Z _ groupA
              Hreply eq_refl eq_refl Hfresh Hreply' eq_refl eq_refl Hfresh')
    as (now & now' & rest & rest' & Htr & Htr' & Hinj & _ & Hreg).
  assert (Hsame : Time_UnixNano now' = Time_UnixNano now).
  { assert (H1 : trace (createUploadID (scripted allUp) scriptedOrder 3 (createRequest "0")
                          emptyServer 0%Z) !! 2
                 = Some (EvCall TimeNow {| wall := 1000000000; mono := 1000000000 |}))
      by (vm_compute; reflexivity).
    assert (H2 : trace (createUploadID (scripted allUp) scriptedOrder 3 (createRequest "0")
                          (srv (createUploadID (scripted allUp) scriptedOrder 3
                                  (createRequest "0") emptyServer 0%Z)) 0%Z) !! 3
                 = Some (EvRegister "1000000000" groupA))
      by (vm_compute; reflexivity).
    assert (H3 : trace (createUploadID (scripted allUp) scriptedOrder 3 (createRequest "0")
                          emptyServer 0%Z) !! 3
                 = Some (EvRegister "1000000000" groupA))
      by (vm_compute; reflexivity).
    rewrite Htr in H3. rewrite Htr' in H2. cbn in H2, H3.
    injection H2 as H2. injection H3 as H3.
    apply Hinj. congruence. }
  exists now, now'. split; [by apply Hinj|].
  rewrite Hreg. by destruct (decide (Time_UnixNano now' = Time_UnixNano now)).
Defined.

(** The panic of [createUploadID] on a group without address is of the
    second kind. *)
Lemma handle_panics_only_witness :
  let run := scriptedHandle noAddress HCreateUploadID 3 (createRequest "0") emptyServer in
  out run = Panic "index out of range" /\
  reachesStorage HCreateUploadID = true /\
  exists groupId, dataClients (srv run) !! groupId = Some [].
Proof.
  cbn zeta.
  assert (Hout : out (scriptedHandle noAddress HCreateUploadID 3 (createRequest "0")
                        emptyServer) = Panic "index out of range")
    by (vm_compute; reflexivity).
  split; [exact Hout|].
  destruct (handle_panics_only (scripted noAddress) scriptedOrder noTimeZone noText
              HCreateUploadID 3 (createRequest "0") emptyServer 0%Z _ Hout)
    as (Hstorage & [(Hmsg & _)|(_ & Hempty)]); [discriminate Hmsg|].
  split; [exact Hstorage|exact Hempty].
Defined.

(** A client proposes the id "mine" for a new upload: the registry gets the
    id that the proxy mints from the clock, for the group that [CheckMeta]
    has answered, and not the id of the client. *)
Lemma registry_holds_minted_ids_witness :
  let run := scriptedHandle allUp HCreateUploadID 3 (createRequest "mine")
               (NewProxyServer "127.0.0.1:8082" 0) in
  History (scripted allUp) scriptedOrder noTimeZone noText ([] ++ trace run) (srv run) /\
  UploadTask (srv run) !! "1000000000" = Some groupA /\
  UploadTask (srv run) !! "mine" = None /\
  exists i now,
    ([] ++ trace run) !! S i = Some (EvCall TimeNow now) /\
    ([] ++ trace run) !! S (S i) = Some (EvRegister "1000000000" groupA) /\
    "1000000000" = strconv.FormatInt (Time_UnixNano now).
Proof.
  cbn zeta.
  assert (Hhist : History (scripted allUp) scriptedOrder noTimeZone noText
                    ([] ++ trace (scriptedHandle allUp HCreateUploadID 3 (createRequest "mine")
                                    (NewProxyServer "127.0.0.1:8082" 0)))
                    (srv (scriptedHandle allUp HCreateUploadID 3 (createRequest "mine")
                            (NewProxyServer "127.0.0.1:8082" 0))))
    by (apply HistoryHandle, HistoryNew).
  assert (Hid : UploadTask
                  (srv (scriptedHandle allUp HCreateUploadID 3 (createRequest "mine")
                          (NewProxyServer "127.0.0.1:8082" 0))) !! "1000000000"
                = Some groupA)
    by (vm_compute; reflexivity).
  split; [exact Hhist|]. split; [exact Hid|]. split; [vm_compute; reflexivity|].
  destruct (registry_holds_minted_ids (scripted allUp) scriptedOrder noTimeZone noText _ _ _ _
              Hhist Hid) as (i & response & now & placed & _ & _ & Hnow & Hreg & Hminted & _).
  exists i, now. split; [exact Hnow|]. split; [exact Hreg|exact Hminted].
Defined.

(** The upload "123" is confirmed: metadata records the object of the
    confirming request on group "A". *)
Lemma confirmUploadID_records_request_witness :
  let r := confirmRequest "123" in
  let run := confirmUploadID (scripted allUp) scriptedOrder 3 r uploading 0%Z in
  trace run !! 6 ≫= putMetaRecord = Some ("b", "hello", "sha-AAA", "hello.txt", "A") /\
  formValue r "bucket" = "b" /\
  formValue r "key" = "hello" /\
  exists group, UploadTask uploading !! formValue r "id" = Some group /\ "A" = GroupId group.
Proof.
  cbn zeta.
  assert (Hput : trace (confirmUploadID (scripted allUp) scriptedOrder 3 (confirmRequest "123")
                          uploading 0%Z) !! 6 ≫= putMetaRecord
                 = Some ("b", "hello", "sha-AAA", "hello.txt", "A"))
    by (vm_compute; reflexivity).
  split; [exact Hput|].
  destruct (confirmUploadID_records_request (scripted allUp) scriptedOrder 3
              (confirmRequest "123") uploading 0%Z 6 _ _ _ _ _ Hput)
    as (Hbucket & Hkey & _ & _ & group & Hreg & Hgid & _).
  split; [by rewrite <- Hbucket|]. split; [by rewrite <- Hkey|]. by exists group.
Defined.

(** The scripted environment in which everything answers is healthy. *)
Lemma allUp_healthy :
  Healthy (scripted allUp) {| Existed := false; cm_Group := Some groupA |} groupA.
Proof.
  split; try done.
  - intros address e Hin. cbn in Hin.
    apply elem_of_cons in Hin as [->|Hin]; [by exists 1|].
    apply elem_of_cons in Hin as [->|Hin]; [by exists 2|].
    by apply elem_of_nil in Hin.
  - intros c id e. by exists confirmA.
Qed.

(** The upload of "HELLO" at offset 7, from the first request to the
    record in metadata. *)
Lemma upload_completes_witness :
  let create := createUploadID (scripted allUp) scriptedOrder 3 (createRequest "0")
                  emptyServer 0%Z in
  let put := putObject (scripted allUp) scriptedOrder 3
               (putRequest "1000000000" "7" (Ok "HELLO")) (srv create) 5%Z in
  let confirm := confirmUploadID (scripted allUp) scriptedOrder 3
                   (confirmRequest "1000000000") (srv put) 9%Z in
  Healthy (scripted allUp) {| Existed := false; cm_Group := Some groupA |} groupA /\
  complete HCreateUploadID (createRequest "0") /\
  responses (trace create) = [EvWriteResponse "1000000000"] /\
  out put = Done tt /\
  responses (trace put) = [EvWriteResponse ""] /\
  out confirm = Done tt /\
  responses (trace confirm) = [EvWriteResponse ""] /\
  exists triple,
    omap confirmedTriple (trace confirm) = [triple] /\
    omap putMetaTriple (trace confirm) = [triple].
Proof.
  cbn zeta.
  assert (Hcomplete : forall h r, Forall (fun k => is_Some (form r !! k)) (required h) ->
                                  complete h r).
  { intros h r Hall k Hk. exact (proj1 (Forall_forall _ _) Hall k Hk). }
  assert (Hall : complete HCreateUploadID (createRequest "0")).
  { apply Hcomplete. repeat constructor; vm_compute; eexists; reflexivity. }
  assert (Hallp : complete HPutObject (putRequest "1000000000" "7" (Ok "HELLO"))).
  { apply Hcomplete. repeat constructor; vm_compute; eexists; reflexivity. }
  assert (Hallc : complete HConfirmUploadID (confirmRequest "1000000000")).
  { apply Hcomplete. repeat constructor; vm_compute; eexists; reflexivity. }
  assert (Hfresh : ~ (formValue (createRequest "0") "id" <> "0" /\
                      is_Some (UploadTask emptyServer !! formValue (createRequest "0") "id")))
    by (intros [Hne _]; apply Hne; vm_compute; reflexivity).
  assert (Hcached : forall connections,
            dataClients emptyServer !! GroupId groupA = Some connections ->
            connections <> []) by (intros connections; vm_compute; discriminate).
  split; [exact allUp_healthy|]. split; [exact Hall|].
  destruct (upload_completes (scripted allUp) scriptedOrder _ groupA 3 (createRequest "0")
              emptyServer 0%Z allUp_healthy ltac:(lia) Hall Hfresh Hcached)
    as (id & _ & Hresp & Hrest).
  assert (Hid : id = "1000000000").
  { assert (Hcomputed : responses
              (trace (createUploadID (scripted allUp) scriptedOrder 3 (createRequest "0")
                        emptyServer 0%Z)) = [EvWriteResponse "1000000000"])
      by (vm_compute; reflexivity).
    rewrite Hcomputed in Hresp. by injection Hresp as <-. }
  subst id. split; [exact Hresp|].
  destruct (Hrest (putRequest "1000000000" "7" (Ok "HELLO")) 5%Z 7%Z "HELLO" Hallp
              ltac:(vm_compute; reflexivity) ltac:(vm_compute; reflexivity) eq_refl)
    as (Hout & Hresp' & _ & Hconfirm).
  split; [exact Hout|]. split; [exact Hresp'|].
  exact (Hconfirm (confirmRequest "1000000000") 9%Z Hallc ltac:(vm_compute; reflexivity)).
Defined.
